(** * ci-helper (flashpipe orchestrator): shallow embedding and verified claims

    The development follows the layout of the Go sources:
    - [GoStrings]    : the functions of Go's [strings] package used by the code,
                       over byte strings;
    - [Repo]         : internal/repo/partnerdirectory.go (property codec,
                       content-type resolver, binary file names);
    - [Deploy]       : internal/deploy (manifest rewriter, config merge);
    - [Batch]        : internal/httpclnt/batch.go;
    - [PDDeploy]     : the Partner Directory deploy command;
    - [Orchestrator] : phase 1 of the orchestrator command. *)

From Stdlib Require Import Ascii String List Bool Arith Lia DecimalString.
From stdpp Require Import base option list strings gmap sorting.

Local Open Scope string_scope.
Local Open Scope list_scope.

(** ** Go's [strings] package on byte strings

    A Go [string] is a sequence of bytes; it is modelled by [string], whose
    characters are 8-bit [ascii] values.  Where Go decodes UTF-8 (white space
    and case mapping) the encodings are written out as bytes. *)
Module GoStrings.

Definition byte (n : nat) : ascii := ascii_of_nat n.

Fixpoint bytes (l : list nat) : string :=
  match l with
  | [] => ""
  | n :: l' => String (byte n) (bytes l')
  end.

Definition LF : string := bytes [10].
Definition CR : string := bytes [13].
Definition CRLF : string := bytes [13; 10].
Definition BACKSLASH : string := bytes [92].

(** [strings.HasPrefix(s, prefix)]. *)
Fixpoint HasPrefix (s prefix : string) {struct prefix} : bool :=
  match prefix with
  | "" => true
  | String p prefix' =>
      match s with
      | "" => false
      | String c s' => if Ascii.eqb c p then HasPrefix s' prefix' else false
      end
  end.

Fixpoint rev (s : string) : string :=
  match s with
  | "" => ""
  | String c s' => rev s' +:+ String c ""
  end.

(** [strings.HasSuffix(s, suffix)]. *)
Definition HasSuffix (s suffix : string) : bool :=
  HasPrefix (rev s) (rev suffix).

(** [strings.Contains(s, substr)]. *)
Fixpoint Contains (s substr : string) : bool :=
  HasPrefix s substr ||
  match s with
  | "" => false
  | String _ s' => Contains s' substr
  end.

(** [strings.Index(s, substr)]: byte offset of the first occurrence. *)
Fixpoint Index (s substr : string) : option nat :=
  if HasPrefix s substr then Some 0
  else match s with
       | "" => None
       | String _ s' => S <$> Index s' substr
       end.

(** [s[:n]] and [s[n:]]. *)
Fixpoint take (n : nat) (s : string) : string :=
  match n, s with
  | S k, String c s' => String c (take k s')
  | _, _ => ""
  end.

Fixpoint drop (n : nat) (s : string) : string :=
  match n, s with
  | S k, String _ s' => drop k s'
  | _, _ => s
  end.

(** [strings.ReplaceAll(s, old, new)] for a non-empty [old]: the occurrences
    of [old] are found from left to right and do not overlap.  [skip] counts
    the bytes of a matched occurrence that are still to be passed over.  (For
    an empty [old] Go inserts [new] around every rune; no call site of the
    modelled code passes one, and the model returns [s].) *)
Fixpoint replace_go (skip : nat) (old new s : string) : string :=
  match s with
  | "" => ""
  | String c s' =>
      match skip with
      | S k => replace_go k old new s'
      | O =>
          if HasPrefix s old
          then new +:+ replace_go (String.length old - 1) old new s'
          else String c (replace_go 0 old new s')
      end
  end.

Definition ReplaceAll (s old new : string) : string :=
  match old with
  | "" => s
  | _ => replace_go 0 old new s
  end.

(** [strings.Split(s, sep)] for a non-empty [sep]: [cur] holds the bytes of
    the piece being read, in reverse. *)
Fixpoint split_go (skip : nat) (sep cur s : string) : list string :=
  match s with
  | "" => [rev cur]
  | String c s' =>
      match skip with
      | S k => split_go k sep cur s'
      | O =>
          if HasPrefix s sep
          then rev cur :: split_go (String.length sep - 1) sep "" s'
          else split_go 0 sep (String c cur) s'
      end
  end.

Definition Split (s sep : string) : list string := split_go 0 sep "" s.

(** [strings.Join(elems, sep)]. *)
Fixpoint Join (elems : list string) (sep : string) : string :=
  match elems with
  | [] => ""
  | [e] => e
  | e :: elems' => e +:+ sep +:+ Join elems' sep
  end.

(** *** White space

    [strings.TrimSpace] removes the leading and trailing runes for which
    [unicode.IsSpace] holds.  These are the six ASCII characters below and the
    code points U+0085, U+00A0, U+1680, U+2000..U+200A, U+2028, U+2029,
    U+202F, U+205F and U+3000, listed here by their UTF-8 encoding. *)
Definition asciiSpace (c : ascii) : bool :=
  let n := nat_of_ascii c in
  (((9 <=? n) && (n <=? 13)) || (n =? 32))%nat.

Definition unicodeSpaces : list string :=
  [ bytes [194; 133]; bytes [194; 160]; bytes [225; 154; 128];
    bytes [226; 128; 128]; bytes [226; 128; 129]; bytes [226; 128; 130];
    bytes [226; 128; 131]; bytes [226; 128; 132]; bytes [226; 128; 133];
    bytes [226; 128; 134]; bytes [226; 128; 135]; bytes [226; 128; 136];
    bytes [226; 128; 137]; bytes [226; 128; 138]; bytes [226; 128; 168];
    bytes [226; 128; 169]; bytes [226; 128; 175]; bytes [226; 129; 159];
    bytes [227; 128; 128] ].

(** Length in bytes of the space rune that [s] starts with (read forwards
    with the encodings [pats]), 0 when [s] starts with none. *)
Definition spaceLen (pats : list string) (s : string) : nat :=
  match s with
  | "" => 0
  | String c _ =>
      if asciiSpace c then 1
      else match List.find (HasPrefix s) pats with
           | Some p => String.length p
           | None => 0
           end
  end.

Fixpoint trim_go (pats : list string) (skip : nat) (s : string) : string :=
  match s with
  | "" => ""
  | String c s' =>
      match skip with
      | S k => trim_go pats k s'
      | O =>
          match spaceLen pats s with
          | O => s
          | S k => trim_go pats k s'
          end
      end
  end.

Definition TrimLeftSpace (s : string) : string := trim_go unicodeSpaces 0 s.

Definition TrimRightSpace (s : string) : string :=
  rev (trim_go (List.map rev unicodeSpaces) 0 (rev s)).

Definition TrimSpace (s : string) : string := TrimRightSpace (TrimLeftSpace s).

(** *** Case mapping

    [strings.ToLower]: the ASCII letters A..Z are mapped to a..z.  Of the
    runes outside ASCII only U+0130 (to [i]) and U+212A (to [k]) have an
    ASCII lower case; they are mapped as Go does.  Every other rune outside
    ASCII is mapped by Go to a rune outside ASCII (an invalid byte to
    U+FFFD); the model leaves its bytes in place, which keeps them outside
    ASCII.  The modelled code only compares the result with ASCII constants
    and with file-name suffixes, which cannot tell the two apart. *)
Definition isUpper (c : ascii) : bool :=
  let n := nat_of_ascii c in ((65 <=? n) && (n <=? 90))%nat.

Definition lowerByte (c : ascii) : ascii :=
  if isUpper c then ascii_of_nat (nat_of_ascii c + 32) else c.

Definition capitalIWithDot : string := bytes [196; 176].
Definition kelvinSign : string := bytes [226; 132; 170].

Fixpoint lower_go (skip : nat) (s : string) : string :=
  match s with
  | "" => ""
  | String c s' =>
      match skip with
      | S k => lower_go k s'
      | O =>
          if HasPrefix s capitalIWithDot then String "i" (lower_go 1 s')
          else if HasPrefix s kelvinSign then String "k" (lower_go 2 s')
          else String (lowerByte c) (lower_go 0 s')
      end
  end.

Definition ToLower (s : string) : string := lower_go 0 s.

End GoStrings.

(** ** The operating system and the encoding libraries

    Files, [path/filepath], base64 and JSON are outside the repository; the
    code is modelled over an interface to them.  A function returns [None]
    where the Go function returns an error. *)
Module GoOS.

Class Platform (FS : Type) := {
  fileExists : string -> FS -> bool;
  dirExists : string -> FS -> bool;
  ReadFile : string -> FS -> option string;
  WriteFile : string -> string -> FS -> option FS;
  MkdirAll : string -> FS -> option FS;
  filepathJoin : string -> string -> string;
  filepathDir : string -> string;
  base64Decode : string -> option string;
  jsonUnmarshal : string -> option (gmap string string);
  jsonMarshalIndent : gmap string string -> option string
}.

(** A Go result [(value, error)] with a non-nil error carrying its message. *)
Inductive result (A : Type) : Type :=
  | Ok (a : A)
  | Err (msg : string).
Arguments Ok {A} a.
Arguments Err {A} msg.

End GoOS.

(** ** internal/repo/partnerdirectory.go *)
Module Repo.
Import GoStrings GoOS.

Definition defaultBinaryExt : string := "bin".

(** [escapePropertyValue]. *)
Definition escapePropertyValue (value : string) : string :=
  let value := ReplaceAll value BACKSLASH (BACKSLASH +:+ BACKSLASH) in
  let value := ReplaceAll value LF (BACKSLASH +:+ "n") in
  let value := ReplaceAll value CR (BACKSLASH +:+ "r") in
  value.

(** [unescapePropertyValue]. *)
Definition unescapePropertyValue (value : string) : string :=
  let value := ReplaceAll value (BACKSLASH +:+ "n") LF in
  let value := ReplaceAll value (BACKSLASH +:+ "r") CR in
  let value := ReplaceAll value (BACKSLASH +:+ BACKSLASH) BACKSLASH in
  value.

(** [supportedContentTypes]: a Go [map[string]bool]; looking up a key that is
    absent yields [false]. *)
Definition supportedContentTypes : gmap string bool :=
  list_to_map
    [ ("xml", true); ("xsl", true); ("xsd", true); ("json", true);
      ("txt", true); ("zip", true); ("gz", true); ("zlib", true);
      ("crt", true) ].

(** [isValidContentType]. *)
Definition isValidContentType (ext : string) : bool :=
  default false (supportedContentTypes !! ToLower ext).

Definition isAlnumByte (c : ascii) : bool :=
  let n := nat_of_ascii c in
  (((97 <=? n) && (n <=? 122)) || ((65 <=? n) && (n <=? 90))
   || ((48 <=? n) && (n <=? 57)))%nat.

(** [isAlphanumeric]: the Go loop ranges over the runes of [s]; a rune passes
    the test only if it is an ASCII letter or digit, that is a single byte, so
    the test is the same on every byte. *)
Fixpoint isAlphanumeric (s : string) : bool :=
  match s with
  | "" => true
  | String c s' => if isAlnumByte c then isAlphanumeric s' else false
  end.

(** [parseContentType]: the extension candidate and the full content type. *)
Definition parseContentType (contentType : string) : string * string :=
  let baseType :=
    match Index contentType ";" with
    | Some (S i) => TrimSpace (take (S i) contentType)
    | _ => contentType
    end in
  if Contains baseType "/" then
    match Split baseType "/" with
    | [_; ext] =>
        if String.eqb ext "octet-stream" then (defaultBinaryExt, contentType)
        else (ext, contentType)
    | _ => (baseType, contentType)
    end
  else (baseType, contentType).

(** [getFileExtension]. *)
Definition getFileExtension (contentType : string) : string :=
  let ext := fst (parseContentType contentType) in
  if isValidContentType ext then ext
  else if negb (String.eqb ext "") && (2 <=? String.length ext)%nat
          && (String.length ext <=? 5)%nat && isAlphanumeric ext
  then ext
  else defaultBinaryExt.

(** The parameter records of internal/api (fields used by the repository). *)
Record StringParameter := mkStringParameter
  { sp_Pid : string; sp_ID : string; sp_Value : string }.

Record BinaryParameter := mkBinaryParameter
  { bp_Pid : string; bp_ID : string; bp_Value : string;
    bp_ContentType : string }.

(** The file name both [saveBinaryParameterToFile] and [updateMetadataFile]
    compute from the parameter ID and the content type (the same four lines
    in each). *)
Definition binaryFileName (paramID contentType : string) : string :=
  let ext := getFileExtension contentType in
  let filename := paramID in
  if negb (String.eqb ext "")
     && negb (HasSuffix (ToLower filename) ("." +:+ ext))
  then paramID +:+ "." +:+ ext
  else filename.

Definition metadataFileName : string := "_metadata.json".

Section Files.
Context {FS : Type} `{Platform FS}.

(** [saveBinaryParameterToFile]. *)
Definition saveBinaryParameterToFile
    (binaryDir : string) (param : BinaryParameter) (fs : FS) : result FS :=
  match base64Decode (bp_Value param) with
  | None => Err "failed to decode base64"
  | Some data =>
      let ext := getFileExtension (bp_ContentType param) in
      let filename := bp_ID param in
      let filename :=
        if negb (String.eqb ext "")
           && negb (HasSuffix (ToLower filename) ("." +:+ ext))
        then bp_ID param +:+ "." +:+ ext
        else filename in
      let filePath := filepathJoin binaryDir filename in
      match WriteFile filePath data fs with
      | None => Err "failed to write binary file"
      | Some fs' => Ok fs'
      end
  end.

(** [updateMetadataFile]. *)
Definition updateMetadataFile
    (binaryDir paramID contentType : string) (fs : FS) : result FS :=
  if negb (Contains contentType ";") then Ok fs
  else
    let metadataPath := filepathJoin binaryDir metadataFileName in
    let loaded : result (gmap string string) :=
      if fileExists metadataPath fs then
        match ReadFile metadataPath fs with
        | None => Err "failed to read metadata"
        | Some data =>
            match jsonUnmarshal data with
            | None => Err "failed to parse metadata"
            | Some m => Ok m
            end
        end
      else Ok ∅ in
    match loaded with
    | Err e => Err e
    | Ok metadata =>
        let ext := getFileExtension contentType in
        let filename := paramID in
        let filename :=
          if negb (String.eqb ext "")
             && negb (HasSuffix (ToLower filename) ("." +:+ ext))
          then paramID +:+ "." +:+ ext
          else filename in
        let metadata := <[filename := contentType]> metadata in
        match jsonMarshalIndent metadata with
        | None => Err "failed to marshal metadata"
        | Some data =>
            match WriteFile metadataPath data fs with
            | None => Err "failed to write metadata"
            | Some fs' => Ok fs'
            end
        end
    end.

End Files.

(** *** The extension algorithm in the words of the specification

    Base type: the text before the first [;].  Candidate: the part after the
    [/] when the base type has one ([octet-stream] counts as [bin]), else the
    base type.  Result: the candidate when it is one of the recognized
    extensions, else when it is alphanumeric and 2 to 5 characters long, else
    [bin]. *)
Module SpecAlgorithm.

Fixpoint beforeFirst (c : ascii) (s : string) : string :=
  match s with
  | "" => ""
  | String a s' => if Ascii.eqb a c then "" else String a (beforeFirst c s')
  end.

Fixpoint afterFirst (c : ascii) (s : string) : string :=
  match s with
  | "" => ""
  | String a s' => if Ascii.eqb a c then s' else afterFirst c s'
  end.

Fixpoint hasByte (c : ascii) (s : string) : bool :=
  match s with
  | "" => false
  | String a s' => Ascii.eqb a c || hasByte c s'
  end.

Definition recognized : list string :=
  ["xml"; "xsl"; "xsd"; "json"; "txt"; "zip"; "gz"; "zlib"; "crt"].

Definition candidate (baseType : string) : string :=
  if hasByte "/" baseType then
    let sub := afterFirst "/" baseType in
    if String.eqb sub "octet-stream" then "bin" else sub
  else baseType.

Definition accept (inSet : string -> bool) (cand : string) : string :=
  if inSet cand then cand
  else if isAlphanumeric cand && (2 <=? String.length cand)%nat
          && (String.length cand <=? 5)%nat
  then cand
  else "bin".

(** The algorithm as the specification words it. *)
Definition resolveExtension (ct : string) : string :=
  accept (fun c => bool_decide (c ∈ recognized))
         (candidate (beforeFirst ";" ct)).

(** The algorithm with the three points in which the code differs: white
    space around the base type is trimmed, a [;] in first position does not
    end the base type, and the recognized extensions are compared in lower
    case. *)
Definition amendedBaseType (ct : string) : string :=
  if HasPrefix ct ";" then ct
  else if hasByte ";" ct then TrimSpace (beforeFirst ";" ct)
  else ct.

Definition resolveExtensionAmended (ct : string) : string :=
  accept (fun c => bool_decide (ToLower c ∈ recognized))
         (candidate (amendedBaseType ct)).

End SpecAlgorithm.

End Repo.

(** ** internal/models: the deployment manifest

    A Go slice of artifacts is a window on an array that may be shared; it is
    modelled by the address of its first cell and its length over a heap of
    artifact cells, so that writing through one slice is seen through every
    other slice on the same cells. *)
Module Models.

Record Artifact := mkArtifact {
  Id : string;
  ArtifactDir : string;
  ArtifactDisplayName : string;
  Type_ : string;
  ArtifactSync : bool;
  ArtifactDeploy : bool;
  ConfigOverrides : gmap string string
}.

Definition withId (id : string) (a : Artifact) : Artifact :=
  mkArtifact id (ArtifactDir a) (ArtifactDisplayName a) (Type_ a)
             (ArtifactSync a) (ArtifactDeploy a) (ConfigOverrides a).

Record slice := mkSlice { base : nat; len : nat }.

Record Package := mkPackage {
  ID : string;
  PackageDir : string;
  DisplayName : string;
  Description : string;
  ShortText : string;
  Sync : bool;
  Deploy : bool;
  Artifacts : slice
}.

Record DeployConfig := mkDeployConfig {
  DeploymentPrefix : string;
  Packages : list Package
}.

Abbreviation heap := (gmap nat Artifact).

(** The addresses of the cells of a slice, and the artifacts read through
    it. *)
Definition cells (sl : slice) : list nat := seq (base sl) (len sl).

Definition readSlice (h : heap) (sl : slice) : list Artifact :=
  omap (fun c => h !! c) (cells sl).

End Models.

(** ** internal/deploy *)
Module Deploy.
Import GoStrings GoOS Models.

(** [DeployConfigFile]. *)
Record DeployConfigFile := mkDeployConfigFile {
  Config : DeployConfig;
  Source : string;
  FileName : string;
  Order : nat
}.

(** The state of the loops of [MergeConfigs]: the artifact cells, the map
    [packageMap] from fully qualified ID to source file, and the packages
    merged so far. *)
Record mergeState := mkMergeState {
  ms_heap : heap;
  ms_packageMap : gmap string string;
  ms_merged : list Package
}.

(** [for i := range mergedPkg.Artifacts { mergedPkg.Artifacts[i].Id = ... }]
    writes the cells of the slice in place. *)
Definition prefixArtifacts (configPrefix : string) (sl : slice) (h : heap) : heap :=
  foldl (fun h c => alter (fun a => withId (configPrefix +:+ "_" +:+ Id a) a) c h)
        h (cells sl).

Definition duplicateError (fullyQualifiedID fileName existingSource : string) : string :=
  "duplicate package ID '" +:+ fullyQualifiedID +:+ "' found in " +:+ fileName
  +:+ " (already exists from " +:+ existingSource +:+ ")".

(** The body of the inner loop for one package: [inr] is the early return
    with the error. *)
Definition mergePackage (configPrefix fileName : string) (pkg : Package)
    (st : mergeState) : mergeState + string :=
  let mergedPkg := pkg in
  let fullyQualifiedID :=
    if String.eqb configPrefix "" then ID pkg else configPrefix +:+ "" +:+ ID pkg in
  let mergedPkg :=
    if String.eqb configPrefix "" then mergedPkg
    else
      mkPackage fullyQualifiedID (PackageDir mergedPkg)
        (if String.eqb (DisplayName mergedPkg) ""
         then configPrefix +:+ " - " +:+ ID pkg
         else configPrefix +:+ " - " +:+ DisplayName mergedPkg)
        (Description mergedPkg) (ShortText mergedPkg) (Sync mergedPkg)
        (Deploy mergedPkg) (Artifacts mergedPkg) in
  match ms_packageMap st !! fullyQualifiedID with
  | Some existingSource =>
      inr (duplicateError fullyQualifiedID fileName existingSource)
  | None =>
      let h :=
        if String.eqb configPrefix "" then ms_heap st
        else prefixArtifacts configPrefix (Artifacts mergedPkg) (ms_heap st) in
      inl (mkMergeState h
             (<[fullyQualifiedID := fileName]> (ms_packageMap st))
             (ms_merged st ++ [mergedPkg]))
  end.

(** The inner loop over the packages of one configuration; on an error the
    state reached is kept, as the cells already written stay written. *)
Fixpoint mergePackages (configPrefix fileName : string) (pkgs : list Package)
    (st : mergeState) : mergeState * option string :=
  match pkgs with
  | [] => (st, None)
  | pkg :: pkgs' =>
      match mergePackage configPrefix fileName pkg st with
      | inr e => (st, Some e)
      | inl st' => mergePackages configPrefix fileName pkgs' st'
      end
  end.

(** The outer loop over the configurations. *)
Fixpoint mergeAll (configs : list DeployConfigFile) (st : mergeState)
    : mergeState * option string :=
  match configs with
  | [] => (st, None)
  | configFile :: configs' =>
      let configPrefix := DeploymentPrefix (Config configFile) in
      match mergePackages configPrefix (FileName configFile)
              (Packages (Config configFile)) st with
      | (st', Some e) => (st', Some e)
      | (st', None) => mergeAll configs' st'
      end
  end.

(** [MergeConfigs]: the result and the heap it leaves. *)
Definition MergeConfigs (configs : list DeployConfigFile) (h : heap)
    : heap * result DeployConfig :=
  match configs with
  | [] => (h, Err "no configs to merge")
  | _ =>
      match mergeAll configs (mkMergeState h ∅ []) with
      | (st, Some e) => (ms_heap st, Err e)
      | (st, None) => (ms_heap st, Ok (mkDeployConfig "" (ms_merged st)))
      end
  end.

(** *** The manifest rewriter *)

Definition isBundleName (line : string) : bool :=
  HasPrefix (ToLower (TrimSpace line)) "bundle-name:".

Definition isBundleSymbolicName (line : string) : bool :=
  HasPrefix (ToLower (TrimSpace line)) "bundle-symbolicname:".

Definition lineEndingOf (content : string) : string :=
  if Contains content CRLF then CRLF else LF.

(** The loop over the lines: [result] grows at its end, the two flags record
    the headers met. *)
Fixpoint rewriteLines (bundleSymbolicName bundleName : string)
    (lines result : list string) (bundleNameFound bundleSymbolicNameFound : bool)
    : list string * bool * bool :=
  match lines with
  | [] => (result, bundleNameFound, bundleSymbolicNameFound)
  | line :: lines' =>
      let trimmedLower := ToLower (TrimSpace line) in
      if HasPrefix trimmedLower "bundle-name:" then
        rewriteLines bundleSymbolicName bundleName lines'
          (result ++ ["Bundle-Name: " +:+ bundleName]) true bundleSymbolicNameFound
      else if HasPrefix trimmedLower "bundle-symbolicname:" then
        rewriteLines bundleSymbolicName bundleName lines'
          (result ++ ["Bundle-SymbolicName: " +:+ bundleSymbolicName])
          bundleNameFound true
      else
        rewriteLines bundleSymbolicName bundleName lines'
          (result ++ [line]) bundleNameFound bundleSymbolicNameFound
  end.

(** The number of lines that carry a [Bundle-Name] header. *)
Definition countBundleName (lines : list string) : nat :=
  length (List.filter isBundleName lines).

(** The lines written, before they are joined. *)
Definition manifestResult (content bundleSymbolicName bundleName : string)
    : list string :=
  let lineEnding := lineEndingOf content in
  let lines := Split content lineEnding in
  let '(result, bundleNameFound, bundleSymbolicNameFound) :=
    rewriteLines bundleSymbolicName bundleName lines [] false false in
  let result :=
    if bundleNameFound then result
    else result ++ ["Bundle-Name: " +:+ bundleName] in
  let result :=
    if bundleSymbolicNameFound then result
    else result ++ ["Bundle-SymbolicName: " +:+ bundleSymbolicName] in
  result.

(** The content written to the output path. *)
Definition manifestContent (content bundleSymbolicName bundleName : string)
    : string :=
  let lineEnding := lineEndingOf content in
  let finalContent :=
    Join (manifestResult content bundleSymbolicName bundleName) lineEnding in
  if HasSuffix finalContent lineEnding then finalContent
  else finalContent +:+ lineEnding.

Section Files.
Context {FS : Type} `{Platform FS}.

(** [UpdateManifestBundleName]. *)
Definition UpdateManifestBundleName
    (manifestPath bundleSymbolicName bundleName outputPath : string) (fs : FS)
    : result FS :=
  match ReadFile manifestPath fs with
  | None => Err "failed to read MANIFEST.MF"
  | Some data =>
      let finalContent := manifestContent data bundleSymbolicName bundleName in
      match MkdirAll (filepathDir outputPath) fs with
      | None => Err "failed to create output directory"
      | Some fs1 =>
          match WriteFile outputPath finalContent fs1 with
          | None => Err "failed to write MANIFEST.MF"
          | Some fs2 => Ok fs2
          end
      end
  end.

End Files.

End Deploy.

(** ** internal/httpclnt/batch.go *)
Module Batch.
Import GoStrings GoOS.

(** [BatchOperation].  [Headers] is a Go map; the list gives its entries in
    the order in which the loop over the map meets them. *)
Record BatchOperation := mkBatchOperation {
  Method : string;
  Path : string;
  Body : string;
  ContentID : string;
  Headers : list (string * string);
  IsQuery : bool
}.

Record BatchOperationResponse := mkBatchOperationResponse {
  r_ContentID : string;
  r_StatusCode : nat;
  r_Headers : list (string * string);
  r_Body : string;
  r_Error : option string
}.

Record BatchResponse := mkBatchResponse {
  Operations : list BatchOperationResponse
}.

(** [BatchRequest] (the executer is the interface below). *)
Record BatchRequest := mkBatchRequest {
  operations : list BatchOperation;
  batchBoundary : string;
  changesetBoundary : string
}.

Record HTTPRequest := mkHTTPRequest {
  q_Method : string;
  q_Path : string;
  q_Body : string;
  q_Headers : list (string * string)
}.

Record HTTPResponse := mkHTTPResponse {
  StatusCode : nat;
  ContentType : string;
  ResponseBody : string
}.

(** What [Execute] does to the outside, in order. *)
Inductive event :=
  | BodyBuilt (body : string)
  | RequestSent (req : HTTPRequest).

(** The transport and the multipart reader.  [ExecRequestWithCookies]
    answers a request, given the events so far; [parseBatchResponse] stands
    for the function of that name, which reads the response through Go's
    [mime] and [mime/multipart] packages. *)
Class HTTPExecuter := {
  ExecRequestWithCookies : list event -> HTTPRequest -> result HTTPResponse;
  parseBatchResponse : HTTPResponse -> result BatchResponse
}.

(** [%d] of a length. *)
Definition decimal (n : nat) : string :=
  NilEmpty.string_of_uint (Nat.to_uint n).

Definition headerLines (hs : list (string * string)) : string :=
  foldr (fun kv acc => kv.1 +:+ ": " +:+ kv.2 +:+ CRLF +:+ acc) "" hs.

(** [writeQueryOperation]: the text appended to the buffer. *)
Definition writeQueryOperation (op : BatchOperation) : string :=
  "Content-Type: application/http" +:+ CRLF +:+
  "Content-Transfer-Encoding: binary" +:+ CRLF +:+
  (if String.eqb (ContentID op) "" then ""
   else "Content-ID: " +:+ ContentID op +:+ CRLF) +:+
  CRLF +:+
  Method op +:+ " " +:+ Path op +:+ " HTTP/1.1" +:+ CRLF +:+
  headerLines (Headers op) +:+
  CRLF.

(** [writeChangesetOperation]. *)
Definition writeChangesetOperation (br : BatchRequest) (op : BatchOperation) : string :=
  "--" +:+ changesetBoundary br +:+ CRLF +:+
  "Content-Type: application/http" +:+ CRLF +:+
  "Content-Transfer-Encoding: binary" +:+ CRLF +:+
  (if String.eqb (ContentID op) "" then ""
   else "Content-ID: " +:+ ContentID op +:+ CRLF) +:+
  CRLF +:+
  Method op +:+ " " +:+ Path op +:+ " HTTP/1.1" +:+ CRLF +:+
  headerLines (Headers op) +:+
  (if (0 <? String.length (Body op))%nat
   then "Content-Length: " +:+ decimal (String.length (Body op)) +:+ CRLF +:+
        CRLF +:+ Body op
   else CRLF) +:+
  CRLF.

(** [buildBatchBody]; its error result is always nil. *)
Definition buildBatchBody (br : BatchRequest) : string :=
  let queryOps := List.filter IsQuery (operations br) in
  let changesetOps := List.filter (fun op => negb (IsQuery op)) (operations br) in
  "--" +:+ batchBoundary br +:+ CRLF +:+
  foldr (fun op acc =>
           writeQueryOperation op +:+ "--" +:+ batchBoundary br +:+ CRLF +:+ acc)
        "" queryOps +:+
  (if (0 <? length changesetOps)%nat
   then "Content-Type: multipart/mixed; boundary=" +:+ changesetBoundary br
        +:+ CRLF +:+ CRLF +:+
        foldr (fun op acc => writeChangesetOperation br op +:+ acc) "" changesetOps
        +:+ "--" +:+ changesetBoundary br +:+ "--" +:+ CRLF +:+ CRLF
   else "") +:+
  "--" +:+ batchBoundary br +:+ "--" +:+ CRLF.

Section Execute.
Context `{HTTPExecuter}.

(** [Execute]: the result and the events, after those of [past]. *)
Definition Execute (br : BatchRequest) (past : list event)
    : result BatchResponse * list event :=
  if (length (operations br) =? 0)%nat then
    (Ok (mkBatchResponse []), past)
  else
    let body := buildBatchBody br in
    let past := past ++ [BodyBuilt body] in
    let contentType := "multipart/mixed; boundary=" +:+ batchBoundary br in
    let headers := [("Content-Type", contentType); ("Accept", "multipart/mixed")] in
    let req := mkHTTPRequest "POST" "/api/v1/$batch" body headers in
    match ExecRequestWithCookies past req with
    | Err e => (Err ("batch request failed: " +:+ e), past ++ [RequestSent req])
    | Ok resp =>
        let past := past ++ [RequestSent req] in
        if negb (StatusCode resp =? 202)%nat && negb (StatusCode resp =? 200)%nat
        then (Err ("batch request failed with status "
                   +:+ decimal (StatusCode resp) +:+ ": " +:+ ResponseBody resp),
              past)
        else (parseBatchResponse resp, past)
    end.

End Execute.

End Batch.

(** ** Commands: computations on an outside world

    Code that calls the outside (the tenant, the file system) is modelled as
    a function of the state [W] of that outside which returns its result,
    the new state and the events it emitted, in order. *)
Module Cmd.

Declare Scope cmd_scope.
Delimit Scope cmd_scope with cmd.

Section Cmd.
Context {W E : Type}.

Definition M (A : Type) : Type := W -> A * W * list E.

Definition ret {A} (a : A) : M A := fun w => (a, w, []).

Definition bind {A B} (m : M A) (k : A -> M B) : M B :=
  fun w =>
    let '(a, w1, t1) := m w in
    let '(b, w2, t2) := k a w1 in
    (b, w2, t1 ++ t2).

(** A call of the outside function [f], recorded as the event [ev]. *)
Definition call {A} (ev : A -> E) (f : W -> A * W) : M A :=
  fun w => let '(a, w1) := f w in (a, w1, [ev a]).

(** A [for ... range] loop that threads the value [r]. *)
Fixpoint forEach {A R} (l : list A) (body : A -> R -> M R) (r : R) : M R :=
  match l with
  | [] => ret r
  | a :: l' => bind (body a r) (fun r' => forEach l' body r')
  end.

(** The events a command emits from the state [w]. *)
Definition trace {A} (m : M A) (w : W) : list E := (m w).2.

(** Every event of the command satisfies [P]. *)
Definition emits {A} (P : E -> Prop) (m : M A) : Prop :=
  forall w, Forall P (trace m w).

End Cmd.

Notation "x <- m ;; k" := (bind m (fun x => k))
  (at level 200, m at level 99, right associativity) : cmd_scope.

End Cmd.

(** ** The Partner Directory deploy command (cmd/pd_deploy.go) *)
Module PDDeploy.
Import GoStrings GoOS Repo Cmd.
Local Open Scope cmd_scope.

(** [api.BatchResult]. *)
Record BatchResult := mkBatchResult {
  Created : list string;
  Updated : list string;
  Unchanged : list string;
  Deleted : list string;
  Errors : list string
}.

Definition addCreated (k : string) (r : BatchResult) : BatchResult :=
  mkBatchResult (Created r ++ [k]) (Updated r) (Unchanged r) (Deleted r) (Errors r).
Definition addUpdated (k : string) (r : BatchResult) : BatchResult :=
  mkBatchResult (Created r) (Updated r ++ [k]) (Unchanged r) (Deleted r) (Errors r).
Definition addUnchanged (k : string) (r : BatchResult) : BatchResult :=
  mkBatchResult (Created r) (Updated r) (Unchanged r ++ [k]) (Deleted r) (Errors r).
Definition addDeleted (k : string) (r : BatchResult) : BatchResult :=
  mkBatchResult (Created r) (Updated r) (Unchanged r) (Deleted r ++ [k]) (Errors r).
Definition addError (e : string) (r : BatchResult) : BatchResult :=
  mkBatchResult (Created r) (Updated r) (Unchanged r) (Deleted r) (Errors r ++ [e]).

(** The calls made on the tenant, with the result of the two listings. *)
Inductive event :=
  | EvGetStringParameter (pid id : string)
  | EvCreateStringParameter (param : StringParameter)
  | EvUpdateStringParameter (param : StringParameter)
  | EvDeleteStringParameter (pid id : string)
  | EvGetStringParameters (selectFields : string)
      (res : result (list StringParameter))
  | EvGetBinaryParameter (pid id : string)
  | EvCreateBinaryParameter (param : BinaryParameter)
  | EvUpdateBinaryParameter (param : BinaryParameter)
  | EvDeleteBinaryParameter (pid id : string)
  | EvGetBinaryParameters (selectFields : string)
      (res : result (list BinaryParameter)).

(** [api.PartnerDirectory]: the tenant, with a state [W] of its own.  A
    single-item [Get] yields [Ok None] for a record that does not exist; the
    writing calls yield [Some msg] for an error. *)
Class PartnerDirectoryAPI (W : Type) := {
  GetStringParameter : string -> string -> W -> result (option StringParameter) * W;
  CreateStringParameter : StringParameter -> W -> option string * W;
  UpdateStringParameter : StringParameter -> W -> option string * W;
  DeleteStringParameter : string -> string -> W -> option string * W;
  GetStringParameters : string -> W -> result (list StringParameter) * W;
  GetBinaryParameter : string -> string -> W -> result (option BinaryParameter) * W;
  CreateBinaryParameter : BinaryParameter -> W -> option string * W;
  UpdateBinaryParameter : BinaryParameter -> W -> option string * W;
  DeleteBinaryParameter : string -> string -> W -> option string * W;
  GetBinaryParameters : string -> W -> result (list BinaryParameter) * W
}.

(** [repo.PartnerDirectory], read only: what the three reading functions
    return on the local tree, which the deploy command does not write. *)
Record LocalRepo := mkLocalRepo {
  GetLocalPIDs : result (list string);
  ReadStringParameters : string -> result (list StringParameter);
  ReadBinaryParameters : string -> result (list BinaryParameter)
}.

(** [contains] and [filterPIDs]. *)
Definition contains (slice : list string) (str : string) : bool :=
  existsb (fun s => String.eqb s str) slice.

Definition filterPIDs (pids filter : list string) : list string :=
  match filter with
  | [] => pids
  | _ => List.filter (fun pid => contains filter pid) pids
  end.

Section Commands.
Context {W : Type} `{PartnerDirectoryAPI W}.

Local Abbreviation M := (Cmd.M (W := W) (E := event)).

Definition key (pid id : string) : string := pid +:+ "/" +:+ id.

(** The body of the inner loop of [deployStringParameters]. *)
Definition deployStringParameter (replace dryRun : bool)
    (param : StringParameter) (results : BatchResult) : M BatchResult :=
  let key := key (sp_Pid param) (sp_ID param) in
  if dryRun then
    existing <- call (fun _ => EvGetStringParameter (sp_Pid param) (sp_ID param))
                     (GetStringParameter (sp_Pid param) (sp_ID param)) ;;
    match existing with
    | Err e => ret (addError (key +:+ ": " +:+ e) results)
    | Ok None => ret (addCreated key results)
    | Ok (Some existing) =>
        if replace && negb (String.eqb (sp_Value existing) (sp_Value param))
        then ret (addUpdated key results)
        else ret (addUnchanged key results)
    end
  else
    existing <- call (fun _ => EvGetStringParameter (sp_Pid param) (sp_ID param))
                     (GetStringParameter (sp_Pid param) (sp_ID param)) ;;
    match existing with
    | Err e => ret (addError (key +:+ ": " +:+ e) results)
    | Ok None =>
        err <- call (fun _ => EvCreateStringParameter param)
                    (CreateStringParameter param) ;;
        match err with
        | Some e => ret (addError (key +:+ ": " +:+ e) results)
        | None => ret (addCreated key results)
        end
    | Ok (Some existing) =>
        if replace && negb (String.eqb (sp_Value existing) (sp_Value param))
        then
          err <- call (fun _ => EvUpdateStringParameter param)
                      (UpdateStringParameter param) ;;
          match err with
          | Some e => ret (addError (key +:+ ": " +:+ e) results)
          | None => ret (addUpdated key results)
          end
        else ret (addUnchanged key results)
    end.

Definition emptyResult : BatchResult := mkBatchResult [] [] [] [] [].

(** [deployStringParameters]. *)
Definition deployStringParameters (pdRepo : LocalRepo)
    (replace dryRun : bool) (pidsFilter : list string) : M (result BatchResult) :=
  match GetLocalPIDs pdRepo with
  | Err e => ret (Err e)
  | Ok localPIDs =>
      let localPIDs :=
        if (0 <? length pidsFilter)%nat then filterPIDs localPIDs pidsFilter
        else localPIDs in
      results <-
        forEach localPIDs
          (fun pid results =>
             match ReadStringParameters pdRepo pid with
             | Err e =>
                 ret (addError ("Failed to read " +:+ pid +:+ ": " +:+ e) results)
             | Ok parameters =>
                 forEach parameters (deployStringParameter replace dryRun) results
             end)
          emptyResult ;;
      ret (Ok results)
  end.

(** The body of the inner loop of [deployBinaryParameters]. *)
Definition deployBinaryParameter (replace dryRun : bool)
    (param : BinaryParameter) (results : BatchResult) : M BatchResult :=
  let key := key (bp_Pid param) (bp_ID param) in
  if dryRun then
    existing <- call (fun _ => EvGetBinaryParameter (bp_Pid param) (bp_ID param))
                     (GetBinaryParameter (bp_Pid param) (bp_ID param)) ;;
    match existing with
    | Err e => ret (addError (key +:+ ": " +:+ e) results)
    | Ok None => ret (addCreated key results)
    | Ok (Some existing) =>
        if replace && negb (String.eqb (bp_Value existing) (bp_Value param))
        then ret (addUpdated key results)
        else ret (addUnchanged key results)
    end
  else
    existing <- call (fun _ => EvGetBinaryParameter (bp_Pid param) (bp_ID param))
                     (GetBinaryParameter (bp_Pid param) (bp_ID param)) ;;
    match existing with
    | Err e => ret (addError (key +:+ ": " +:+ e) results)
    | Ok None =>
        err <- call (fun _ => EvCreateBinaryParameter param)
                    (CreateBinaryParameter param) ;;
        match err with
        | Some e => ret (addError (key +:+ ": " +:+ e) results)
        | None => ret (addCreated key results)
        end
    | Ok (Some existing) =>
        if replace && negb (String.eqb (bp_Value existing) (bp_Value param))
        then
          err <- call (fun _ => EvUpdateBinaryParameter param)
                      (UpdateBinaryParameter param) ;;
          match err with
          | Some e => ret (addError (key +:+ ": " +:+ e) results)
          | None => ret (addUpdated key results)
          end
        else ret (addUnchanged key results)
    end.

(** [deployBinaryParameters]. *)
Definition deployBinaryParameters (pdRepo : LocalRepo)
    (replace dryRun : bool) (pidsFilter : list string) : M (result BatchResult) :=
  match GetLocalPIDs pdRepo with
  | Err e => ret (Err e)
  | Ok localPIDs =>
      let localPIDs :=
        if (0 <? length pidsFilter)%nat then filterPIDs localPIDs pidsFilter
        else localPIDs in
      results <-
        forEach localPIDs
          (fun pid results =>
             match ReadBinaryParameters pdRepo pid with
             | Err e =>
                 ret (addError ("Failed to read " +:+ pid +:+ ": " +:+ e) results)
             | Ok parameters =>
                 forEach parameters (deployBinaryParameter replace dryRun) results
             end)
          emptyResult ;;
      ret (Ok results)
  end.

(** The maps [localStringParams] and [localBinaryParams] of
    [deleteRemoteEntriesNotInLocal]: partner ID to the set of local IDs.  A
    partner whose files could not be read gets no entry. *)
Definition addLocal (pid : string) (ids : list string)
    (m : gmap string (gset string)) : gmap string (gset string) :=
  <[pid := list_to_set ids ∪ default ∅ (m !! pid)]> m.

Definition localIDs (read : string -> result (list string))
    (managedPIDs : list string) : gmap string (gset string) :=
  foldl (fun m pid =>
           match read pid with
           | Err _ => m
           | Ok ids => addLocal pid ids m
           end) ∅ managedPIDs.

Definition resultMap {A B} (f : A -> B) (r : result A) : result B :=
  match r with
  | Ok a => Ok (f a)
  | Err e => Err e
  end.

Definition localStringParams (pdRepo : LocalRepo) (managedPIDs : list string)
    : gmap string (gset string) :=
  localIDs (fun pid => resultMap (fmap sp_ID) (ReadStringParameters pdRepo pid))
           managedPIDs.

Definition localBinaryParams (pdRepo : LocalRepo) (managedPIDs : list string)
    : gmap string (gset string) :=
  localIDs (fun pid => resultMap (fmap bp_ID) (ReadBinaryParameters pdRepo pid))
           managedPIDs.

(** [localParams[pid] == nil || !localParams[pid][id]]. *)
Definition notLocal (m : gmap string (gset string)) (pid id : string) : bool :=
  match m !! pid with
  | None => true
  | Some ids => negb (bool_decide (id ∈ ids))
  end.

(** [deleteRemoteEntriesNotInLocal]. *)
Definition deleteRemoteEntriesNotInLocal (pdRepo : LocalRepo)
    (managedPIDs : list string) : M (result BatchResult) :=
  let results := emptyResult in
  let localStrings := localStringParams pdRepo managedPIDs in
  let localBinaries := localBinaryParams pdRepo managedPIDs in
  remoteStringParams <- call (EvGetStringParameters "Pid,Id")
                             (GetStringParameters "Pid,Id") ;;
  match remoteStringParams with
  | Err e => ret (Err ("failed to get remote string parameters: " +:+ e))
  | Ok remoteStringParams =>
      results <-
        forEach remoteStringParams
          (fun param results =>
             if negb (contains managedPIDs (sp_Pid param)) then ret results
             else if notLocal localStrings (sp_Pid param) (sp_ID param) then
               let key := key (sp_Pid param) (sp_ID param) in
               err <- call (fun _ => EvDeleteStringParameter (sp_Pid param) (sp_ID param))
                           (DeleteStringParameter (sp_Pid param) (sp_ID param)) ;;
               match err with
               | Some e =>
                   ret (addError ("Failed to delete string " +:+ key +:+ ": " +:+ e)
                                 results)
               | None => ret (addDeleted key results)
               end
             else ret results)
          results ;;
      remoteBinaryParams <- call (EvGetBinaryParameters "Pid,Id")
                                 (GetBinaryParameters "Pid,Id") ;;
      match remoteBinaryParams with
      | Err e => ret (Err ("failed to get remote binary parameters: " +:+ e))
      | Ok remoteBinaryParams =>
          results <-
            forEach remoteBinaryParams
              (fun param results =>
                 if negb (contains managedPIDs (bp_Pid param)) then ret results
                 else if notLocal localBinaries (bp_Pid param) (bp_ID param) then
                   let key := key (bp_Pid param) (bp_ID param) in
                   err <- call (fun _ => EvDeleteBinaryParameter (bp_Pid param) (bp_ID param))
                               (DeleteBinaryParameter (bp_Pid param) (bp_ID param)) ;;
                   match err with
                   | Some e =>
                       ret (addError ("Failed to delete binary " +:+ key +:+ ": " +:+ e)
                                     results)
                   | None => ret (addDeleted key results)
                   end
                 else ret results)
              results ;;
          ret (Ok results)
      end
  end.

(** What [deployPartnerDirectory] reports in its log. *)
Record DeployReport := mkDeployReport {
  stringResults : BatchResult;
  binaryResults : BatchResult;
  deletionResults : option BatchResult
}.

(** [deployPartnerDirectory].  The verb [%v] prints the filter, a slice of
    strings, as its elements between brackets with a blank between them. *)
Definition deployPartnerDirectory (pdRepo : LocalRepo)
    (replace fullSync dryRun : bool) (pidsFilter : list string)
    : M (result DeployReport) :=
  match GetLocalPIDs pdRepo with
  | Err e => ret (Err ("failed to get local PIDs: " +:+ e))
  | Ok managedPIDs =>
      let filtered := filterPIDs managedPIDs pidsFilter in
      if (0 <? length pidsFilter)%nat && (length filtered =? 0)%nat then
        ret (Err ("no PIDs match the filter: ["
                  +:+ Join pidsFilter " " +:+ "]"))
      else
        let managedPIDs :=
          if (0 <? length pidsFilter)%nat then filtered else managedPIDs in
        stringResults <- deployStringParameters pdRepo replace dryRun pidsFilter ;;
        match stringResults with
        | Err e => ret (Err ("failed to deploy string parameters: " +:+ e))
        | Ok stringResults =>
            binaryResults <- deployBinaryParameters pdRepo replace dryRun pidsFilter ;;
            match binaryResults with
            | Err e => ret (Err ("failed to deploy binary parameters: " +:+ e))
            | Ok binaryResults =>
                if fullSync && negb dryRun then
                  deletion <- deleteRemoteEntriesNotInLocal pdRepo managedPIDs ;;
                  match deletion with
                  | Err _ => ret (Ok (mkDeployReport stringResults binaryResults None))
                  | Ok deletionResults =>
                      ret (Ok (mkDeployReport stringResults binaryResults
                                 (Some deletionResults)))
                  end
                else ret (Ok (mkDeployReport stringResults binaryResults None))
            end
        end
  end.

End Commands.

(** The classification [BatchSyncBinaryParameters] (internal/api) makes of a
    parameter whose remote counterpart [existing] was found: it is unchanged
    when the value and the content type are both equal. *)
Definition batchSyncUnchanged (existing param : BinaryParameter) : bool :=
  negb (negb (String.eqb (bp_Value existing) (bp_Value param))
        || negb (String.eqb (bp_ContentType existing) (bp_ContentType param))).

End PDDeploy.

(** *** The events of a run of the deploy command *)
Module PDDeployView.
Import GoStrings GoOS Repo PDDeploy.

Definition isDelete (e : event) : bool :=
  match e with
  | EvDeleteStringParameter _ _ | EvDeleteBinaryParameter _ _ => true
  | _ => false
  end.

Section Deletion.
Variable pdRepo : LocalRepo.
Variable managedPIDs : list string.

(** The events of the two deletion loops: each deletes a listed record of a
    managed partner whose ID was not read locally. *)
Definition deletesString (l : list StringParameter) (e : event) : Prop :=
  exists p, p ∈ l /\ e = EvDeleteStringParameter (sp_Pid p) (sp_ID p) /\
    contains managedPIDs (sp_Pid p) = true /\
    notLocal (localStringParams pdRepo managedPIDs) (sp_Pid p) (sp_ID p) = true.

Definition deletesBinary (l : list BinaryParameter) (e : event) : Prop :=
  exists p, p ∈ l /\ e = EvDeleteBinaryParameter (bp_Pid p) (bp_ID p) /\
    contains managedPIDs (bp_Pid p) = true /\
    notLocal (localBinaryParams pdRepo managedPIDs) (bp_Pid p) (bp_ID p) = true.

(** The trace of [deleteRemoteEntriesNotInLocal]: the listing of the string
    parameters, the deletions it leads to, then the same for the binary
    parameters. *)
Inductive deletionTrace : list event -> Prop :=
  | dt_strings_failed (e : string) :
      deletionTrace [EvGetStringParameters "Pid,Id" (Err e)]
  | dt_binaries_failed (l1 : list StringParameter) (T1 : list event) (e : string) :
      Forall (deletesString l1) T1 ->
      deletionTrace (EvGetStringParameters "Pid,Id" (Ok l1) :: T1
                     ++ [EvGetBinaryParameters "Pid,Id" (Err e)])
  | dt_both (l1 : list StringParameter) (T1 : list event)
            (l2 : list BinaryParameter) (T2 : list event) :
      Forall (deletesString l1) T1 -> Forall (deletesBinary l2) T2 ->
      deletionTrace (EvGetStringParameters "Pid,Id" (Ok l1) :: T1
                     ++ EvGetBinaryParameters "Pid,Id" (Ok l2) :: T2).

End Deletion.

End PDDeployView.

(** ** A tenant in memory, to run the deploy command on concrete records *)
Module MemTenant.
Import GoOS Repo PDDeploy.

Record tenant := mkTenant {
  strings : list StringParameter;
  binaries : list BinaryParameter
}.

Definition sameString (pid id : string) (p : StringParameter) : bool :=
  String.eqb (sp_Pid p) pid && String.eqb (sp_ID p) id.

Definition sameBinary (pid id : string) (p : BinaryParameter) : bool :=
  String.eqb (bp_Pid p) pid && String.eqb (bp_ID p) id.

#[global] Instance memTenant : PartnerDirectoryAPI tenant := {|
  GetStringParameter pid id w := (Ok (List.find (sameString pid id) (strings w)), w);
  CreateStringParameter p w := (None, mkTenant (strings w ++ [p]) (binaries w));
  UpdateStringParameter p w :=
    (None, mkTenant ((fun q => if sameString (sp_Pid p) (sp_ID p) q then p else q)
                       <$> strings w) (binaries w));
  DeleteStringParameter pid id w :=
    (None, mkTenant (List.filter (fun q => negb (sameString pid id q)) (strings w))
                    (binaries w));
  GetStringParameters _ w := (Ok (strings w), w);
  GetBinaryParameter pid id w := (Ok (List.find (sameBinary pid id) (binaries w)), w);
  CreateBinaryParameter p w := (None, mkTenant (strings w) (binaries w ++ [p]));
  UpdateBinaryParameter p w :=
    (None, mkTenant (strings w)
             ((fun q => if sameBinary (bp_Pid p) (bp_ID p) q then p else q)
                <$> binaries w));
  DeleteBinaryParameter pid id w :=
    (None, mkTenant (strings w)
             (List.filter (fun q => negb (sameBinary pid id q)) (binaries w)));
  GetBinaryParameters _ w := (Ok (binaries w), w)
|}.

End MemTenant.

(** ** The orchestrator command, phase 1 (cmd/flashpipe_orchestrator.go) *)
Module Orchestrator.
Import GoStrings GoOS Models Cmd.
Local Open Scope cmd_scope.

(** [OperationMode]: the three modes the command accepts. *)
Inductive OperationMode :=
  | ModeUpdateAndDeploy
  | ModeUpdateOnly
  | ModeDeployOnly.

Definition isDeployOnly (mode : OperationMode) : bool :=
  match mode with ModeDeployOnly => true | _ => false end.

Definition isUpdateOnly (mode : OperationMode) : bool :=
  match mode with ModeUpdateOnly => true | _ => false end.

(** [ProcessingStats]; a [map[string]bool] that only ever receives [true] is
    the set of its keys. *)
Record ProcessingStats := mkProcessingStats {
  PackagesUpdated : nat;
  PackagesDeployed : nat;
  PackagesFailed : nat;
  PackagesFiltered : nat;
  ArtifactsTotal : nat;
  ArtifactsDeployedSuccess : nat;
  ArtifactsDeployedFailed : nat;
  ArtifactsFiltered : nat;
  UpdateFailures : nat;
  DeployFailures : nat;
  SuccessfulPackageUpdates : gset string;
  SuccessfulArtifactUpdates : gset string;
  SuccessfulArtifactDeploys : gset string;
  FailedPackageUpdates : gset string;
  FailedArtifactUpdates : gset string;
  FailedArtifactDeploys : gset string
}.

Definition emptyStats : ProcessingStats :=
  mkProcessingStats 0 0 0 0 0 0 0 0 0 0 ∅ ∅ ∅ ∅ ∅ ∅.

(** The updates of the statistics made in phase 1: [stats.X++] and
    [stats.Y[id] = true]. *)
Definition incPackagesUpdated (st : ProcessingStats) : ProcessingStats :=
  mkProcessingStats (S (PackagesUpdated st)) (PackagesDeployed st)
    (PackagesFailed st) (PackagesFiltered st) (ArtifactsTotal st)
    (ArtifactsDeployedSuccess st) (ArtifactsDeployedFailed st)
    (ArtifactsFiltered st) (UpdateFailures st) (DeployFailures st)
    (SuccessfulPackageUpdates st) (SuccessfulArtifactUpdates st)
    (SuccessfulArtifactDeploys st) (FailedPackageUpdates st)
    (FailedArtifactUpdates st) (FailedArtifactDeploys st).

Definition incPackagesFailed (st : ProcessingStats) : ProcessingStats :=
  mkProcessingStats (PackagesUpdated st) (PackagesDeployed st)
    (S (PackagesFailed st)) (PackagesFiltered st) (ArtifactsTotal st)
    (ArtifactsDeployedSuccess st) (ArtifactsDeployedFailed st)
    (ArtifactsFiltered st) (UpdateFailures st) (DeployFailures st)
    (SuccessfulPackageUpdates st) (SuccessfulArtifactUpdates st)
    (SuccessfulArtifactDeploys st) (FailedPackageUpdates st)
    (FailedArtifactUpdates st) (FailedArtifactDeploys st).

Definition incPackagesFiltered (st : ProcessingStats) : ProcessingStats :=
  mkProcessingStats (PackagesUpdated st) (PackagesDeployed st)
    (PackagesFailed st) (S (PackagesFiltered st)) (ArtifactsTotal st)
    (ArtifactsDeployedSuccess st) (ArtifactsDeployedFailed st)
    (ArtifactsFiltered st) (UpdateFailures st) (DeployFailures st)
    (SuccessfulPackageUpdates st) (SuccessfulArtifactUpdates st)
    (SuccessfulArtifactDeploys st) (FailedPackageUpdates st)
    (FailedArtifactUpdates st) (FailedArtifactDeploys st).

Definition incArtifactsTotal (st : ProcessingStats) : ProcessingStats :=
  mkProcessingStats (PackagesUpdated st) (PackagesDeployed st)
    (PackagesFailed st) (PackagesFiltered st) (S (ArtifactsTotal st))
    (ArtifactsDeployedSuccess st) (ArtifactsDeployedFailed st)
    (ArtifactsFiltered st) (UpdateFailures st) (DeployFailures st)
    (SuccessfulPackageUpdates st) (SuccessfulArtifactUpdates st)
    (SuccessfulArtifactDeploys st) (FailedPackageUpdates st)
    (FailedArtifactUpdates st) (FailedArtifactDeploys st).

Definition incArtifactsFiltered (st : ProcessingStats) : ProcessingStats :=
  mkProcessingStats (PackagesUpdated st) (PackagesDeployed st)
    (PackagesFailed st) (PackagesFiltered st) (ArtifactsTotal st)
    (ArtifactsDeployedSuccess st) (ArtifactsDeployedFailed st)
    (S (ArtifactsFiltered st)) (UpdateFailures st) (DeployFailures st)
    (SuccessfulPackageUpdates st) (SuccessfulArtifactUpdates st)
    (SuccessfulArtifactDeploys st) (FailedPackageUpdates st)
    (FailedArtifactUpdates st) (FailedArtifactDeploys st).

Definition incUpdateFailures (st : ProcessingStats) : ProcessingStats :=
  mkProcessingStats (PackagesUpdated st) (PackagesDeployed st)
    (PackagesFailed st) (PackagesFiltered st) (ArtifactsTotal st)
    (ArtifactsDeployedSuccess st) (ArtifactsDeployedFailed st)
    (ArtifactsFiltered st) (S (UpdateFailures st)) (DeployFailures st)
    (SuccessfulPackageUpdates st) (SuccessfulArtifactUpdates st)
    (SuccessfulArtifactDeploys st) (FailedPackageUpdates st)
    (FailedArtifactUpdates st) (FailedArtifactDeploys st).

Definition addSuccessfulPackageUpdates (id : string) (st : ProcessingStats) : ProcessingStats :=
  mkProcessingStats (PackagesUpdated st) (PackagesDeployed st)
    (PackagesFailed st) (PackagesFiltered st) (ArtifactsTotal st)
    (ArtifactsDeployedSuccess st) (ArtifactsDeployedFailed st)
    (ArtifactsFiltered st) (UpdateFailures st) (DeployFailures st)
    ({[ id ]} ∪ SuccessfulPackageUpdates st) (SuccessfulArtifactUpdates st)
    (SuccessfulArtifactDeploys st) (FailedPackageUpdates st)
    (FailedArtifactUpdates st) (FailedArtifactDeploys st).

Definition addSuccessfulArtifactUpdates (id : string) (st : ProcessingStats) : ProcessingStats :=
  mkProcessingStats (PackagesUpdated st) (PackagesDeployed st)
    (PackagesFailed st) (PackagesFiltered st) (ArtifactsTotal st)
    (ArtifactsDeployedSuccess st) (ArtifactsDeployedFailed st)
    (ArtifactsFiltered st) (UpdateFailures st) (DeployFailures st)
    (SuccessfulPackageUpdates st) ({[ id ]} ∪ SuccessfulArtifactUpdates st)
    (SuccessfulArtifactDeploys st) (FailedPackageUpdates st)
    (FailedArtifactUpdates st) (FailedArtifactDeploys st).

Definition addFailedPackageUpdates (id : string) (st : ProcessingStats) : ProcessingStats :=
  mkProcessingStats (PackagesUpdated st) (PackagesDeployed st)
    (PackagesFailed st) (PackagesFiltered st) (ArtifactsTotal st)
    (ArtifactsDeployedSuccess st) (ArtifactsDeployedFailed st)
    (ArtifactsFiltered st) (UpdateFailures st) (DeployFailures st)
    (SuccessfulPackageUpdates st) (SuccessfulArtifactUpdates st)
    (SuccessfulArtifactDeploys st) ({[ id ]} ∪ FailedPackageUpdates st)
    (FailedArtifactUpdates st) (FailedArtifactDeploys st).

Definition addFailedArtifactUpdates (id : string) (st : ProcessingStats) : ProcessingStats :=
  mkProcessingStats (PackagesUpdated st) (PackagesDeployed st)
    (PackagesFailed st) (PackagesFiltered st) (ArtifactsTotal st)
    (ArtifactsDeployedSuccess st) (ArtifactsDeployedFailed st)
    (ArtifactsFiltered st) (UpdateFailures st) (DeployFailures st)
    (SuccessfulPackageUpdates st) (SuccessfulArtifactUpdates st)
    (SuccessfulArtifactDeploys st) (FailedPackageUpdates st)
    ({[ id ]} ∪ FailedArtifactUpdates st) (FailedArtifactDeploys st).

(** [DeploymentTask]. *)
Record DeploymentTask := mkDeploymentTask {
  t_ArtifactID : string;
  t_ArtifactType : string;
  t_PackageID : string;
  t_DisplayName : string
}.

(** [api.ServiceDetails] (the fields the orchestrator looks at). *)
Record ServiceDetails := mkServiceDetails {
  Host : string;
  OauthHost : string;
  OauthClientId : string;
  OauthPath : string;
  Userid : string
}.

(** What phase 1 does to the outside. *)
Inductive event :=
  | EvMkdirAll (path : string) (err : option string)
  | EvWriteFile (path : string) (err : option string)
  | EvPackageSync (packageFile : string) (err : option string)
  | EvCopyDir (src dst : string) (err : option string)
  | EvUpdateManifest (manifestPath symbolicName bundleName outputPath : string)
      (err : option string)
  | EvMergeParameters (paramsPath outputPath : string) (err : option string)
  | EvArtifactSync (artifactID artifactName artifactType packageID
                    artifactDir workDir : string) (err : option string).

(** The events that touch an artifact. *)
Definition isArtifactEvent (e : event) : bool :=
  match e with
  | EvCopyDir _ _ _ | EvUpdateManifest _ _ _ _ _ | EvMergeParameters _ _ _
  | EvArtifactSync _ _ _ _ _ _ _ => true
  | _ => false
  end.

(** The outside of the orchestrator: the file system (package [os] and the
    helpers of internal/deploy), JSON, the package syncer
    ([flashpipeSync.NewSyncer("tenant", "CPIPackage", exe).Exec]) and the
    artifact synchroniser ([SingleArtifactToTenant]).  A writing function
    returns [Some msg] for an error. *)
Class Outside (W : Type) := {
  DirExists : string -> W -> bool;
  FileExists : string -> W -> bool;
  ReadFile : string -> W -> option string;
  MkdirAll : string -> W -> option string * W;
  WriteFile : string -> string -> W -> option string * W;
  CopyDir : string -> string -> W -> option string * W;
  UpdateManifestBundleName :
    string -> string -> string -> string -> W -> option string * W;
  FindParametersFile : string -> W -> string;
  MergeParametersFile :
    string -> gmap string string -> string -> W -> option string * W;
  filepathJoin : list string -> string;
  filepathDir : string -> string;
  marshalPackageJSON : string -> string -> string -> string -> option string;
  executerIsNil : ServiceDetails -> bool;
  synchroniserIsNil : ServiceDetails -> bool;
  PackageSyncExec : ServiceDetails -> string -> W -> option string * W;
  SingleArtifactToTenant :
    ServiceDetails -> string -> string -> string -> string -> string -> string ->
    W -> option string * W
}.

(** [shouldInclude]. *)
Definition shouldInclude (id : string) (filter : list string) : bool :=
  match filter with
  | [] => true
  | _ => existsb (fun f => String.eqb f id) filter
  end.

(** [mapArtifactTypeForSync]. *)
Definition mapArtifactTypeForSync (artifactType : string) : string :=
  let t := ToLower artifactType in
  if String.eqb t "integrationflow" || String.eqb t "integration flow"
     || String.eqb t "iflow" then "Integration"
  else if String.eqb t "valuemapping" || String.eqb t "value mapping"
  then "ValueMapping"
  else if String.eqb t "messagemapping" || String.eqb t "message mapping"
  then "MessageMapping"
  else if String.eqb t "scriptcollection" || String.eqb t "script collection"
  then "ScriptCollection"
  else "Integration".

Section Phase1.
Context {W : Type} `{Outside W}.

Local Abbreviation M := (Cmd.M (W := W) (E := event)).

(** Reading the outside emits no event. *)
Definition look {A} (f : W -> A) : M A := fun w => (f w, w, []).

(** [updatePackage]: [Some msg] is the error it returns. *)
Definition updatePackage (pkg : Package)
    (finalPackageID finalPackageName workDir : string)
    (serviceDetails : option ServiceDetails) : M (option string) :=
  match serviceDetails with
  | None => ret (Some "serviceDetails is nil - cannot update package")
  | Some sd =>
      let description :=
        if String.eqb (Description pkg) "" then finalPackageName
        else Description pkg in
      let shortText :=
        if String.eqb (ShortText pkg) "" then finalPackageName
        else ShortText pkg in
      match marshalPackageJSON finalPackageID finalPackageName description
              shortText with
      | None => ret (Some "failed to marshal package JSON")
      | Some jsonData =>
          let packageJSONPath :=
            filepathJoin [workDir; "modified"; "package_" +:+ ID pkg +:+ ".json"] in
          err <- call (EvMkdirAll (filepathDir packageJSONPath))
                      (MkdirAll (filepathDir packageJSONPath)) ;;
          match err with
          | Some e => ret (Some ("failed to create package JSON directory: " +:+ e))
          | None =>
              err <- call (EvWriteFile packageJSONPath)
                          (WriteFile packageJSONPath jsonData) ;;
              match err with
              | Some e => ret (Some ("failed to write package JSON: " +:+ e))
              | None =>
                  err <- call (EvPackageSync packageJSONPath)
                              (PackageSyncExec sd packageJSONPath) ;;
                  match err with
                  | Some _ =>
                      (* Don't return error - package might not exist yet *)
                      ret None
                  | None => ret None
                  end
              end
          end
      end
  end.

(** The body of the loop of [updateArtifacts]; the state is the statistics
    and [updatedCount]. *)
Definition updateArtifact (sd : ServiceDetails)
    (packageDir finalPackageID prefix workDir : string)
    (artifactFilter : list string)
    (artifact : Artifact) (st : ProcessingStats * nat) : M (ProcessingStats * nat) :=
  let '(stats, updatedCount) := st in
  if negb (shouldInclude (Id artifact) artifactFilter) then
    ret (incArtifactsFiltered stats, updatedCount)
  else if negb (ArtifactSync artifact) then ret (stats, updatedCount)
  else
    let stats := incArtifactsTotal stats in
    let artifactDir := filepathJoin [packageDir; ArtifactDir artifact] in
    exists_ <- look (DirExists artifactDir) ;;
    if negb exists_ then ret (stats, updatedCount)
    else
      let finalArtifactID :=
        if String.eqb prefix "" then Id artifact
        else prefix +:+ "_" +:+ Id artifact in
      let finalArtifactName :=
        if String.eqb (ArtifactDisplayName artifact) "" then Id artifact
        else ArtifactDisplayName artifact in
      let artifactType := mapArtifactTypeForSync (Type_ artifact) in
      let tempArtifactDir := filepathJoin [workDir; Id artifact] in
      err <- call (EvCopyDir artifactDir tempArtifactDir)
                  (CopyDir artifactDir tempArtifactDir) ;;
      match err with
      | Some _ => ret (addFailedArtifactUpdates (Id artifact) stats, updatedCount)
      | None =>
          let manifestPath :=
            filepathJoin [tempArtifactDir; "META-INF"; "MANIFEST.MF"] in
          let modifiedManifestPath :=
            filepathJoin [workDir; "modified"; Id artifact; "META-INF"; "MANIFEST.MF"] in
          hasManifest <- look (FileExists manifestPath) ;;
          _ <- (if hasManifest then
                  call (EvUpdateManifest manifestPath finalArtifactID
                          finalArtifactName modifiedManifestPath)
                       (UpdateManifestBundleName manifestPath finalArtifactID
                          finalArtifactName modifiedManifestPath)
                else ret None) ;;
          paramsPath <- look (FindParametersFile tempArtifactDir) ;;
          hasParams <- look (FileExists paramsPath) ;;
          modifiedParamsPath <-
            (if negb (String.eqb paramsPath "") && hasParams then
               let modifiedParamsPath :=
                 filepathJoin [workDir; "modified"; Id artifact; "parameters.prop"] in
               _ <- (if (0 <? size (ConfigOverrides artifact))%nat then
                       call (EvMergeParameters paramsPath modifiedParamsPath)
                            (MergeParametersFile paramsPath
                               (ConfigOverrides artifact) modifiedParamsPath)
                     else
                       data <- look (ReadFile paramsPath) ;;
                       match data with
                       | None => ret None
                       | Some data =>
                           _ <- call (EvMkdirAll (filepathDir modifiedParamsPath))
                                     (MkdirAll (filepathDir modifiedParamsPath)) ;;
                           call (EvWriteFile modifiedParamsPath)
                                (WriteFile modifiedParamsPath data)
                       end) ;;
               ret modifiedParamsPath
             else ret "") ;;
          hasModifiedManifest <- look (FileExists modifiedManifestPath) ;;
          _ <- (if hasModifiedManifest then
                  let targetManifestPath :=
                    filepathJoin [tempArtifactDir; "META-INF"; "MANIFEST.MF"] in
                  data <- look (ReadFile modifiedManifestPath) ;;
                  match data with
                  | None => ret None
                  | Some data =>
                      call (EvWriteFile targetManifestPath)
                           (WriteFile targetManifestPath data)
                  end
                else ret None) ;;
          hasModifiedParams <- look (FileExists modifiedParamsPath) ;;
          _ <- (if negb (String.eqb modifiedParamsPath "") && hasModifiedParams then
                  actualParamsPath <- look (FindParametersFile tempArtifactDir) ;;
                  data <- look (ReadFile modifiedParamsPath) ;;
                  match data with
                  | None => ret None
                  | Some data =>
                      call (EvWriteFile actualParamsPath)
                           (WriteFile actualParamsPath data)
                  end
                else ret None) ;;
          err <- call (EvArtifactSync finalArtifactID finalArtifactName
                         artifactType finalPackageID tempArtifactDir workDir)
                      (SingleArtifactToTenant sd finalArtifactID finalArtifactName
                         artifactType finalPackageID tempArtifactDir workDir) ;;
          match err with
          | Some _ =>
              ret (addFailedArtifactUpdates (Id artifact) (incUpdateFailures stats),
                   updatedCount)
          | None =>
              ret (addSuccessfulArtifactUpdates finalArtifactID stats,
                   S updatedCount)
          end
      end.

(** [updateArtifacts]: the error it returns and the statistics. *)
Definition updateArtifacts (h : heap) (pkg : Package)
    (packageDir finalPackageID finalPackageName prefix workDir : string)
    (artifactFilter : list string) (stats : ProcessingStats)
    (serviceDetails : option ServiceDetails)
    : M (option string * ProcessingStats) :=
  match serviceDetails with
  | None =>
      ret (Some "serviceDetails is nil - cannot initialize HTTP executer", stats)
  | Some sd =>
      if String.eqb (Host sd) "" then
        ret (Some "serviceDetails.Host is empty - check CPI credentials in config file",
             stats)
      else if executerIsNil sd then
        ret (Some "failed to initialize HTTP executer", stats)
      else if synchroniserIsNil sd then
        ret (Some "failed to initialize synchroniser", stats)
      else
        st <- forEach (readSlice h (Artifacts pkg))
                (updateArtifact sd packageDir finalPackageID prefix workDir
                   artifactFilter)
                (stats, 0) ;;
        ret (None, st.1)
  end.

(** [collectDeploymentTasks]. *)
Definition collectDeploymentTasks (h : heap) (pkg : Package)
    (finalPackageID prefix : string) (artifactFilter : list string)
    (stats : ProcessingStats) : list DeploymentTask :=
  omap (fun artifact =>
          if bool_decide (Id artifact ∈ FailedArtifactUpdates stats) then None
          else if negb (shouldInclude (Id artifact) artifactFilter) then None
          else if negb (ArtifactDeploy artifact) then None
          else
            let finalArtifactID :=
              if String.eqb prefix "" then Id artifact
              else prefix +:+ "_" +:+ Id artifact in
            let artifactType :=
              if String.eqb (Type_ artifact) "" then "IntegrationFlow"
              else Type_ artifact in
            Some (mkDeploymentTask finalArtifactID artifactType finalPackageID
                    (ArtifactDisplayName artifact)))
       (readSlice h (Artifacts pkg)).

(** The body of the loop of [processPackages]; the state is the statistics
    and the deployment tasks collected so far. *)
Definition processPackage (h : heap) (config : DeployConfig) (applyPrefix : bool)
    (mode : OperationMode) (packagesDir workDir : string)
    (packageFilter artifactFilter : list string)
    (serviceDetails : option ServiceDetails)
    (pkg : Package) (st : ProcessingStats * list DeploymentTask)
    : M (ProcessingStats * list DeploymentTask) :=
  let '(stats, deploymentTasks) := st in
  if negb (shouldInclude (ID pkg) packageFilter) then
    ret (incPackagesFiltered stats, deploymentTasks)
  else if negb (Sync pkg) && negb (Deploy pkg) then ret (stats, deploymentTasks)
  else
    let packageDir := filepathJoin [packagesDir; PackageDir pkg] in
    exists_ <- look (DirExists packageDir) ;;
    if negb exists_ then ret (stats, deploymentTasks)
    else
      let finalPackageID := ID pkg in
      let finalPackageName :=
        if String.eqb (DisplayName pkg) "" then ID pkg else DisplayName pkg in
      let prefixed := applyPrefix && negb (String.eqb (DeploymentPrefix config) "") in
      let finalPackageID :=
        if prefixed then DeploymentPrefix config +:+ "" +:+ ID pkg
        else finalPackageID in
      let finalPackageName :=
        if prefixed then DeploymentPrefix config +:+ " - " +:+ finalPackageName
        else finalPackageName in
      updated <-
        (if negb (isDeployOnly mode) then
           err <- updatePackage pkg finalPackageID finalPackageName workDir
                    serviceDetails ;;
           match err with
           | Some _ =>
               ret (inr (incPackagesFailed (addFailedPackageUpdates (ID pkg) stats)))
           | None =>
               ret (inl (incPackagesUpdated
                           (addSuccessfulPackageUpdates (ID pkg) stats)))
           end
         else ret (inl stats)) ;;
      match updated with
      | inr stats => ret (stats, deploymentTasks)
      | inl stats =>
          stats <-
            (if Sync pkg && negb (isDeployOnly mode) then
               res <- updateArtifacts h pkg packageDir finalPackageID
                        finalPackageName (DeploymentPrefix config) workDir
                        artifactFilter stats serviceDetails ;;
               match res with
               | (Some _, stats) => ret (incUpdateFailures stats)
               | (None, stats) => ret stats
               end
             else ret stats) ;;
          if Deploy pkg && negb (isUpdateOnly mode) then
            let tasks :=
              collectDeploymentTasks h pkg finalPackageID
                (DeploymentPrefix config) artifactFilter stats in
            ret (stats, deploymentTasks ++ tasks)
          else ret (stats, deploymentTasks)
      end.

(** The loop of [processPackages] over the packages [pkgs], from the state
    [st]. *)
Definition processLoop (h : heap) (config : DeployConfig) (applyPrefix : bool)
    (mode : OperationMode) (packagesDir workDir : string)
    (packageFilter artifactFilter : list string)
    (serviceDetails : option ServiceDetails)
    (pkgs : list Package) (st : ProcessingStats * list DeploymentTask)
    : M (ProcessingStats * list DeploymentTask) :=
  forEach pkgs
    (processPackage h config applyPrefix mode packagesDir workDir packageFilter
       artifactFilter serviceDetails)
    st.

(** [processPackages]: the deployment tasks (its error result is always
    nil) and the statistics it leaves. *)
Definition processPackages (h : heap) (config : DeployConfig) (applyPrefix : bool)
    (mode : OperationMode) (packagesDir workDir : string)
    (packageFilter artifactFilter : list string) (stats : ProcessingStats)
    (serviceDetails : option ServiceDetails)
    : M (list DeploymentTask * ProcessingStats) :=
  st <- processLoop h config applyPrefix mode packagesDir workDir packageFilter
          artifactFilter serviceDetails (Packages config) (stats, []) ;;
  ret (st.2, st.1).

End Phase1.

End Orchestrator.

(** *** A view of the two loops of [MergeConfigs] as one pass *)
Module MergeView.
Import GoStrings GoOS Models Deploy.

(** The packages in the order the two loops visit them, each with the prefix
    and the file name of its configuration. *)
Definition entry : Type := string * string * Package.

Definition entries (configs : list DeployConfigFile) : list entry :=
  configs ≫= (fun cf =>
    (fun p => (DeploymentPrefix (Config cf), FileName cf, p))
      <$> Packages (Config cf)).

Definition fqid (e : entry) : string := e.1.1 +:+ ID e.2.
Definition source (e : entry) : string := e.1.2.

Fixpoint mergeEntries (es : list entry) (st : mergeState)
    : mergeState * option string :=
  match es with
  | [] => (st, None)
  | (P, f, p) :: es' =>
      match mergePackage P f p st with
      | inr e => (st, Some e)
      | inl st' => mergeEntries es' st'
      end
  end.

Fixpoint firstDup (seen : gmap string string) (l : list (string * string))
    : option (string * string * string) :=
  match l with
  | [] => None
  | (k, f) :: l' =>
      match seen !! k with
      | Some f0 => Some (k, f, f0)
      | None => firstDup (<[k := f]> seen) l'
      end
  end.

Definition keyed (es : list entry) : list (string * string) :=
  (fun e => (fqid e, source e)) <$> es.

Definition prefixed (P : string) (a : Artifact) : Artifact :=
  withId (P +:+ "_" +:+ Id a) a.

Definition applyEntry (h : heap) (e : entry) : heap :=
  if String.eqb e.1.1 "" then h else prefixArtifacts e.1.1 (Artifacts e.2) h.

Definition mergedPackage (e : entry) : Package :=
  let '(P, _, p) := e in
  if String.eqb P "" then p
  else mkPackage (P +:+ ID p) (PackageDir p)
         (if String.eqb (DisplayName p) "" then P +:+ " - " +:+ ID p
          else P +:+ " - " +:+ DisplayName p)
         (Description p) (ShortText p) (Sync p) (Deploy p) (Artifacts p).

Definition allCells (es : list entry) : list nat :=
  es ≫= (fun e => cells (Artifacts e.2)).

End MergeView.

(** *** A view of the manifest rewriter line by line *)
Module ManifestView.
Import GoStrings Deploy.

(** What the loop of [UpdateManifestBundleName] appends for one line. *)
Definition rewriteLine (bundleSymbolicName bundleName line : string) : string :=
  if isBundleName line then "Bundle-Name: " +:+ bundleName
  else if isBundleSymbolicName line then
    "Bundle-SymbolicName: " +:+ bundleSymbolicName
  else line.

(** Bytes of the ASCII range, and bytes outside it. *)
Definition isLow (c : ascii) : bool := (nat_of_ascii c <? 128)%nat.

Fixpoint allHigh (s : string) : bool :=
  match s with
  | "" => true
  | String c s' => negb (isLow c) && allHigh s'
  end.

(** [s] ends with the byte [c]. *)
Fixpoint lastByteIs (c : ascii) (s : string) : bool :=
  match s with
  | "" => false
  | String a "" => Ascii.eqb a c
  | String _ s' => lastByteIs c s'
  end.

(** No carriage return and no line feed in [s]. *)
Definition singleLine (s : string) : bool :=
  negb (Repo.SpecAlgorithm.hasByte (byte 13) s)
  && negb (Repo.SpecAlgorithm.hasByte (byte 10) s).

(** The two line endings the rewriter tells apart. *)
Definition lineEnding (le : string) : Prop := le = LF \/ le = CRLF.

(** The lines of [output], read with the line ending [le], are the lines [R]
    written, followed by an empty one when a terminator was added. *)
Definition outputLines (output le : string) (R : list string) : Prop :=
  Split output le = R \/ Split output le = R ++ [""].

End ManifestView.

(** ** An in-memory platform, to run the code on concrete files *)
Module MemFS.
Import GoOS.

#[global] Instance memPlatform : Platform (gmap string string) := {|
  fileExists p fs := bool_decide (is_Some (fs !! p));
  dirExists _ _ := true;
  ReadFile p fs := fs !! p;
  WriteFile p data fs := Some (<[p := data]> fs);
  MkdirAll _ fs := Some fs;
  filepathJoin a b := a +:+ "/" +:+ b;
  filepathDir p := p;
  base64Decode s := Some s;
  jsonUnmarshal _ := Some ∅;
  jsonMarshalIndent _ := Some ""
|}.

End MemFS.

(** *** Phase 1, package by package *)
Module OrchestratorView.
Import GoStrings GoOS Models Cmd Orchestrator.

(** The final package ID and name computed at the head of the loop body. *)
Definition finalPackageID (config : DeployConfig) (applyPrefix : bool)
    (pkg : Package) : string :=
  if applyPrefix && negb (String.eqb (DeploymentPrefix config) "")
  then DeploymentPrefix config +:+ "" +:+ ID pkg
  else ID pkg.

Definition finalPackageName (config : DeployConfig) (applyPrefix : bool)
    (pkg : Package) : string :=
  let name := if String.eqb (DisplayName pkg) "" then ID pkg else DisplayName pkg in
  if applyPrefix && negb (String.eqb (DeploymentPrefix config) "")
  then DeploymentPrefix config +:+ " - " +:+ name
  else name.

(** The statistics after the failure of the update of package [id]. *)
Definition recordPackageFailure (id : string) (stats : ProcessingStats)
    : ProcessingStats :=
  incPackagesFailed (addFailedPackageUpdates id stats).

(** The value a command returns from every state satisfies [Q]. *)
Definition returns {W E A : Type} (Q : A -> Prop) (m : Cmd.M (W := W) (E := E) A)
    : Prop :=
  forall w, Q (m w).1.1.

End OrchestratorView.

(** ** An outside in memory for the orchestrator: every directory exists, no
    file does, and the package syncer and the writing of files fail when the
    state says so *)
Module MemOutside.
Import GoStrings GoOS Orchestrator.

Record state := mkState { syncerFails : bool; writeFails : bool }.

#[global] Instance memOutside : Outside state := {|
  DirExists _ _ := true;
  FileExists _ _ := false;
  ReadFile _ _ := None;
  MkdirAll _ w := (None, w);
  WriteFile _ _ w := (if writeFails w then Some "disk full" else None, w);
  CopyDir _ _ w := (None, w);
  UpdateManifestBundleName _ _ _ _ w := (None, w);
  FindParametersFile _ _ := "";
  MergeParametersFile _ _ _ w := (None, w);
  filepathJoin parts := Join parts "/";
  filepathDir p := p;
  marshalPackageJSON id _ _ _ := Some id;
  executerIsNil _ := false;
  synchroniserIsNil _ := false;
  PackageSyncExec _ _ w := (if syncerFails w then Some "HTTP 404" else None, w);
  SingleArtifactToTenant _ _ _ _ _ _ _ w := (None, w)
|}.

End MemOutside.

(** ** A transport that is down *)
Module MemHTTP.
Import GoStrings GoOS Batch.

(** Every request fails with a connection error; no response is parsed. *)
#[global] Instance downExecuter : HTTPExecuter := {|
  ExecRequestWithCookies := fun _ _ => Err "connection refused";
  parseBatchResponse := fun _ => Err "no response"
|}.

End MemHTTP.

(** ** Concrete inputs: the scenarios of the specification *)
Module Scenarios.
Import GoStrings GoOS Models Deploy.

Definition artifact (id : string) : Artifact :=
  mkArtifact id id "" "IntegrationFlow" true true ∅.

Definition package (id : string) (arts : slice) : Package :=
  mkPackage id id "" "" "" true true arts.

Definition configFile (pfx file : string) (pkgs : list Package) : DeployConfigFile :=
  mkDeployConfigFile (mkDeployConfig pfx pkgs) file file 0.

(** Two artifact arrays of one cell each, at addresses 0 and 1. *)
Definition heap2 : heap := <[0 := artifact "A1"]> (<[1 := artifact "B1"]> ∅).

(** S2: prefixes [DEV] and [QA], package [P1] in both. *)
Definition configsS2 : list DeployConfigFile :=
  [ configFile "DEV" "a.yml" [package "P1" (mkSlice 0 1)];
    configFile "QA" "b.yml" [package "P1" (mkSlice 1 1)] ].

Definition heapS2 : heap := (MergeConfigs configsS2 heap2).1.

Definition mergedS2 : DeployConfig :=
  mkDeployConfig ""
    [ mkPackage "DEVP1" "P1" "DEV - P1" "" "" true true (mkSlice 0 1);
      mkPackage "QAP1" "P1" "QA - P1" "" "" true true (mkSlice 1 1) ].

(** S3: prefix [DEV] and package [P1] in both files. *)
Definition configsS3 : list DeployConfigFile :=
  [ configFile "DEV" "a.yml" [package "P1" (mkSlice 0 1)];
    configFile "DEV" "b.yml" [package "P1" (mkSlice 1 1)] ].

(** The same artifact array in two packages. *)
Definition configsShared : list DeployConfigFile :=
  [ configFile "DEV" "a.yml" [package "P1" (mkSlice 0 1)];
    configFile "QA" "b.yml" [package "P1" (mkSlice 0 1)] ].

(** S1: a manifest with both headers, line feeds only. *)
Definition manifestS1 : string :=
  "Bundle-Name: Old" +:+ LF +:+ "Bundle-SymbolicName: Old" +:+ LF.

Definition filesS1 : gmap string string := {[ "MANIFEST.MF" := manifestS1 ]}.

(** A manifest without CR LF whose last line ends with a lone CR. *)
Definition manifestLoneCR : string :=
  "x" +:+ LF +:+ "Bundle-Name: a" +:+ LF +:+ "y" +:+ CR.

(** A manifest with one header, and a bundle name that spans two lines. *)
Definition manifestOneHeader : string := "Bundle-Name: a" +:+ LF.

Definition nameTwoLines : string := "A" +:+ LF +:+ "Bundle-Name: B".

(** S5: partner [P1] holds [s1] locally; the tenant holds [P1/s1], [P1/s2]
    and [P2/x1]. *)
Definition repoS5 : PDDeploy.LocalRepo :=
  PDDeploy.mkLocalRepo (Ok ["P1"])
    (fun pid => if String.eqb pid "P1"
                then Ok [Repo.mkStringParameter "P1" "s1" "v1"] else Ok [])
    (fun _ => Ok []).

Definition tenantS5 : MemTenant.tenant :=
  MemTenant.mkTenant
    [ Repo.mkStringParameter "P1" "s1" "v1";
      Repo.mkStringParameter "P1" "s2" "v2";
      Repo.mkStringParameter "P2" "x1" "v3" ] [].

(** A binary parameter whose local and remote values agree and whose
    content types differ. *)
Definition localBinary : Repo.BinaryParameter :=
  Repo.mkBinaryParameter "P1" "b" "PGEvPg==" "xml; encoding=UTF-8".

Definition remoteBinary : Repo.BinaryParameter :=
  Repo.mkBinaryParameter "P1" "b" "PGEvPg==" "xml".

Definition repoBinary : PDDeploy.LocalRepo :=
  PDDeploy.mkLocalRepo (Ok ["P1"]) (fun _ => Ok [])
    (fun pid => if String.eqb pid "P1" then Ok [localBinary] else Ok []).

Definition tenantBinary : MemTenant.tenant :=
  MemTenant.mkTenant [] [remoteBinary].

(** S1: one package [Pkg1] with the artifact [A1], no prefix. *)
Definition heapS1 : heap := <[0 := artifact "A1"]> ∅.

Definition configS1 : DeployConfig :=
  mkDeployConfig "" [package "Pkg1" (mkSlice 0 1)].

Definition serviceS1 : option Orchestrator.ServiceDetails :=
  Some (Orchestrator.mkServiceDetails "tenant.example" "" "" "" "").

End Scenarios.

(** * More of the code *)

(** ** More of Go's [strings], [sort] and [path/filepath] *)
Module GoStringsMore.
Import GoStrings.

(** [strings.SplitN(s, sep, n)] for a non-empty [sep] and [n > 0]: at most
    [n] pieces, the last one the unsplit rest.  Go's loop looks for the next
    separator with [Index], as here. *)
Fixpoint SplitN (s sep : string) (n : nat) : list string :=
  match n with
  | 0 => []
  | 1 => [s]
  | S n' =>
      match Index s sep with
      | None => [s]
      | Some m => take m s :: SplitN (drop (m + String.length sep) s) sep n'
      end
  end.

(** [strings.TrimPrefix] and [strings.TrimSuffix]. *)
Definition TrimPrefix (s prefix : string) : string :=
  if HasPrefix s prefix then drop (String.length prefix) s else s.

Definition TrimSuffix (s suffix : string) : string :=
  if HasSuffix s suffix then take (String.length s - String.length suffix) s
  else s.

(** [filepath.Ext(path)] on Unix: the suffix that starts at the last dot of
    the last element of [path], empty when that element has no dot.  [r] is
    the path read backwards, [acc] the bytes passed so far. *)
Fixpoint ext_go (r acc : string) : string :=
  match r with
  | "" => ""
  | String c r' =>
      if Ascii.eqb c "/" then ""
      else if Ascii.eqb c "." then String "." acc
      else ext_go r' (String c acc)
  end.

Definition Ext (path : string) : string := ext_go (rev path) "".

(** [sort.Strings]: increasing byte order.  Equal strings cannot be told
    apart, so the result is the same for every sorting algorithm. *)
Definition strle (a b : string) : Prop := String.leb a b = true.

#[global] Instance strle_dec (a b : string) : Decision (strle a b) :=
  bool_eq_dec _ _.

Definition sortStrings (l : list string) : list string := merge_sort strle l.

End GoStringsMore.

(** ** internal/repo/partnerdirectory.go: the properties files *)
Module RepoFile.
Import GoStrings GoStringsMore GoOS Repo.

(** [removeFileExtension]. *)
Definition removeFileExtension (filename : string) : string :=
  let ext := Ext filename in
  if negb (String.eqb ext "") then TrimSuffix filename ext else filename.

(** [sort.Slice(params, func(i, j) { return params[i].ID < params[j].ID })]:
    Go does not say in which order parameters with the same ID come out, so
    the sorting function is a parameter of the model.  What [sort.Slice]
    guarantees of it, that the result is a permutation of the input in which
    no parameter comes before one with a smaller ID, is assumed where it is
    used. *)
Class SliceSort := {
  sortByID : list StringParameter -> list StringParameter
}.

(** The line [fmt.Sprintf("%s=%s\n", key, value)]. *)
Definition propertyLine (key value : string) : string :=
  key +:+ "=" +:+ value +:+ LF.

(** The loop over the lines shared by [readPropertiesFile] and
    [mergePropertiesFile]: the key and the raw value of a line, [None] for a
    line that is skipped. *)
Definition parsePropertyLine (line : string) : option (string * string) :=
  let line := TrimSpace line in
  if String.eqb line "" || HasPrefix line "#" then None
  else match SplitN line "=" 2 with
       | [k; v] => Some (k, v)
       | _ => None
       end.

(** The content [writePropertiesFile] writes for parameters already
    sorted. *)
Definition propertiesContent (params : list StringParameter) : string :=
  foldr (fun p acc =>
           propertyLine (sp_ID p) (escapePropertyValue (sp_Value p)) +:+ acc)
        "" params.

(** The parameters [readPropertiesFile] reads from the content of a file. *)
Definition parseProperties (data pid : string) : list StringParameter :=
  omap (fun line =>
          match parsePropertyLine line with
          | Some (k, v) => Some (mkStringParameter pid k (unescapePropertyValue v))
          | None => None
          end)
       (Split data LF).

(** The map [existing] that [mergePropertiesFile] reads from the content of
    a file: a later line for a key replaces an earlier one. *)
Definition existingProperties (data : string) : gmap string string :=
  foldl (fun existing line =>
           match parsePropertyLine line with
           | Some (k, v) => <[k := v]> existing
           | None => existing
           end)
        ∅ (Split data LF).

(** The second loop of [mergePropertiesFile]: the map and [addedCount]. *)
Definition addNewProperties (newParams : list StringParameter)
    (st : gmap string string * nat) : gmap string string * nat :=
  foldl (fun st param =>
           match st.1 !! sp_ID param with
           | Some _ => st
           | None =>
               (<[sp_ID param := escapePropertyValue (sp_Value param)]> st.1,
                S st.2)
           end)
        st newParams.

(** The content [mergePropertiesFile] writes for the map [existing]. *)
Definition mapContent (existing : gmap string string) : string :=
  foldr (fun key acc => propertyLine key (default "" (existing !! key)) +:+ acc)
        "" (sortStrings (elements (dom existing))).

Section Files.
Context {FS : Type} `{Platform FS} `{SliceSort}.

(** [writePropertiesFile]. *)
Definition writePropertiesFile (filePath : string)
    (params : list StringParameter) (fs : FS) : result FS :=
  let params := sortByID params in
  match WriteFile filePath (propertiesContent params) fs with
  | None => Err "failed to write properties file"
  | Some fs' => Ok fs'
  end.

(** [readPropertiesFile]. *)
Definition readPropertiesFile (filePath pid : string) (fs : FS)
    : result (list StringParameter) :=
  match ReadFile filePath fs with
  | None => Err "failed to read properties file"
  | Some data => Ok (parseProperties data pid)
  end.

(** [mergePropertiesFile]: [addedCount] and the file system. *)
Definition mergePropertiesFile (filePath : string)
    (newParams : list StringParameter) (fs : FS) : result (nat * FS) :=
  let loaded : result (gmap string string) :=
    if fileExists filePath fs then
      match ReadFile filePath fs with
      | None => Err "failed to read existing properties"
      | Some data => Ok (existingProperties data)
      end
    else Ok ∅ in
  match loaded with
  | Err e => Err e
  | Ok existing =>
      let '(existing, addedCount) := addNewProperties newParams (existing, 0) in
      match WriteFile filePath (mapContent existing) fs with
      | None => Err "failed to write properties file"
      | Some fs' => Ok (addedCount, fs')
      end
  end.

End Files.
End RepoFile.

(** *** The property codec, byte by byte *)
Module EscapeView.
Import GoStrings.

(** Every byte of [s] replaced by the text [f] gives for it. *)
Fixpoint expand (f : ascii -> string) (s : string) : string :=
  match s with
  | "" => ""
  | String c s' => f c +:+ expand f s'
  end.

Definition isBackslash (c : ascii) : bool := Ascii.eqb c "\".
Definition isLF (c : ascii) : bool := Ascii.eqb c (byte 10).
Definition isCR (c : ascii) : bool := Ascii.eqb c (byte 13).

(** What [escapePropertyValue] writes for one byte. *)
Definition escapeByte (c : ascii) : string :=
  if isBackslash c then "\\"
  else if isLF c then "\n"
  else if isCR c then "\r"
  else String c "".

(** The same after the first, and after the second, replacement of
    [unescapePropertyValue]. *)
Definition escapeByte1 (c : ascii) : string :=
  if isBackslash c then "\\"
  else if isCR c then "\r"
  else String c "".

Definition escapeByte2 (c : ascii) : string :=
  if isBackslash c then "\\" else String c "".

(** [v] holds no backslash followed by the letter [n] or [r]. *)
Definition noEscapeLookalike (v : string) : bool :=
  negb (Contains v "\n") && negb (Contains v "\r").

End EscapeView.

(** *** File names: the dots and slashes of a path *)
Module PathView.
Import GoStrings.

Definition isMark (c : ascii) : bool := Ascii.eqb c "." || Ascii.eqb c "/".

(** The dots and slashes of [s], in order. *)
Fixpoint marks (s : string) : list ascii :=
  match s with
  | "" => []
  | String c s' => if isMark c then c :: marks s' else marks s'
  end.

End PathView.

(** *** Parameters that a properties file holds as they are *)
Module PropertiesView.
Import GoStrings Repo RepoFile EscapeView.

(** The line of a parameter without its line feed. *)
Definition lineOf (p : StringParameter) : string :=
  sp_ID p +:+ "=" +:+ escapePropertyValue (sp_Value p).

(** A parameter of the partner [pid] that [readPropertiesFile] reads back as
    it was written: its ID has no [=] and no line feed and does not start
    with [#], its line neither starts nor ends with white space, and its
    value has no backslash followed by [n] or [r]. *)
Definition readable (pid : string) (p : StringParameter) : bool :=
  String.eqb (sp_Pid p) pid
  && negb (Contains (sp_ID p) "=")
  && negb (Contains (sp_ID p) LF)
  && negb (HasPrefix (sp_ID p) "#")
  && String.eqb (TrimSpace (lineOf p)) (lineOf p)
  && noEscapeLookalike (sp_Value p).

(** A sorting function in place of [sort.Slice]: merge sort by ID. *)
Definition idLe (a b : StringParameter) : Prop :=
  String.ltb (sp_ID b) (sp_ID a) = false.

#[global] Instance idLe_dec (a b : StringParameter) : Decision (idLe a b) :=
  bool_eq_dec _ _.

#[global] Instance mergeSliceSort : SliceSort := {|
  sortByID := merge_sort idLe
|}.

(** A parameter whose line the parser of [mergePropertiesFile] takes as it
    is: its ID has no [=] and no line feed and does not start with [#], and
    its line neither starts nor ends with white space. *)
Definition mergeable (p : StringParameter) : bool :=
  negb (Contains (sp_ID p) "=")
  && negb (Contains (sp_ID p) LF)
  && negb (HasPrefix (sp_ID p) "#")
  && String.eqb (TrimSpace (lineOf p)) (lineOf p).

(** A key and a raw value that form a line of one piece which the parser
    reads as this key and this value. *)
Definition keptAsIs (k v : string) : Prop :=
  parsePropertyLine (k +:+ "=" +:+ v) = Some (k, v)
  /\ Contains (k +:+ "=" +:+ v) LF = false.

(** The parameters of the partner [pid] that a map of keys and raw values
    stands for: one for each key, in the order of [sort.Strings], the value
    unescaped. *)
Definition parametersOf (pid : string) (m : gmap string string)
    : list StringParameter :=
  (fun k => mkStringParameter pid k (unescapePropertyValue (default "" (m !! k))))
    <$> GoStringsMore.sortStrings (elements (dom m)).

End PropertiesView.

(** ** The orchestrator command: filters and artifact types *)
Module OrchestratorArgs.
Import GoStrings Orchestrator.

(** [parseFilter]. *)
Definition parseFilter (filterStr : string) : list string :=
  if String.eqb filterStr "" then []
  else
    omap (fun part =>
            let trimmed := TrimSpace part in
            if negb (String.eqb trimmed "") then Some trimmed else None)
         (Split filterStr ",").

(** [mapArtifactType]: the cases of the [switch], in order. *)
Definition mapArtifactType (artifactType : string) : string :=
  let t := ToLower artifactType in
  if String.eqb t "integrationflow" || String.eqb t "integration flow"
     || String.eqb t "iflow" then "IntegrationDesigntimeArtifact"
  else if String.eqb t "valuemapping" || String.eqb t "value mapping"
  then "ValueMappingDesigntimeArtifact"
  else if String.eqb t "messageMapping" || String.eqb t "message mapping"
  then "MessageMappingDesigntimeArtifact"
  else if String.eqb t "scriptcollection" || String.eqb t "script collection"
  then "ScriptCollection"
  else "IntegrationDesigntimeArtifact".

End OrchestratorArgs.

(** ** internal/httpclnt/batch.go: requests in batches *)
Module BatchChunks.
Import GoStrings GoOS Batch.

Definition DefaultBatchSize : nat := 90.

(** [generateBoundary]: the package variable [boundaryCounter] is threaded
    through. *)
Definition generateBoundary (prefix : string) (boundaryCounter : nat)
    : string * nat :=
  (prefix +:+ decimal (S boundaryCounter), S boundaryCounter).

(** [NewBatchRequest]: the batch boundary is generated first. *)
Definition NewBatchRequest (boundaryCounter : nat) : BatchRequest * nat :=
  let '(batchBoundary, boundaryCounter) :=
    generateBoundary "batch_" boundaryCounter in
  let '(changesetBoundary, boundaryCounter) :=
    generateBoundary "changeset_" boundaryCounter in
  (mkBatchRequest [] batchBoundary changesetBoundary, boundaryCounter).

Section ExecuteInBatches.
Context `{HTTPExecuter}.

(** The loop of [ExecuteInBatches] from the index [i].  The index grows by
    [batchSize >= 1] in every round, so [len(allOps)] rounds are enough;
    [fuel] counts the rounds left. *)
Fixpoint batchLoop (fuel i batchSize : nat) (allOps : list BatchOperation)
    (allResponses : list BatchOperationResponse) (boundaryCounter : nat)
    (past : list event) : result BatchResponse * nat * list event :=
  match fuel with
  | 0 => (Ok (mkBatchResponse allResponses), boundaryCounter, past)
  | S fuel =>
      if (i <? length allOps)%nat then
        let end_ :=
          if (length allOps <? i + batchSize)%nat then length allOps
          else i + batchSize in
        let '(batch, boundaryCounter) := NewBatchRequest boundaryCounter in
        let batch :=
          mkBatchRequest (firstn (end_ - i) (skipn i allOps))
            (batchBoundary batch) (changesetBoundary batch) in
        match Execute batch past with
        | (Err e, past) =>
            (Err ("batch " +:+ decimal i +:+ "-" +:+ decimal end_
                  +:+ " failed: " +:+ e),
             boundaryCounter, past)
        | (Ok resp, past) =>
            batchLoop fuel (i + batchSize) batchSize allOps
              (allResponses ++ Operations resp) boundaryCounter past
        end
      else (Ok (mkBatchResponse allResponses), boundaryCounter, past)
  end.

(** [ExecuteInBatches]: the result, the counter and the events. *)
Definition ExecuteInBatches (br : BatchRequest) (batchSize : Z)
    (boundaryCounter : nat) (past : list event)
    : result BatchResponse * nat * list event :=
  let batchSize :=
    if (batchSize <=? 0)%Z then DefaultBatchSize else Z.to_nat batchSize in
  batchLoop (length (operations br)) 0 batchSize (operations br) []
    boundaryCounter past.

End ExecuteInBatches.

End BatchChunks.

(** ** internal/deploy/utils.go: [MergeParametersFile] *)
Module DeployParams.
Import GoStrings GoStringsMore GoOS Deploy.

(** The body of the loop over the lines of [parameters.prop]: the key and
    the value of a line, [None] for a line that is skipped. *)
Definition parseParameterLine (line : string) : option (string * string) :=
  let trimmed := TrimSpace line in
  if String.eqb trimmed "" || HasPrefix trimmed "#" then None
  else match SplitN trimmed "=" 2 with
       | [key; value] => Some (TrimSpace key, TrimSpace value)
       | _ => None
       end.

(** The loop over the lines: the map [params] and the list [paramKeys]. *)
Definition readParameterLines (lines : list string)
    (st : gmap string string * list string) : gmap string string * list string :=
  foldl (fun st line =>
           match parseParameterLine line with
           | Some (key, value) => (<[key := value]> st.1, st.2 ++ [key])
           | None => st
           end)
        st lines.

(** The loop over [overrides], a Go map: [overrides] lists its entries in
    the order the [range] statement visits them, each value as [%v] prints
    it.  The keys of a Go map are distinct. *)
Definition applyOverrides (overrides : list (string * string))
    (st : gmap string string * list string) : gmap string string * list string :=
  foldl (fun st kv =>
           (<[kv.1 := kv.2]> st.1,
            match st.1 !! kv.1 with
            | Some _ => st.2
            | None => st.2 ++ [kv.1]
            end))
        st overrides.

(** The lines [result]. *)
Definition parameterLines (st : gmap string string * list string) : list string :=
  (fun key => key +:+ "=" +:+ default "" (st.1 !! key)) <$> st.2.

(** The line ending and the state after the file is read. *)
Definition loadParameters (content : string)
    : string * (gmap string string * list string) :=
  let lineEnding := if Contains content CRLF then CRLF else LF in
  (lineEnding, readParameterLines (Split content lineEnding) (∅, [])).

Section Files.
Context {FS : Type} `{Platform FS}.

(** [MergeParametersFile]. *)
Definition MergeParametersFile (paramsPath : string)
    (overrides : list (string * string)) (outputPath : string) (fs : FS)
    : result FS :=
  let loaded : result (string * (gmap string string * list string)) :=
    if fileExists paramsPath fs then
      match ReadFile paramsPath fs with
      | None => Err "failed to read parameters.prop"
      | Some content => Ok (loadParameters content)
      end
    else Ok (LF, (∅, [])) in
  match loaded with
  | Err e => Err e
  | Ok (lineEnding, st) =>
      let st := applyOverrides overrides st in
      let finalContent := Join (parameterLines st) lineEnding in
      let finalContent :=
        if HasSuffix finalContent lineEnding then finalContent
        else finalContent +:+ lineEnding in
      match MkdirAll (filepathDir outputPath) fs with
      | None => Err "failed to create output directory"
      | Some fs1 =>
          match WriteFile outputPath finalContent fs1 with
          | None => Err "failed to write parameters.prop"
          | Some fs2 => Ok fs2
          end
      end
  end.

End Files.

End DeployParams.

(** *** Kinds of calls of the deploy command, and the size of a result *)
Module DeployEventsView.
Import GoOS Repo PDDeploy.

(** The two calls that read one record. *)
Definition isSingleGet (e : event) : bool :=
  match e with
  | EvGetStringParameter _ _ | EvGetBinaryParameter _ _ => true
  | _ => false
  end.

Definition isUpdate (e : event) : bool :=
  match e with
  | EvUpdateStringParameter _ | EvUpdateBinaryParameter _ => true
  | _ => false
  end.

(** The number of entries of a result. *)
Definition entries (r : BatchResult) : nat :=
  length (Created r) + length (Updated r) + length (Unchanged r)
  + length (Deleted r) + length (Errors r).

(** What the loop over a partner adds to the result: its parameters when
    they can be read, else one error. *)
Definition expected {A} (read : string -> result (list A)) (pid : string) : nat :=
  match read pid with
  | Ok parameters => length parameters
  | Err _ => 1
  end.

(** The partners a run goes through. *)
Definition selected (pids pidsFilter : list string) : list string :=
  if (0 <? length pidsFilter)%nat then filterPIDs pids pidsFilter else pids.

End DeployEventsView.

(** *** Phase 1 of the orchestrator: counting events *)
Module Phase1View.
Import GoStrings GoOS Models Cmd Orchestrator.

(** A synchroniser call that failed. *)
Definition isFailedSync (e : event) : bool :=
  match e with
  | EvArtifactSync _ _ _ _ _ _ (Some _) => true
  | _ => false
  end.

(** From every state, the value returned and the number of events that
    [cnt] selects satisfy [Q]. *)
Definition tallies {W E A : Type} (cnt : E -> bool) (Q : A -> nat -> Prop)
    (m : Cmd.M (W := W) (E := E) A) : Prop :=
  forall w, Q (m w).1.1 (length (List.filter cnt (m w).2)).

(** The statistics [st] with [n] filtered packages. *)
Definition setPackagesFiltered (n : nat) (st : ProcessingStats) : ProcessingStats :=
  mkProcessingStats (PackagesUpdated st) (PackagesDeployed st)
    (PackagesFailed st) n (ArtifactsTotal st)
    (ArtifactsDeployedSuccess st) (ArtifactsDeployedFailed st)
    (ArtifactsFiltered st) (UpdateFailures st) (DeployFailures st)
    (SuccessfulPackageUpdates st) (SuccessfulArtifactUpdates st)
    (SuccessfulArtifactDeploys st) (FailedPackageUpdates st)
    (FailedArtifactUpdates st) (FailedArtifactDeploys st).

(** The packages a filter leaves out. *)
Definition filteredOut (packageFilter : list string) (pkgs : list Package) : nat :=
  length (List.filter (fun pkg => negb (shouldInclude (ID pkg) packageFilter)) pkgs).

End Phase1View.

(** *** Texts without capital letters *)
Module CaseView.
Import GoStrings.

Fixpoint noUpper (s : string) : bool :=
  match s with
  | "" => true
  | String c s' => negb (isUpper c) && noUpper s'
  end.

End CaseView.

(** *** The batches of [ExecuteInBatches] one by one *)
Module BatchView.
Import GoStrings GoOS Batch.

(** The batch size in force. *)
Definition effectiveSize (batchSize : Z) : nat :=
  if (batchSize <=? 0)%Z then 90 else Z.to_nat batchSize.

(** The number of batches for [n] operations. *)
Definition batchCount (n size : nat) : nat := (n + size - 1) / size.

(** The operations of batch number [j]. *)
Definition chunkOps (size : nat) (allOps : list BatchOperation) (j : nat)
    : list BatchOperation :=
  firstn size (skipn (j * size) allOps).

(** The request object of batch number [j], when the counter stood at
    [boundaryCounter] before the first batch. *)
Definition chunkRequest (size : nat) (allOps : list BatchOperation)
    (boundaryCounter j : nat) : BatchRequest :=
  mkBatchRequest (chunkOps size allOps j)
    ("batch_" +:+ decimal (boundaryCounter + 2 * j + 1))
    ("changeset_" +:+ decimal (boundaryCounter + 2 * j + 2)).

(** The HTTP request [Execute] sends for a request object. *)
Definition httpRequestOf (br : BatchRequest) : HTTPRequest :=
  mkHTTPRequest "POST" "/api/v1/$batch" (buildBatchBody br)
    [("Content-Type", "multipart/mixed; boundary=" +:+ batchBoundary br);
     ("Accept", "multipart/mixed")].

(** The events of one batch. *)
Definition chunkEvents (size : nat) (allOps : list BatchOperation)
    (boundaryCounter j : nat) : list event :=
  let br := chunkRequest size allOps boundaryCounter j in
  [BodyBuilt (buildBatchBody br); RequestSent (httpRequestOf br)].

End BatchView.

(** ** A transport that accepts every batch *)
Module MemHTTPAccept.
Import GoStrings GoOS Batch.

(** Every request is answered with status 202, and the answer holds one
    operation response with status 204. *)
#[export] Instance acceptExecuter : HTTPExecuter := {|
  ExecRequestWithCookies := fun _ _ => Ok (mkHTTPResponse 202 "multipart/mixed" "");
  parseBatchResponse := fun _ =>
    Ok (mkBatchResponse [mkBatchOperationResponse "1" 204 [] "" None])
|}.

Definition deleteOp (id : string) : BatchOperation :=
  mkBatchOperation "DELETE"
    ("/api/v1/StringParameters(Pid='P1',Id='" +:+ id +:+ "')") "" "1"
    [("If-Match", "*")] false.

Definition threeDeletes : BatchRequest :=
  mkBatchRequest [deleteOp "a"; deleteOp "b"; deleteOp "c"] "batch_1" "changeset_2".

End MemHTTPAccept.

(** *** What [MergeParametersFile] reads from a file *)
Module ParamsView.
Import GoStrings GoOS.

(** The entries of the file, line by line. *)
Definition fileEntries (lines : list string) : list (string * string) :=
  omap DeployParams.parseParameterLine lines.

(** The value a key has after the file is read: the last one given. *)
Definition fileMap (entries : list (string * string)) : gmap string string :=
  foldl (fun m kv => <[kv.1 := kv.2]> m) ∅ entries.

(** The keys of the overrides that the file does not have. *)
Definition newKeys (m : gmap string string) (overrides : list (string * string))
    : list string :=
  List.filter (fun k => bool_decide (m !! k = None)) overrides.*1.

End ParamsView.

(** *** The lines [MergeParametersFile] writes, in closed form *)
Module MergedParamsView.
Import GoStrings GoOS DeployParams ParamsView.

(** The content read: that of the file, or nothing when there is no file. *)
Definition contentRead {FS : Type} `{Platform FS} (paramsPath : string) (fs : FS)
    : string :=
  if fileExists paramsPath fs then default "" (ReadFile paramsPath fs) else "".

(** The keys of the file in the order of its lines, then the new keys of the
    overrides; each with the override for it, or else the last value the
    file gives it. *)
Definition mergedLines (content : string) (overrides : list (string * string))
    : list string :=
  let entries := fileEntries (Split content (Deploy.lineEndingOf content)) in
  let values : gmap string string := list_to_map overrides ∪ fileMap entries in
  (fun key => key +:+ "=" +:+ default "" (values !! key))
    <$> (entries.*1 ++ newKeys (fileMap entries) overrides).

(** [s] with the line ending [le] added unless it ends with it. *)
Definition terminated (s le : string) : string :=
  if HasSuffix s le then s else s +:+ le.

End MergedParamsView.

(** *** Concrete inputs for the properties files and the deploy command *)
Module Scenarios2.
Import GoStrings GoOS Repo Models Deploy.

(** Two string parameters of partner [P1]; the second value has two
    lines. *)
Definition paramB : StringParameter := mkStringParameter "P1" "b" "x=1".
Definition paramA : StringParameter :=
  mkStringParameter "P1" "a" ("line1" +:+ LF +:+ "line2").

Definition propertiesPath : string := "pd/P1/String.properties".

(** A properties file with a comment, and a file system that holds it. *)
Definition propertiesOld : string :=
  "# local values" +:+ LF +:+ "a=kept" +:+ LF.

Definition filesOld : gmap string string := {[ propertiesPath := propertiesOld ]}.

(** A [parameters.prop] with a comment and a key given twice. *)
Definition parametersProp : string :=
  "# settings" +:+ LF +:+ "host = old" +:+ LF +:+ "port=1" +:+ LF
  +:+ "host=older" +:+ LF.

Definition filesParams : gmap string string :=
  {[ "parameters.prop" := parametersProp ]}.

End Scenarios2.

(** ** internal/repo/partnerdirectory.go: reading the local tree *)
Module RepoRead.
Import GoStrings GoStringsMore GoOS Repo RepoFile.

Definition stringPropertiesFile : string := "String.properties".
Definition binaryDirName : string := "Binary".

(** [os.DirEntry]: the name of an entry and whether it is a directory. *)
Record DirEntry := mkDirEntry { Name : string; IsDir : bool }.

(** What [os.ReadDir] returns: the entries of the directory, sorted by file
    name; or an error, of which the code asks whether it is
    [os.IsNotExist]. *)
Inductive ReadDirResult :=
  | Entries (entries : list DirEntry)
  | NotExist
  | ReadDirFailed (msg : string).

(** Listing a directory, [filepath.Join] of several elements and
    [base64.StdEncoding.EncodeToString], besides what [Platform] has. *)
Class Tree (FS : Type) := {
  ReadDir : string -> FS -> ReadDirResult;
  filepathJoinN : list string -> string;
  base64Encode : string -> string
}.

Section Read.
Context {FS : Type} `{Platform FS} `{Tree FS}.

(** [GetLocalPIDs]. *)
Definition GetLocalPIDs (resourcesPath : string) (fs : FS)
    : result (list string) :=
  match ReadDir resourcesPath fs with
  | NotExist => Ok []
  | ReadDirFailed e => Err ("failed to read resources directory: " +:+ e)
  | Entries entries => Ok (sortStrings (Name <$> List.filter IsDir entries))
  end.

(** [ReadStringParameters]. *)
Definition ReadStringParameters (resourcesPath pid : string) (fs : FS)
    : result (list StringParameter) :=
  let propertiesFile := filepathJoinN [resourcesPath; pid; stringPropertiesFile] in
  if negb (fileExists propertiesFile fs) then Ok []
  else readPropertiesFile propertiesFile pid fs.

(** The body of the loop of [ReadBinaryParameters] over the entries of the
    binary directory: the parameters read so far and the map
    [seenParams]. *)
Definition readBinaryEntry (pid binaryDir : string)
    (metadata : gmap string string) (fs : FS)
    (st : list BinaryParameter * gset string) (entry : DirEntry)
    : list BinaryParameter * gset string :=
  if IsDir entry || String.eqb (Name entry) metadataFileName then st
  else
    let filePath := filepathJoin binaryDir (Name entry) in
    let paramID := removeFileExtension (Name entry) in
    if bool_decide (paramID ∈ st.2) then st
    else
      let seenParams := {[paramID]} ∪ st.2 in
      match ReadFile filePath fs with
      | None => (st.1, seenParams)
      | Some data =>
          let encoded := base64Encode data in
          let contentType := default "" (metadata !! Name entry) in
          let contentType :=
            if String.eqb contentType "" then
              let ext := TrimPrefix (Ext (Name entry)) "." in
              if String.eqb ext "" then defaultBinaryExt else ext
            else contentType in
          (st.1 ++ [mkBinaryParameter pid paramID encoded contentType],
           seenParams)
      end.

(** [ReadBinaryParameters]. *)
Definition ReadBinaryParameters (resourcesPath pid : string) (fs : FS)
    : result (list BinaryParameter) :=
  let binaryDir := filepathJoinN [resourcesPath; pid; binaryDirName] in
  if negb (dirExists binaryDir fs) then Ok []
  else
    let metadataPath := filepathJoin binaryDir metadataFileName in
    let loaded : result (gmap string string) :=
      if fileExists metadataPath fs then
        match ReadFile metadataPath fs with
        | None => Err "failed to read metadata file"
        | Some data =>
            match jsonUnmarshal data with
            | None => Err "failed to parse metadata"
            | Some m => Ok m
            end
        end
      else Ok ∅ in
    match loaded with
    | Err e => Err e
    | Ok metadata =>
        match ReadDir binaryDir fs with
        | Entries entries =>
            Ok (foldl (readBinaryEntry pid binaryDir metadata fs) ([], ∅)
                      entries).1
        | NotExist => Err "failed to read binary directory"
        | ReadDirFailed e => Err ("failed to read binary directory: " +:+ e)
        end
    end.

(** The repository the deploy command reads: the three functions on the
    tree under [resourcesPath].  The command writes no local file, so they
    see the same tree at every call. *)
Definition localRepo (resourcesPath : string) (fs : FS) : PDDeploy.LocalRepo :=
  PDDeploy.mkLocalRepo (GetLocalPIDs resourcesPath fs)
    (fun pid => ReadStringParameters resourcesPath pid fs)
    (fun pid => ReadBinaryParameters resourcesPath pid fs).

End Read.

End RepoRead.

(** *** The local files that stand for a parameter *)
Module RepoReadView.
Import GoStrings GoStringsMore GoOS Repo RepoFile RepoRead.

(** An entry of the binary directory that the reader takes for the
    parameter [id]: a file, not the metadata file, whose name without its
    extension is [id]. *)
Definition fileFor (id : string) (entry : DirEntry) : bool :=
  negb (IsDir entry || String.eqb (Name entry) metadataFileName)
  && String.eqb (removeFileExtension (Name entry)) id.

Section View.
Context {FS : Type} `{Platform FS} `{Tree FS}.

(** The partner [pid] has a directory under [resourcesPath]. *)
Definition isLocalPID (resourcesPath : string) (fs : FS) (pid : string) : Prop :=
  exists entries,
    ReadDir resourcesPath fs = Entries entries /\ mkDirEntry pid true ∈ entries.

Definition propertiesFileOf (resourcesPath pid : string) : string :=
  filepathJoinN [resourcesPath; pid; stringPropertiesFile].

Definition binaryDirOf (resourcesPath pid : string) : string :=
  filepathJoinN [resourcesPath; pid; binaryDirName].

(** The properties file of the partner, when there is one, has no line with
    the key [id]. *)
Definition noStringLine (resourcesPath : string) (fs : FS) (pid id : string)
    : Prop :=
  forall data line v,
    fileExists (propertiesFileOf resourcesPath pid) fs = true ->
    ReadFile (propertiesFileOf resourcesPath pid) fs = Some data ->
    line ∈ Split data LF -> parsePropertyLine line <> Some (id, v).

(** The first file of the binary directory of the partner that stands for
    [id], when there is one, cannot be read. *)
Definition noBinaryFile (resourcesPath : string) (fs : FS) (pid id : string)
    : Prop :=
  forall entries entry,
    dirExists (binaryDirOf resourcesPath pid) fs = true ->
    ReadDir (binaryDirOf resourcesPath pid) fs = Entries entries ->
    List.find (fileFor id) entries = Some entry ->
    ReadFile (filepathJoin (binaryDirOf resourcesPath pid) (Name entry)) fs
    = None.

End View.

End RepoReadView.

(** ** A tree of files in memory *)
Module MemTree.
Import GoOS RepoRead.

Record tree := mkTree {
  files : gmap string string;
  dirs : gmap string (list DirEntry)
}.

(** JSON is read only as far as the empty object. *)
#[global] Instance treePlatform : Platform tree := {|
  fileExists p t := bool_decide (is_Some (files t !! p));
  dirExists p t := bool_decide (is_Some (dirs t !! p));
  ReadFile p t := files t !! p;
  WriteFile p data t := Some (mkTree (<[p := data]> (files t)) (dirs t));
  MkdirAll _ t := Some t;
  filepathJoin a b := a +:+ "/" +:+ b;
  filepathDir p := p;
  base64Decode s := Some s;
  jsonUnmarshal s := if String.eqb s "{}" then Some ∅ else None;
  jsonMarshalIndent _ := Some "{}"
|}.

#[global] Instance treeListing : Tree tree := {|
  ReadDir p t :=
    match dirs t !! p with
    | Some entries => Entries entries
    | None => NotExist
    end;
  filepathJoinN l := GoStrings.Join l "/";
  base64Encode s := s
|}.

End MemTree.

Module ScenariosTree.
Import GoStrings GoOS Repo RepoRead MemTree.

(** S5 on files: partner [P1] holds [s1] in its properties file. *)
Definition treeS5 : tree :=
  mkTree {[ "pd/P1/String.properties" := "s1=v1" +:+ LF ]}
         {[ "pd" := [mkDirEntry "P1" true] ]}.

(** Partner [P1] holds the binary parameter [b] in the file [b.xml]; its
    metadata file is not JSON. *)
Definition treeBroken : tree :=
  mkTree (<[ "pd/P1/Binary/_metadata.json" := "{" ]>
            {[ "pd/P1/Binary/b.xml" := "<a/>" ]})
         (<[ "pd" := [mkDirEntry "P1" true] ]>
            {[ "pd/P1/Binary" := [mkDirEntry "_metadata.json" false;
                                  mkDirEntry "b.xml" false] ]}).

Definition tenantBroken : MemTenant.tenant :=
  MemTenant.mkTenant [] [mkBinaryParameter "P1" "b" "<a/>" "xml"].

(** Partner [P1] holds the binary parameter [cert.xml], of content type
    [xml], in the file [cert.xml]. *)
Definition treeCert : tree :=
  mkTree {[ "pd/P1/Binary/cert.xml" := "<c/>" ]}
         (<[ "pd" := [mkDirEntry "P1" true] ]>
            {[ "pd/P1/Binary" := [mkDirEntry "cert.xml" false] ]}).

Definition tenantCert : MemTenant.tenant :=
  MemTenant.mkTenant [] [mkBinaryParameter "P1" "cert.xml" "<c/>" "xml"].

End ScenariosTree.

(** * Properties *)

Module RepoTests.
Import GoStrings Repo.

(** The cases of [TestEscapeUnescapePropertyValue]. *)
Example escape_newline :
  escapePropertyValue ("line1" +:+ LF +:+ "line2") = "line1\nline2".
Proof. vm_compute. reflexivity. Qed.

Example escape_backslash :
  escapePropertyValue "path\to\file" = "path\\to\\file".
Proof. vm_compute. reflexivity. Qed.

Example roundtrip_all_special :
  let v := "line1" +:+ LF +:+ "line2" +:+ CR +:+ "line3\backslash" in
  unescapePropertyValue (escapePropertyValue v) = v.
Proof. vm_compute. reflexivity. Qed.

End RepoTests.

(** C1 (the code departs from the claim): the value made of a backslash
    followed by the letter n is escaped to two backslashes and an n; reading
    it back replaces the last two bytes by a line feed first, so the result is
    a backslash followed by a line feed, not the value written. *)
Theorem C1_unescape_escape_backslash_n :
  Repo.escapePropertyValue "\n" = "\\n" /\
  Repo.unescapePropertyValue (Repo.escapePropertyValue "\n")
    = GoStrings.BACKSLASH +:+ GoStrings.LF /\
  Repo.unescapePropertyValue (Repo.escapePropertyValue "\n") <> "\n".
Proof. vm_compute. repeat split; try reflexivity. discriminate. Qed.

(** ** Facts about the string functions *)
Module GoStringsFacts.
Import GoStrings Repo Repo.SpecAlgorithm.

Lemma sapp_nil_l (s : string) : "" +:+ s = s.
Proof. reflexivity. Qed.

Lemma sapp_cons (c : ascii) (s t : string) :
  String c s +:+ t = String c (s +:+ t).
Proof. reflexivity. Qed.

Lemma sapp_nil_r (s : string) : s +:+ "" = s.
Proof.
  induction s as [|c s IH]; [reflexivity | now rewrite sapp_cons, IH].
Qed.

Lemma sapp_assoc (a b c : string) : (a +:+ b) +:+ c = a +:+ (b +:+ c).
Proof.
  induction a as [|x a IH]; [reflexivity | now rewrite !sapp_cons, IH].
Qed.

Lemma rev_snoc (s : string) (c : ascii) :
  rev (s +:+ String c "") = String c (rev s).
Proof.
  induction s as [|x s IH]; [reflexivity |].
  rewrite sapp_cons. cbn [rev]. now rewrite IH, sapp_cons.
Qed.

Lemma rev_involutive (s : string) : rev (rev s) = s.
Proof.
  induction s as [|c s IH]; [reflexivity |].
  cbn [rev]. now rewrite rev_snoc, IH.
Qed.

Lemma HasPrefix_byte (c : ascii) (s : string) :
  HasPrefix s (String c "") =
  match s with "" => false | String a _ => Ascii.eqb a c end.
Proof. destruct s as [|a s]; simpl; [reflexivity | now destruct (Ascii.eqb a c)]. Qed.

Lemma Contains_byte (c : ascii) (s : string) :
  Contains s (String c "") = hasByte c s.
Proof.
  induction s as [|a s IH]; [reflexivity |].
  cbn [Contains hasByte]. now rewrite HasPrefix_byte, IH.
Qed.

(** [Index] on a one-byte separator: it finds the separator exactly when it
    occurs, and the bytes before the offset are the text before it. *)
Lemma Index_byte_None (c : ascii) (s : string) :
  Index s (String c "") = None <-> hasByte c s = false.
Proof.
  induction s as [|a s IH]; [cbn; tauto |].
  cbn [Index hasByte]. rewrite HasPrefix_byte.
  destruct (Ascii.eqb a c); cbn; [split; discriminate |].
  destruct (Index s (String c "")); cbn in *; split; intros E;
    try discriminate; try (apply IH in E; discriminate); tauto.
Qed.

Lemma Index_byte_Some (c : ascii) (s : string) (n : nat) :
  Index s (String c "") = Some n ->
  hasByte c s = true /\ take n s = beforeFirst c s.
Proof.
  revert n. induction s as [|a s IH]; intros n; [cbn; discriminate |].
  cbn [Index hasByte beforeFirst]. rewrite HasPrefix_byte.
  destruct (Ascii.eqb a c); cbn.
  - intros [= <-]. split; reflexivity.
  - destruct (Index s (String c "")) as [m|]; cbn; [|discriminate].
    intros [= <-]. destruct (IH m eq_refl) as [-> E]. cbn. now rewrite E.
Qed.

(** [Split] on a one-byte separator. *)
Lemma split_go_nonempty (k : nat) (sep cur s : string) :
  split_go k sep cur s <> [].
Proof.
  revert k cur. induction s as [|a s IH]; intros k cur; cbn; [discriminate |].
  destruct k; [|apply IH]. destruct (HasPrefix _ _); [discriminate | apply IH].
Qed.

Lemma split_go_byte_absent (c : ascii) (cur s : string) :
  hasByte c s = false ->
  split_go 0 (String c "") cur s = [rev cur +:+ s].
Proof.
  revert cur. induction s as [|a s IH]; intros cur; cbn [hasByte split_go].
  - now rewrite sapp_nil_r.
  - rewrite HasPrefix_byte. destruct (Ascii.eqb a c); cbn; [discriminate |].
    intros E. rewrite (IH _ E). cbn [rev]. now rewrite sapp_assoc.
Qed.

Lemma split_go_byte_present (c : ascii) (cur s : string) :
  hasByte c s = true ->
  split_go 0 (String c "") cur s =
  (rev cur +:+ beforeFirst c s) :: split_go 0 (String c "") "" (afterFirst c s).
Proof.
  revert cur.
  induction s as [|a s IH]; intros cur;
    cbn [hasByte split_go beforeFirst afterFirst]; [discriminate |].
  rewrite HasPrefix_byte. destruct (Ascii.eqb a c); cbn.
  - intros _. now rewrite sapp_nil_r.
  - intros E. rewrite (IH _ E). cbn [rev]. now rewrite sapp_assoc.
Qed.

(** Lower-casing neither removes nor introduces a [/]: the bytes passed
    over after a two- or three-byte rune are never a [/]. *)
Lemma lowerByte_slash (c : ascii) :
  Ascii.eqb (lowerByte c) "/" = Ascii.eqb c "/".
Proof. destruct c as [[] [] [] [] [] [] [] []]; reflexivity. Qed.

Lemma HasPrefix_cons_inv (s : string) (p : ascii) (ps : string) :
  HasPrefix s (String p ps) = true ->
  exists s', s = String p s' /\ HasPrefix s' ps = true.
Proof.
  destruct s as [|a s]; cbn; [discriminate |].
  destruct (Ascii.eqb_spec a p) as [->|]; [eauto | discriminate].
Qed.

Lemma lower_go_slash (s : string) (k : nat) :
  hasByte "/" (take k s) = false ->
  hasByte "/" (lower_go k s) = hasByte "/" s.
Proof.
  revert k. induction s as [|c s IH]; intros k; [destruct k; reflexivity |].
  destruct k as [|k].
  - intros _. cbn [lower_go].
    destruct (HasPrefix (String c s) capitalIWithDot) eqn:E1.
    { apply HasPrefix_cons_inv in E1 as (s1 & [= -> ->] & E1).
      apply HasPrefix_cons_inv in E1 as (s2 & -> & _).
      cbn [hasByte]. rewrite (IH 1) by reflexivity. reflexivity. }
    destruct (HasPrefix (String c s) kelvinSign) eqn:E2.
    { apply HasPrefix_cons_inv in E2 as (s1 & [= -> ->] & E2).
      apply HasPrefix_cons_inv in E2 as (s2 & -> & E2).
      apply HasPrefix_cons_inv in E2 as (s3 & -> & _).
      cbn [hasByte]. rewrite (IH 2) by reflexivity. reflexivity. }
    cbn [hasByte]. rewrite lowerByte_slash, (IH 0) by reflexivity. reflexivity.
  - cbn [take hasByte lower_go]. intros E.
    apply orb_false_iff in E as [-> E]. now rewrite (IH k E).
Qed.

Lemma ToLower_slash (s : string) : hasByte "/" (ToLower s) = hasByte "/" s.
Proof. apply lower_go_slash. reflexivity. Qed.

Lemma isAlphanumeric_slash (s : string) :
  hasByte "/" s = true -> isAlphanumeric s = false.
Proof.
  induction s as [|c s IH]; cbn; [discriminate |].
  destruct (Ascii.eqb_spec c "/") as [->|]; [reflexivity |].
  cbn. intros E. rewrite (IH E). now destruct (isAlnumByte c).
Qed.

Lemma recognized_no_slash (s : string) :
  s ∈ recognized -> hasByte "/" s = false.
Proof.
  unfold recognized. rewrite !elem_of_cons, elem_of_nil.
  intros H; repeat (destruct H as [-> | H]; [reflexivity |]). destruct H.
Qed.

Lemma Contains_here (s t : string) : Contains (s +:+ t) s = true.
Proof.
  assert (Hp : HasPrefix (s +:+ t) s = true).
  { induction s as [|c s IH]; [reflexivity |].
    rewrite sapp_cons. cbn. now rewrite Ascii.eqb_refl. }
  destruct (s +:+ t); cbn [Contains]; now rewrite Hp.
Qed.

Lemma Contains_app_r (a t s : string) :
  Contains t s = true -> Contains (a +:+ t) s = true.
Proof.
  intros E. induction a as [|c a IH]; [assumption |].
  rewrite sapp_cons. cbn [Contains]. rewrite IH. apply orb_true_r.
Qed.

End GoStringsFacts.

(** ** The content-type resolver *)
Module RepoFacts.
Import GoStrings Repo Repo.SpecAlgorithm GoStringsFacts.

(** The Go map and the list of recognized extensions hold the same keys. *)
Lemma lookup_true_keys (l : list string) (k : string) :
  default false
    ((list_to_map ((λ x, (x, true)) <$> l) : gmap string bool) !! k)
  = bool_decide (k ∈ l).
Proof.
  induction l as [|x l IH]; [reflexivity |].
  cbn [fmap list_fmap list_to_map foldr]. rewrite lookup_insert.
  cbn [fst snd]. destruct (decide (x = k)) as [->|Hne].
  - cbn. symmetry. apply bool_decide_eq_true_2. left.
  - rewrite IH. apply bool_decide_ext. rewrite elem_of_cons.
    split; [by right | intros [->|?]; [congruence | done]].
Qed.

Lemma isValidContentType_recognized (ext : string) :
  isValidContentType ext = bool_decide (ToLower ext ∈ recognized).
Proof. apply (lookup_true_keys recognized). Qed.

(** The base type the code computes. *)
Lemma baseType_amended (ct : string) :
  match Index ct ";" with
  | Some (S i) => TrimSpace (take (S i) ct)
  | _ => ct
  end = amendedBaseType ct.
Proof.
  unfold amendedBaseType. rewrite HasPrefix_byte.
  destruct (Index ct ";") as [[|i]|] eqn:E.
  - destruct ct as [|a s]; [discriminate |].
    cbn [Index] in E. rewrite HasPrefix_byte in E.
    destruct (Ascii.eqb a ";"); [reflexivity |].
    destruct (Index s ";"); discriminate.
  - destruct (Index_byte_Some _ _ _ E) as [Hin ->]. rewrite Hin.
    destruct ct as [|a s]; [discriminate |].
    cbn [Index] in E. rewrite HasPrefix_byte in E.
    destruct (Ascii.eqb a ";"); [discriminate | reflexivity].
  - apply Index_byte_None in E. rewrite E.
    destruct ct as [|a s]; [reflexivity |].
    cbn in E. apply orb_false_iff in E as [-> _]. reflexivity.
Qed.

(** The last step of [getFileExtension] is the specification's acceptance
    rule on the lower-cased candidate. *)
Lemma accept_code (ext : string) :
  (if isValidContentType ext then ext
   else if negb (String.eqb ext "") && (2 <=? String.length ext)%nat
           && (String.length ext <=? 5)%nat && isAlphanumeric ext
   then ext
   else defaultBinaryExt)
  = accept (fun c => bool_decide (ToLower c ∈ recognized)) ext.
Proof.
  unfold accept. rewrite isValidContentType_recognized.
  destruct (bool_decide _); [reflexivity |].
  destruct (String.eqb_spec ext "") as [->|_]; [reflexivity |].
  cbn [negb andb].
  destruct (2 <=? String.length ext)%nat, (String.length ext <=? 5)%nat,
    (isAlphanumeric ext); reflexivity.
Qed.

Lemma accept_slash (ext : string) :
  hasByte "/" ext = true ->
  accept (fun c => bool_decide (ToLower c ∈ recognized)) ext = "bin".
Proof.
  intros E. unfold accept.
  rewrite (isAlphanumeric_slash _ E). cbn [andb].
  destruct (bool_decide_reflect (ToLower ext ∈ recognized)) as [Hin|];
    [|reflexivity].
  apply recognized_no_slash in Hin. rewrite ToLower_slash in Hin. congruence.
Qed.

(** The candidate the code extracts from a base type agrees with the
    specification's, up to the acceptance rule. *)
Lemma candidate_code (baseType ct : string) :
  let ext :=
    fst (if Contains baseType "/" then
           match Split baseType "/" with
           | [_; ext] =>
               if String.eqb ext "octet-stream" then (defaultBinaryExt, ct)
               else (ext, ct)
           | _ => (baseType, ct)
           end
         else (baseType, ct)) in
  accept (fun c => bool_decide (ToLower c ∈ recognized)) ext
  = accept (fun c => bool_decide (ToLower c ∈ recognized)) (candidate baseType).
Proof.
  cbv zeta. unfold candidate, Split, defaultBinaryExt.
  rewrite Contains_byte.
  destruct (hasByte "/" baseType) eqn:E1; [|reflexivity].
  rewrite (split_go_byte_present _ _ _ E1). cbn [rev]. rewrite ?sapp_nil_l.
  destruct (hasByte "/" (afterFirst "/" baseType)) eqn:E2.
  - rewrite (split_go_byte_present _ _ _ E2).
    pose proof (split_go_nonempty 0 "/" ""
                  (afterFirst "/" (afterFirst "/" baseType))) as Hne.
    destruct (split_go 0 "/" "" _) as [|x l]; [congruence |].
    cbn [fst].
    destruct (String.eqb_spec (afterFirst "/" baseType) "octet-stream")
      as [Heq|_].
    + rewrite Heq in E2. discriminate.
    + now rewrite !accept_slash.
  - rewrite (split_go_byte_absent _ _ _ E2). cbn [rev]. rewrite ?sapp_nil_l.
    now destruct (String.eqb _ "octet-stream").
Qed.

End RepoFacts.

(** C8 (counterexample to the claim as stated): for the content type
    [xml ;a] the code trims the blank before the semicolon and resolves to
    [xml], whereas the algorithm of the specification takes the untrimmed
    text [xml ], which is not alphanumeric, and resolves to [bin]. *)
Lemma C8_counterexample :
  Repo.getFileExtension "xml ;a" = "xml" /\
  Repo.SpecAlgorithm.resolveExtension "xml ;a" = "bin" /\
  Repo.getFileExtension "xml ;a" <> Repo.SpecAlgorithm.resolveExtension "xml ;a".
Proof. vm_compute. repeat split; try reflexivity. discriminate. Qed.

(** C8 (amended): for every content-type string, [getFileExtension] returns
    the result of the specification's algorithm amended in three points: the
    base type is the text before the first semicolon with the white space
    around it trimmed, unless the string starts with a semicolon or has none,
    in which case it is the whole string; and a candidate is recognized when
    its lower-case form is in the recognized set. *)
Theorem C8_getFileExtension_amended (ct : string) :
  Repo.getFileExtension ct = Repo.SpecAlgorithm.resolveExtensionAmended ct.
Proof.
  unfold Repo.getFileExtension, Repo.parseContentType,
    Repo.SpecAlgorithm.resolveExtensionAmended.
  rewrite RepoFacts.baseType_amended, RepoFacts.accept_code.
  apply RepoFacts.candidate_code.
Qed.

(** C9 (the code departs from the claim): the parameter ID [cert.XML] with
    content type [XML] already ends with a dot and the resolved extension
    [XML]; the code lower-cases the ID but not the extension before it
    compares them, finds no match and appends the extension again. *)
Theorem C9_doubled_extension :
  Repo.getFileExtension "XML" = "XML" /\
  GoStrings.HasSuffix "cert.XML" ("." +:+ Repo.getFileExtension "XML") = true /\
  Repo.binaryFileName "cert.XML" "XML" = "cert.XML.XML".
Proof. vm_compute. repeat split; reflexivity. Qed.

(** ** Merging deployment configurations *)
Module MergeFacts.
Import GoStrings GoOS Models Deploy MergeView GoStringsFacts.

Lemma mergeEntries_app (a b : list entry) (st : mergeState) :
  mergeEntries (a ++ b) st =
  match mergeEntries a st with
  | (st', Some e) => (st', Some e)
  | (st', None) => mergeEntries b st'
  end.
Proof.
  revert st. induction a as [|[[P f] p] a IH]; intros st; [reflexivity |].
  cbn. destruct (mergePackage P f p st); [apply IH | reflexivity].
Qed.

Lemma mergePackages_entries (P f : string) (pkgs : list Package) (st : mergeState) :
  mergePackages P f pkgs st = mergeEntries ((fun p => (P, f, p)) <$> pkgs) st.
Proof.
  revert st. induction pkgs as [|p pkgs IH]; intros st; [reflexivity |].
  cbn. destruct (mergePackage P f p st); [apply IH | reflexivity].
Qed.

Lemma mergeAll_entries (configs : list DeployConfigFile) (st : mergeState) :
  mergeAll configs st = mergeEntries (entries configs) st.
Proof.
  revert st. induction configs as [|cf configs IH]; intros st; [reflexivity |].
  unfold entries. rewrite bind_cons, mergeEntries_app.
  cbn [mergeAll]. rewrite mergePackages_entries.
  destruct (mergeEntries _ st) as [st' [e|]]; [reflexivity | apply IH].
Qed.

(** The fully qualified ID computed by the code is the prefix followed by
    the ID, also when the prefix is empty. *)
Lemma fullyQualifiedID_eq (P id : string) :
  (if String.eqb P "" then id else P +:+ "" +:+ id) = P +:+ id.
Proof. destruct (String.eqb_spec P "") as [->|]; reflexivity. Qed.

(** *** Duplicates *)

Lemma mergeEntries_firstDup (es : list entry) (st : mergeState) :
  (mergeEntries es st).2 =
  (fun r => duplicateError r.1.1 r.1.2 r.2)
    <$> firstDup (ms_packageMap st) (keyed es).
Proof.
  revert st. induction es as [|[[P f] p] es IH]; intros st; [reflexivity |].
  cbn [mergeEntries keyed fmap list_fmap firstDup].
  unfold mergePackage, fqid, source. cbn [fst snd].
  rewrite fullyQualifiedID_eq.
  destruct (ms_packageMap st !! (P +:+ ID p)) as [f0|]; [reflexivity |].
  rewrite IH. reflexivity.
Qed.

Lemma firstDup_app (seen : gmap string string) (l1 l2 : list (string * string)) r :
  firstDup seen l1 = Some r -> firstDup seen (l1 ++ l2) = Some r.
Proof.
  revert seen. induction l1 as [|[k f] l1 IH]; intros seen; cbn; [discriminate |].
  destruct (seen !! k); [tauto | apply IH].
Qed.

(** With [seen] holding exactly the keys of the entries [pre] already
    visited, a key that occurs twice in [pre ++ l] makes [firstDup] report a
    key and the files of two entries that carry it. *)
Lemma firstDup_finds (pre l : list (string * string)) (seen : gmap string string) :
  (forall k f0, seen !! k = Some f0 <-> (k, f0) ∈ pre) ->
  NoDup pre.*1 ->
  ~ NoDup (pre ++ l).*1 ->
  exists i j k f f0,
    firstDup seen l = Some (k, f, f0) /\ i < j /\
    (pre ++ l) !! i = Some (k, f0) /\ (pre ++ l) !! j = Some (k, f).
Proof.
  revert pre seen. induction l as [|[k f] l IH]; intros pre seen Hseen Hnd Hdup.
  - rewrite app_nil_r in Hdup. contradiction.
  - cbn [firstDup]. destruct (seen !! k) as [f0|] eqn:Hk.
    + apply Hseen in Hk. apply list_elem_of_lookup in Hk as [i Hi].
      exists i, (length pre), k, f, f0. split; [reflexivity |].
      split; [eapply lookup_lt_Some; eassumption |]. split.
      * rewrite lookup_app_l; [assumption | eapply lookup_lt_Some; eassumption].
      * now rewrite list_lookup_middle.
    + destruct (IH (pre ++ [(k, f)]) (<[k := f]> seen)) as (i & j & k' & f' & f0' & H).
      * intros k1 f1. rewrite elem_of_app, list_elem_of_singleton, <- Hseen.
        destruct (decide (k = k1)) as [->|Hne].
        -- rewrite lookup_insert_eq, Hk.
           split; [intros [= ->]; now right | intros [?|[= ->]]; done].
        -- rewrite lookup_insert_ne by assumption.
           split; [now left | intros [?|[= -> ->]]; [done | congruence]].
      * rewrite fmap_app. apply NoDup_app. split; [assumption |]. split.
        -- intros x Hx. cbn. rewrite list_elem_of_singleton. intros ->.
           apply list_elem_of_fmap in Hx as ([k1 f1] & Heq & Hin). cbn in Heq. subst k1.
           apply Hseen in Hin. congruence.
        -- cbn. apply NoDup_singleton.
      * now rewrite <- app_assoc.
      * rewrite <- app_assoc in H. cbn in H. eauto 10.
Qed.

(** *** Prefixes written to the artifact cells *)

Lemma mergeEntries_success (es : list entry) (st st' : mergeState) :
  mergeEntries es st = (st', None) ->
  ms_merged st' = ms_merged st ++ (mergedPackage <$> es) /\
  ms_heap st' = foldl applyEntry (ms_heap st) es.
Proof.
  revert st. induction es as [|[[P f] p] es IH]; intros st; cbn [mergeEntries].
  - intros [= <-]. now rewrite app_nil_r.
  - unfold mergePackage. rewrite fullyQualifiedID_eq.
    destruct (ms_packageMap st !! (P +:+ ID p)); [discriminate |].
    intros E. apply IH in E as [-> ->]. cbn [ms_merged ms_heap foldl fmap list_fmap].
    unfold applyEntry, mergedPackage. cbn [fst snd].
    rewrite <- app_assoc. destruct (String.eqb P ""); split; reflexivity.
Qed.

Lemma alter_all_lookup (f : Artifact -> Artifact) (cs : list nat) (h : heap) (c : nat) :
  NoDup cs ->
  foldl (fun h c => alter f c h) h cs !! c =
  if decide (c ∈ cs) then f <$> h !! c else h !! c.
Proof.
  revert h. induction cs as [|x cs IH]; intros h Hnd; cbn [foldl].
  - now rewrite decide_False by apply not_elem_of_nil.
  - apply NoDup_cons in Hnd as [Hx Hnd]. rewrite (IH _ Hnd), !lookup_alter.
    destruct (decide (x = c)) as [->|Hne].
    + rewrite decide_False by assumption.
      now rewrite decide_True by apply list_elem_of_here.
    + destruct (decide (c ∈ cs)) as [Hin|Hout].
      * now rewrite decide_True by (right; assumption).
      * rewrite decide_False; [reflexivity |].
        rewrite elem_of_cons.
        intros [E|E]; [apply Hne; now symmetry | exact (Hout E)].
Qed.

Lemma applyEntry_lookup (h : heap) (e : entry) (c : nat) :
  applyEntry h e !! c =
  if decide (e.1.1 <> "" /\ c ∈ cells (Artifacts e.2))
  then prefixed e.1.1 <$> h !! c else h !! c.
Proof.
  unfold applyEntry, prefixArtifacts.
  destruct (String.eqb_spec e.1.1 "") as [HP|HP].
  - rewrite decide_False; [reflexivity | tauto].
  - rewrite alter_all_lookup by apply NoDup_seq.
    destruct (decide (c ∈ cells (Artifacts e.2))).
    + now rewrite decide_True by tauto.
    + now rewrite decide_False by tauto.
Qed.

Lemma applyEntries_untouched (es : list entry) (h : heap) (c : nat) :
  (forall e, e ∈ es -> c ∉ cells (Artifacts e.2)) ->
  foldl applyEntry h es !! c = h !! c.
Proof.
  revert h. induction es as [|e es IH]; intros h Hout; [reflexivity |].
  cbn [foldl]. rewrite IH by (intros; apply Hout; now right).
  rewrite applyEntry_lookup, decide_False; [reflexivity |].
  intros [_ Hin]. exact (Hout e (list_elem_of_here _ _) Hin).
Qed.

Lemma applyEntries_lookup (es : list entry) (e : entry) (h : heap) (c : nat) :
  NoDup (allCells es) -> e ∈ es -> c ∈ cells (Artifacts e.2) ->
  foldl applyEntry h es !! c =
  if String.eqb e.1.1 "" then h !! c else prefixed e.1.1 <$> h !! c.
Proof.
  intros Hnd Hin Hc. apply list_elem_of_split in Hin as (es1 & es2 & ->).
  unfold allCells in Hnd. rewrite bind_app, bind_cons in Hnd.
  apply NoDup_app in Hnd as (_ & Hdisj1 & Hnd).
  apply NoDup_app in Hnd as (_ & Hdisj2 & _).
  rewrite foldl_app. cbn [foldl].
  rewrite applyEntries_untouched.
  2:{ intros e' He' Hc'. apply (Hdisj2 c Hc).
      apply list_elem_of_bind. eauto. }
  rewrite applyEntry_lookup.
  rewrite applyEntries_untouched.
  2:{ intros e' He' Hc'. apply (Hdisj1 c).
      - apply list_elem_of_bind. eauto.
      - apply elem_of_app. now left. }
  destruct (String.eqb_spec e.1.1 "") as [HP|HP].
  - rewrite decide_False; [reflexivity | tauto].
  - now rewrite decide_True by tauto.
Qed.

Lemma omap_ext_in {A B} (f g : A -> option B) (l : list A) :
  (forall x, x ∈ l -> f x = g x) -> omap f l = omap g l.
Proof.
  induction l as [|x l IH]; intros Hfg; [reflexivity |].
  cbn. rewrite (Hfg x) by left. rewrite IH by (intros; apply Hfg; now right).
  reflexivity.
Qed.

Lemma readSlice_merged (es : list entry) (e : entry) (h : heap) :
  NoDup (allCells es) -> e ∈ es ->
  readSlice (foldl applyEntry h es) (Artifacts e.2) =
  (if String.eqb e.1.1 "" then id else prefixed e.1.1)
    <$> readSlice h (Artifacts e.2).
Proof.
  intros Hnd Hin. unfold readSlice. rewrite list_fmap_omap.
  apply omap_ext_in. intros c Hc.
  rewrite (applyEntries_lookup es e h c Hnd Hin Hc).
  destruct (String.eqb e.1.1 ""); [|reflexivity].
  now destruct (h !! c).
Qed.

End MergeFacts.

(** C5: when [MergeConfigs] returns a merged manifest for configurations whose
    packages hold their artifacts in separate arrays, every package [p] of a
    configuration with prefix [P] has a counterpart in the merged manifest:
    for a non-empty [P] its ID is [P] followed by the ID of [p], its display
    name is [P], [" - "] and the display name of [p] (the ID of [p] when that
    is empty), and its artifact IDs are [P], ["_"] and the original IDs; for
    an empty [P] the ID, the display name and the artifact IDs are those of
    [p]. *)
Theorem C5_merged_packages
    (configs : list Deploy.DeployConfigFile) (h h' : Models.heap)
    (merged : Models.DeployConfig)
    (cf : Deploy.DeployConfigFile) (p : Models.Package) :
  Deploy.MergeConfigs configs h = (h', GoOS.Ok merged) ->
  NoDup (MergeView.allCells (MergeView.entries configs)) ->
  cf ∈ configs -> p ∈ Models.Packages (Deploy.Config cf) ->
  let P := Models.DeploymentPrefix (Deploy.Config cf) in
  exists q, q ∈ Models.Packages merged /\
    if String.eqb P "" then
      Models.ID q = Models.ID p /\
      Models.DisplayName q = Models.DisplayName p /\
      Models.Id <$> Models.readSlice h' (Models.Artifacts q)
        = Models.Id <$> Models.readSlice h (Models.Artifacts p)
    else
      Models.ID q = P +:+ Models.ID p /\
      Models.DisplayName q =
        P +:+ " - " +:+ (if String.eqb (Models.DisplayName p) ""
                         then Models.ID p else Models.DisplayName p) /\
      Models.Id <$> Models.readSlice h' (Models.Artifacts q)
        = (fun a => P +:+ "_" +:+ Models.Id a)
            <$> Models.readSlice h (Models.Artifacts p).
Proof.
  intros Hmerge Hnd Hcf Hp P.
  unfold Deploy.MergeConfigs in Hmerge.
  destruct configs as [|c0 cs] eqn:Ecs; [discriminate |]. rewrite <- Ecs in *.
  rewrite MergeFacts.mergeAll_entries in Hmerge.
  destruct (MergeView.mergeEntries _ _) as [st [e|]] eqn:Est; [discriminate |].
  injection Hmerge as <- <-.
  apply MergeFacts.mergeEntries_success in Est as [Hm Hh]. cbn in Hm, Hh.
  set (e := (P, Deploy.FileName cf, p) : MergeView.entry).
  assert (He : e ∈ MergeView.entries configs).
  { apply list_elem_of_bind. exists cf. split; [|assumption].
    apply list_elem_of_fmap. exists p. split; [reflexivity | assumption]. }
  exists (MergeView.mergedPackage e). split.
  { cbn [Models.Packages]. rewrite Hm. now apply list_elem_of_fmap_2. }
  rewrite Hh.
  assert (Hsl : Models.Artifacts (MergeView.mergedPackage e) = Models.Artifacts p).
  { unfold MergeView.mergedPackage, e. now destruct (String.eqb P ""). }
  rewrite Hsl.
  pose proof (MergeFacts.readSlice_merged _ e h Hnd He) as Hread.
  cbn [fst snd e] in Hread. rewrite Hread.
  unfold MergeView.mergedPackage, e.
  destruct (String.eqb P "").
  - rewrite list_fmap_id. repeat split; reflexivity.
  - cbn [Models.ID Models.DisplayName]. split; [reflexivity |].
    split; [now destruct (String.eqb (Models.DisplayName p) "") |].
    rewrite <- list_fmap_compose. reflexivity.
Qed.

(** C6: when two packages, of the same or of different configurations, have
    the same fully qualified ID (prefix followed by ID), [MergeConfigs]
    returns an error and no manifest; the message is the one for the first
    collision met: it contains the colliding ID and the file names of the two
    configurations that carry it. *)
Theorem C6_duplicate_error
    (configs : list Deploy.DeployConfigFile) (h : Models.heap)
    (i j : nat) (e1 e2 : MergeView.entry) :
  i < j ->
  MergeView.entries configs !! i = Some e1 ->
  MergeView.entries configs !! j = Some e2 ->
  MergeView.fqid e1 = MergeView.fqid e2 ->
  exists (i' j' : nat) (d1 d2 : MergeView.entry) (msg : string),
    (Deploy.MergeConfigs configs h).2 = GoOS.Err msg /\
    i' < j' <= j /\
    MergeView.entries configs !! i' = Some d1 /\
    MergeView.entries configs !! j' = Some d2 /\
    MergeView.fqid d1 = MergeView.fqid d2 /\
    msg = Deploy.duplicateError (MergeView.fqid d2)
            (MergeView.source d2) (MergeView.source d1) /\
    GoStrings.Contains msg (MergeView.fqid d2) = true /\
    GoStrings.Contains msg (MergeView.source d1) = true /\
    GoStrings.Contains msg (MergeView.source d2) = true.
Proof.
  intros Hij H1 H2 Hfq.
  set (es := MergeView.entries configs) in *.
  assert (Hdup : ~ NoDup ([] ++ MergeView.keyed (take (S j) es)).*1).
  { cbn [app]. intros Hnd. pose proof (proj1 (NoDup_alt _) Hnd) as Hnd'.
    assert (i = j); [|lia].
    apply (Hnd' i j (MergeView.fqid e1)); unfold MergeView.keyed;
      rewrite !list_lookup_fmap, lookup_take_lt by lia.
    - now rewrite H1.
    - now rewrite H2, Hfq. }
  destruct (MergeFacts.firstDup_finds []
              (MergeView.keyed (take (S j) es)) ∅)
    as (i' & j' & k & f & f0 & Hfd & Hlt & Hi' & Hj'); [| |exact Hdup|].
  { intros k f0. rewrite lookup_empty, elem_of_nil. split; [discriminate | tauto]. }
  { constructor. }
  cbn [app] in Hi', Hj'. unfold MergeView.keyed in Hi', Hj'.
  rewrite list_lookup_fmap in Hi', Hj'.
  assert (Hj'lt : j' < S j).
  { destruct (take (S j) es !! j') eqn:E; [|discriminate].
    apply lookup_lt_Some in E. rewrite length_take in E. lia. }
  rewrite lookup_take_lt in Hi', Hj' by lia.
  destruct (es !! i') as [d1|] eqn:Ed1; [|discriminate].
  destruct (es !! j') as [d2|] eqn:Ed2; [|discriminate].
  injection Hi' as Hk1 Hf0. injection Hj' as Hk2 Hf.
  assert (Hall : (Deploy.mergeAll configs (Deploy.mkMergeState h ∅ [])).2
                 = Some (Deploy.duplicateError k f f0)).
  { rewrite MergeFacts.mergeAll_entries. fold es.
    rewrite MergeFacts.mergeEntries_firstDup. cbn [Deploy.ms_packageMap].
    rewrite <- (take_drop (S j) es). unfold MergeView.keyed.
    rewrite fmap_app.
    now rewrite (MergeFacts.firstDup_app _ _ _ _ Hfd). }
  assert (Herr : (Deploy.MergeConfigs configs h).2
                 = GoOS.Err (Deploy.duplicateError k f f0)).
  { unfold Deploy.MergeConfigs.
    destruct configs as [|c0 cs]; [subst es; cbn in Ed1; discriminate |].
    destruct (Deploy.mergeAll (c0 :: cs) _) as [st [e|]]; cbn in Hall;
      [injection Hall as ->; reflexivity | discriminate]. }
  exists i', j', d1, d2, (Deploy.duplicateError k f f0).
  subst k f f0. rewrite <- Hk2.
  repeat split; try assumption; try lia; try congruence.
  - unfold Deploy.duplicateError. apply GoStringsFacts.Contains_app_r.
    apply GoStringsFacts.Contains_here.
  - unfold Deploy.duplicateError.
    do 5 apply GoStringsFacts.Contains_app_r. apply GoStringsFacts.Contains_here.
  - unfold Deploy.duplicateError.
    do 3 apply GoStringsFacts.Contains_app_r. apply GoStringsFacts.Contains_here.
Qed.

(** ** The manifest rewriter *)
Module ManifestFacts.
Import GoStrings GoOS Deploy ManifestView GoStringsFacts Repo.SpecAlgorithm.

Lemma rev_app (a b : string) : rev (a +:+ b) = rev b +:+ rev a.
Proof.
  induction a as [|c a IH]; [now rewrite sapp_nil_l, sapp_nil_r |].
  rewrite sapp_cons. cbn [rev]. now rewrite IH, sapp_assoc.
Qed.

Lemma HasPrefix_app_here (p t : string) : HasPrefix (p +:+ t) p = true.
Proof.
  induction p as [|c p IH]; [reflexivity |].
  rewrite sapp_cons. cbn. now rewrite Ascii.eqb_refl.
Qed.

Lemma HasPrefix_inv (s p : string) :
  HasPrefix s p = true -> exists w, s = p +:+ w.
Proof.
  revert s. induction p as [|c p IH]; intros s E; [now exists s |].
  apply HasPrefix_cons_inv in E as (s' & -> & E).
  destruct (IH _ E) as [w ->]. now exists w.
Qed.

Lemma HasSuffix_app_here (u s : string) : HasSuffix (u +:+ s) s = true.
Proof. unfold HasSuffix. rewrite rev_app. apply HasPrefix_app_here. Qed.

Lemma HasSuffix_inv (s p : string) :
  HasSuffix s p = true -> exists u, s = u +:+ p.
Proof.
  unfold HasSuffix. intros E. apply HasPrefix_inv in E as [w E].
  exists (rev w). rewrite <- (rev_involutive s), E, rev_app.
  now rewrite rev_involutive.
Qed.

Lemma lastByteIs_snoc (c a : ascii) (u : string) :
  lastByteIs c (u +:+ String a "") = Ascii.eqb a c.
Proof.
  induction u as [|x u IH]; [reflexivity |].
  rewrite sapp_cons. cbn [lastByteIs]. rewrite IH.
  destruct u; reflexivity.
Qed.

Lemma HasSuffix_byte (c : ascii) (s : string) :
  HasSuffix s (String c "") = lastByteIs c s.
Proof.
  unfold HasSuffix. cbn [rev]. rewrite sapp_nil_l, HasPrefix_byte.
  destruct s as [|a s]; [reflexivity |].
  rewrite <- (rev_involutive (String a s)) at 2.
  destruct (rev (String a s)) as [|x r] eqn:E.
  - apply (f_equal rev) in E. rewrite rev_involutive in E. discriminate.
  - cbn [rev]. now rewrite lastByteIs_snoc.
Qed.

(** *** White space is trimmed up to the first plain character *)

Lemma HasPrefix_high_fits (p a : string) (c : ascii) (b : string) :
  HasPrefix (a +:+ String c b) p = true -> allHigh p = true -> isLow c = true ->
  String.length p <= String.length a.
Proof.
  revert a. induction p as [|y p IH]; intros a E Hp Hc; [cbn; lia |].
  cbn [allHigh] in Hp. apply andb_true_iff in Hp as [Hy Hp].
  apply HasPrefix_cons_inv in E as (s' & Es & E).
  destruct a as [|x a].
  - rewrite sapp_nil_l in Es. injection Es as Ecy _. subst y.
    rewrite Hc in Hy. discriminate.
  - rewrite sapp_cons in Es. injection Es as _ <-.
    cbn. apply le_n_S. now apply IH.
Qed.

Lemma find_all_high (pats : list string) (f : string -> bool) (p : string) :
  forallb allHigh pats = true -> List.find f pats = Some p ->
  allHigh p = true /\ f p = true.
Proof.
  intros Hall E. apply List.find_some in E as [Hin Hf]. split; [|assumption].
  rewrite forallb_forall in Hall. now apply Hall.
Qed.

Lemma trim_go_keeps (pats : list string) (c : ascii) (b : string) :
  forallb allHigh pats = true -> forallb (fun p => negb (String.eqb p "")) pats = true ->
  isLow c = true -> asciiSpace c = false ->
  forall (a : string) (k : nat), k <= String.length a ->
  exists a', trim_go pats k (a +:+ String c b) = a' +:+ String c b.
Proof.
  intros Hhigh Hne Hc Hsp. induction a as [|x a IH]; intros k Hk.
  - cbn in Hk. assert (k = 0) as -> by lia. exists "".
    rewrite !sapp_nil_l. cbn [trim_go spaceLen]. rewrite Hsp.
    destruct (List.find _ pats) as [p|] eqn:E; [|reflexivity].
    destruct (find_all_high _ _ _ Hhigh E) as [Hp Hpre].
    apply List.find_some in E as [Hin _].
    rewrite forallb_forall in Hne. specialize (Hne _ Hin).
    destruct p as [|y p]; [discriminate |].
    apply HasPrefix_cons_inv in Hpre as (s' & [= -> _] & _).
    cbn [allHigh] in Hp. rewrite Hc in Hp. discriminate.
  - rewrite sapp_cons. destruct k as [|k].
    + cbn [trim_go spaceLen].
      destruct (asciiSpace x).
      { apply IH. lia. }
      destruct (List.find _ pats) as [p|] eqn:E.
      * destruct (find_all_high _ _ _ Hhigh E) as [Hp Hpre].
        rewrite <- sapp_cons in Hpre.
        pose proof (HasPrefix_high_fits _ _ _ _ Hpre Hp Hc) as Hlen.
        destruct (String.length p) as [|n] eqn:En.
        -- exists (String x a). now rewrite sapp_cons.
        -- apply IH. cbn in Hlen. lia.
      * exists (String x a). now rewrite sapp_cons.
    + cbn [trim_go]. apply IH. cbn in Hk. lia.
Qed.

Lemma TrimRightSpace_keeps (q : string) (c : ascii) (t : string) :
  isLow c = true -> asciiSpace c = false ->
  exists t', TrimRightSpace ((q +:+ String c "") +:+ t) = (q +:+ String c "") +:+ t'.
Proof.
  intros Hc Hsp. unfold TrimRightSpace.
  rewrite rev_app, rev_snoc.
  destruct (trim_go_keeps (List.map rev unicodeSpaces) c (rev q))
    with (a := rev t) (k := 0) as [a' E]; try assumption; try reflexivity; [lia |].
  rewrite E. exists (rev a').
  now rewrite rev_app, <- rev_snoc, rev_involutive.
Qed.

Lemma isBundleName_canonical (name : string) :
  isBundleName ("Bundle-Name: " +:+ name) = true.
Proof.
  unfold isBundleName, TrimSpace.
  change (TrimLeftSpace ("Bundle-Name: " +:+ name))
    with (("Bundle-Name" +:+ String ":" "") +:+ (" " +:+ name)).
  destruct (TrimRightSpace_keeps "Bundle-Name" ":" (" " +:+ name))
    as [t' ->]; reflexivity.
Qed.

Lemma isBundleName_symbolic (sym : string) :
  isBundleName ("Bundle-SymbolicName: " +:+ sym) = false.
Proof.
  unfold isBundleName, TrimSpace.
  change (TrimLeftSpace ("Bundle-SymbolicName: " +:+ sym))
    with (("Bundle-SymbolicName" +:+ String ":" "") +:+ (" " +:+ sym)).
  destruct (TrimRightSpace_keeps "Bundle-SymbolicName" ":" (" " +:+ sym))
    as [t' ->]; reflexivity.
Qed.

Lemma isBundleSymbolicName_canonical (sym : string) :
  isBundleSymbolicName ("Bundle-SymbolicName: " +:+ sym) = true.
Proof.
  unfold isBundleSymbolicName, TrimSpace.
  change (TrimLeftSpace ("Bundle-SymbolicName: " +:+ sym))
    with (("Bundle-SymbolicName" +:+ String ":" "") +:+ (" " +:+ sym)).
  destruct (TrimRightSpace_keeps "Bundle-SymbolicName" ":" (" " +:+ sym))
    as [t' ->]; reflexivity.
Qed.

Lemma hasByte_app (c : ascii) (u v : string) :
  hasByte c (u +:+ v) = hasByte c u || hasByte c v.
Proof.
  induction u as [|x u IH]; [reflexivity |].
  rewrite sapp_cons. cbn [hasByte]. now rewrite IH, orb_assoc.
Qed.

Lemma Contains_cons (a : ascii) (s p : string) :
  Contains (String a s) p = HasPrefix (String a s) p || Contains s p.
Proof. reflexivity. Qed.

Lemma Contains_app_false_r (u v p : string) :
  Contains (u +:+ v) p = false -> Contains v p = false.
Proof.
  intros E. destruct (Contains v p) eqn:Ev; [|reflexivity].
  induction u as [|x u IH]; [rewrite sapp_nil_l in E; congruence |].
  rewrite sapp_cons, Contains_cons in E.
  apply orb_false_iff in E as [_ E]. now apply IH.
Qed.

Lemma lastByteIs_app (c : ascii) (u v : string) :
  lastByteIs c (u +:+ v) =
  match v with "" => lastByteIs c u | _ => lastByteIs c v end.
Proof.
  induction u as [|x u IH]; [now destruct v |].
  rewrite sapp_cons. destruct v as [|y v].
  - now rewrite sapp_nil_r.
  - cbn [lastByteIs]. rewrite IH. now destruct u.
Qed.

Lemma lastByteIs_inv (c : ascii) (s : string) :
  lastByteIs c s = true -> exists u, s = u +:+ String c "".
Proof.
  induction s as [|a s IH]; [discriminate |].
  destruct s as [|b s].
  - cbn. intros E. apply Ascii.eqb_eq in E as ->. now exists "".
  - intros E. destruct (IH E) as [u ->]. now exists (String a u).
Qed.

Lemma hasByte_lastByteIs (c : ascii) (s : string) :
  hasByte c s = false -> lastByteIs c s = false.
Proof.
  intros E. destruct (lastByteIs c s) eqn:El; [|reflexivity].
  apply lastByteIs_inv in El as [u ->].
  rewrite hasByte_app in E. cbn in E. rewrite Ascii.eqb_refl in E.
  now rewrite orb_true_r in E.
Qed.

(** A CR LF needs a line feed. *)
Lemma Contains_CRLF_hasByte (s : string) :
  hasByte (byte 10) s = false -> Contains s CRLF = false.
Proof.
  induction s as [|a s IH]; [reflexivity |].
  cbn [hasByte]. intros E. apply orb_false_iff in E as [Ea E].
  rewrite Contains_cons, (IH E), orb_false_r.
  destruct (HasPrefix (String a s) CRLF) eqn:Ep; [|reflexivity].
  apply HasPrefix_cons_inv in Ep as (s1 & [= _ ->] & Ep).
  apply HasPrefix_cons_inv in Ep as (s2 & -> & _).
  cbn in E. discriminate.
Qed.

Lemma Contains_CRLF_snoc (u : string) (a : ascii) :
  Contains (u +:+ String a "") CRLF =
  Contains u CRLF || (lastByteIs (byte 13) u && Ascii.eqb a (byte 10)).
Proof.
  induction u as [|x u IH].
  - rewrite sapp_nil_l. cbn. now destruct (Ascii.eqb a _).
  - rewrite sapp_cons, !Contains_cons, IH.
    destruct u as [|y u].
    + rewrite sapp_nil_l. cbn.
      destruct (Ascii.eqb x _), (Ascii.eqb a _); reflexivity.
    + rewrite sapp_cons. cbn [lastByteIs HasPrefix CRLF bytes].
      now rewrite orb_assoc.
Qed.

Lemma HasPrefix_LF (a : ascii) (s : string) :
  HasPrefix (String a s) LF = Ascii.eqb a (byte 10).
Proof. unfold LF. cbn [bytes]. now rewrite HasPrefix_byte. Qed.

Lemma Contains_LF (x : string) : Contains x LF = hasByte (byte 10) x.
Proof. unfold LF. cbn [bytes]. apply Contains_byte. Qed.

(** *** The pieces of [Split] hold no separator *)

Lemma split_go_LF_pieces (s cur : string) :
  hasByte (byte 10) (rev cur) = false ->
  Forall (fun x => Contains x LF = false) (split_go 0 LF cur s).
Proof.
  revert cur. induction s as [|a s IH]; intros cur Hcur; cbn [split_go].
  - constructor; [|constructor]. now rewrite Contains_LF.
  - rewrite HasPrefix_LF.
    destruct (Ascii.eqb a (byte 10)) eqn:Ea.
    + constructor.
      * now rewrite Contains_LF.
      * apply IH. reflexivity.
    + apply IH. cbn [rev]. rewrite hasByte_app, Hcur. cbn. now rewrite Ea.
Qed.

Lemma split_go_CRLF_pieces (s cur : string) (k : nat) :
  (k = 0 /\ Contains (rev cur) CRLF = false /\
   lastByteIs (byte 13) (rev cur) && HasPrefix s LF = false)
  \/ (k = 1 /\ cur = "") ->
  Forall (fun x => Contains x CRLF = false) (split_go k CRLF cur s).
Proof.
  revert cur k. induction s as [|a s IH]; intros cur k Hinv; cbn [split_go].
  - constructor; [|constructor].
    destruct Hinv as [(_ & H & _) | (_ & ->)]; [assumption | reflexivity].
  - destruct Hinv as [(-> & Hc & Hl) | (-> & ->)].
    + destruct (HasPrefix (String a s) CRLF) eqn:Ep.
      * constructor; [assumption |]. apply IH. right. split; reflexivity.
      * apply IH. left. split; [reflexivity |]. cbn [rev]. split.
        -- rewrite Contains_CRLF_snoc, Hc. cbn [orb].
           now rewrite HasPrefix_LF in Hl.
        -- rewrite lastByteIs_snoc.
           destruct (Ascii.eqb_spec a (byte 13)) as [->|]; [|reflexivity].
           cbn [andb]. destruct (HasPrefix s LF) eqn:El; [|reflexivity].
           apply HasPrefix_cons_inv in El as (s1 & -> & _).
           cbn in Ep. discriminate.
    + apply IH. left. repeat split.
Qed.

Lemma Split_pieces (le s : string) :
  lineEnding le -> Forall (fun x => Contains x le = false) (Split s le).
Proof.
  intros [-> | ->]; unfold Split.
  - now apply split_go_LF_pieces.
  - apply split_go_CRLF_pieces. left. repeat split.
Qed.

(** *** [Split] undoes [Join] *)

Lemma Join_cons (x y : string) (R : list string) (le : string) :
  Join (x :: y :: R) le = x +:+ le +:+ Join (y :: R) le.
Proof. reflexivity. Qed.

Lemma split_go_LF_elem (x cur rest : string) :
  Contains x LF = false ->
  split_go 0 LF cur (x +:+ LF +:+ rest) = (rev cur +:+ x) :: split_go 0 LF "" rest.
Proof.
  revert cur. induction x as [|a x IH]; intros cur.
  - intros _. now rewrite sapp_nil_l, sapp_nil_r.
  - rewrite Contains_cons. intros E. apply orb_false_iff in E as [Ea E].
    rewrite sapp_cons. cbn [split_go].
    rewrite HasPrefix_LF in Ea |- *. rewrite Ea.
    rewrite (IH _ E). cbn [rev]. now rewrite sapp_assoc.
Qed.

Lemma split_go_LF_last (x cur : string) :
  Contains x LF = false -> split_go 0 LF cur x = [rev cur +:+ x].
Proof.
  rewrite Contains_LF. apply split_go_byte_absent.
Qed.

Lemma split_go_CRLF_elem (x cur rest : string) :
  Contains x CRLF = false ->
  split_go 0 CRLF cur (x +:+ CRLF +:+ rest)
  = (rev cur +:+ x) :: split_go 0 CRLF "" rest.
Proof.
  revert cur. induction x as [|a x IH]; intros cur.
  - intros _. now rewrite sapp_nil_l, sapp_nil_r.
  - rewrite Contains_cons. intros E. apply orb_false_iff in E as [Ea E].
    rewrite sapp_cons. cbn [split_go].
    assert (Hp : HasPrefix (String a (x +:+ CRLF +:+ rest)) CRLF = false).
    { destruct x as [|b x]; [|exact Ea].
      rewrite sapp_nil_l. cbn. now destruct (Ascii.eqb a _). }
    rewrite Hp, (IH _ E). cbn [rev]. now rewrite sapp_assoc.
Qed.

Lemma split_go_CRLF_last (x cur : string) :
  Contains x CRLF = false -> split_go 0 CRLF cur x = [rev cur +:+ x].
Proof.
  revert cur. induction x as [|a x IH]; intros cur.
  - intros _. now rewrite sapp_nil_r.
  - rewrite Contains_cons. intros E. apply orb_false_iff in E as [Ea E].
    cbn [split_go]. rewrite Ea, (IH _ E). cbn [rev]. now rewrite sapp_assoc.
Qed.

Lemma Split_Join (le : string) (R : list string) :
  lineEnding le -> R <> [] ->
  Forall (fun x => Contains x le = false) R ->
  Split (Join R le) le = R.
Proof.
  intros Hle Hne Hall. unfold Split.
  induction Hall as [|x R Hx Hall IH]; [congruence |].
  destruct R as [|y R].
  - cbn [Join]. destruct Hle as [-> | ->].
    + now rewrite split_go_LF_last.
    + now rewrite split_go_CRLF_last.
  - rewrite Join_cons. destruct Hle as [-> | ->].
    + rewrite split_go_LF_elem by assumption. cbn [rev].
      rewrite sapp_nil_l, IH; [reflexivity | discriminate].
    + rewrite split_go_CRLF_elem by assumption. cbn [rev].
      rewrite sapp_nil_l, IH; [reflexivity | discriminate].
Qed.

Lemma Join_snoc_empty (R : list string) (le : string) :
  R <> [] -> Join (R ++ [""]) le = Join R le +:+ le.
Proof.
  induction R as [|x R IH]; [congruence |]. intros _.
  destruct R as [|y R].
  - cbn. now rewrite sapp_nil_r.
  - cbn [app] in *. rewrite !Join_cons, IH by discriminate.
    now rewrite !sapp_assoc.
Qed.

(** *** Lines joined by LF hold no CR LF *)

Lemma no_CRLF_before_LF (x t : string) :
  hasByte (byte 10) x = false -> lastByteIs (byte 13) x = false ->
  Contains (x +:+ LF +:+ t) CRLF = Contains t CRLF.
Proof.
  induction x as [|a x IH]; intros Hlf Hcr.
  - rewrite sapp_nil_l. reflexivity.
  - cbn [hasByte] in Hlf. apply orb_false_iff in Hlf as [Ha Hlf].
    rewrite sapp_cons, Contains_cons.
    destruct x as [|b x].
    + rewrite sapp_nil_l in *. cbn [lastByteIs] in Hcr.
      cbn. rewrite Hcr. reflexivity.
    + rewrite IH; [|assumption|exact Hcr].
      cbn [hasByte] in Hlf. apply orb_false_iff in Hlf as [Hb _].
      rewrite sapp_cons. cbn. rewrite Hb.
      destruct (Ascii.eqb a (byte 13)); reflexivity.
Qed.

Lemma no_CRLF_Join (R : list string) :
  Forall (fun x => hasByte (byte 10) x = false /\ lastByteIs (byte 13) x = false) R ->
  Contains (Join R LF) CRLF = false.
Proof.
  induction 1 as [|x R [Hlf Hcr] Hall IH]; [reflexivity |].
  destruct R as [|y R].
  - cbn [Join]. now apply Contains_CRLF_hasByte.
  - rewrite Join_cons, no_CRLF_before_LF by assumption. exact IH.
Qed.

(** In a text without CR LF that does not end with a CR, no line ends with
    a CR. *)
Lemma split_go_LF_no_CR (s cur : string) :
  Contains (rev cur +:+ s) CRLF = false ->
  lastByteIs (byte 13) (rev cur +:+ s) = false ->
  Forall (fun x => lastByteIs (byte 13) x = false) (split_go 0 LF cur s).
Proof.
  revert cur. induction s as [|a s IH]; intros cur Hc Hl; cbn [split_go].
  - constructor; [|constructor]. now rewrite sapp_nil_r in Hl.
  - rewrite HasPrefix_LF.
    destruct (Ascii.eqb_spec a (byte 10)) as [->|Hne].
    + constructor.
      * destruct (lastByteIs (byte 13) (rev cur)) eqn:El; [|reflexivity].
        apply lastByteIs_inv in El as [u Eu]. rewrite Eu, sapp_assoc in Hc.
        apply Contains_app_false_r in Hc. cbn in Hc. discriminate.
      * apply IH; cbn [rev]; rewrite sapp_nil_l.
        -- apply Contains_app_false_r in Hc. rewrite Contains_cons in Hc.
           now apply orb_false_iff in Hc as [_ Hc].
        -- rewrite lastByteIs_app in Hl. destruct s; [reflexivity | exact Hl].
    + apply IH; cbn [rev]; now rewrite sapp_assoc.
Qed.

(** A line cannot carry both headers. *)
Lemma isBundleName_not_symbolic (line : string) :
  isBundleName line = true -> isBundleSymbolicName line = false.
Proof.
  unfold isBundleName, isBundleSymbolicName. intros E.
  do 8 (apply HasPrefix_cons_inv in E as (? & -> & E)). reflexivity.
Qed.

Lemma rewriteLines_spec (sym name : string) (lines acc : list string) (bn bsn : bool) :
  rewriteLines sym name lines acc bn bsn =
  (acc ++ (rewriteLine sym name <$> lines),
   bn || existsb isBundleName lines,
   bsn || existsb isBundleSymbolicName lines).
Proof.
  revert acc bn bsn. induction lines as [|l lines IH]; intros acc bn bsn.
  - cbn. now rewrite app_nil_r, !orb_false_r.
  - cbn [rewriteLines existsb fmap list_fmap]. unfold rewriteLine.
    fold (isBundleName l). fold (isBundleSymbolicName l).
    destruct (isBundleName l) eqn:E1.
    + rewrite IH, (isBundleName_not_symbolic _ E1), <- app_assoc.
      cbn [orb]. now rewrite orb_true_r.
    + destruct (isBundleSymbolicName l) eqn:E2;
        rewrite IH, <- app_assoc; cbn [orb]; now rewrite ?orb_true_r.
Qed.

Lemma manifestResult_spec (content sym name : string) :
  let lines := Split content (lineEndingOf content) in
  manifestResult content sym name =
  (rewriteLine sym name <$> lines)
  ++ (if existsb isBundleName lines then [] else ["Bundle-Name: " +:+ name])
  ++ (if existsb isBundleSymbolicName lines then []
      else ["Bundle-SymbolicName: " +:+ sym]).
Proof.
  cbv zeta. unfold manifestResult. rewrite rewriteLines_spec. cbn [app orb].
  destruct (existsb isBundleName _); destruct (existsb isBundleSymbolicName _);
    cbn [app]; rewrite ?app_nil_r, <- ?app_assoc; reflexivity.
Qed.

Lemma countBundleName_cons (l : string) (lines : list string) :
  countBundleName (l :: lines) =
  (if isBundleName l then 1 else 0) + countBundleName lines.
Proof.
  unfold countBundleName. cbn [List.filter].
  destruct (isBundleName l); reflexivity.
Qed.

Lemma countBundleName_app (a b : list string) :
  countBundleName (a ++ b) = countBundleName a + countBundleName b.
Proof.
  unfold countBundleName. now rewrite List.filter_app, length_app.
Qed.

Lemma countBundleName_exists (lines : list string) :
  existsb isBundleName lines = negb (countBundleName lines =? 0)%nat.
Proof.
  induction lines as [|l lines IH]; [reflexivity |].
  rewrite countBundleName_cons. cbn [existsb]. rewrite IH.
  now destruct (isBundleName l).
Qed.

Lemma isBundleName_rewriteLine (sym name l : string) :
  isBundleName (rewriteLine sym name l) = isBundleName l.
Proof.
  unfold rewriteLine. destruct (isBundleName l) eqn:E1.
  - apply isBundleName_canonical.
  - destruct (isBundleSymbolicName l); [apply isBundleName_symbolic | exact E1].
Qed.

Lemma countBundleName_rewrite (sym name : string) (lines : list string) :
  countBundleName (rewriteLine sym name <$> lines) = countBundleName lines.
Proof.
  induction lines as [|l lines IH]; [reflexivity |].
  cbn [fmap list_fmap]. fold (fmap (M := list) (rewriteLine sym name) lines).
  now rewrite !countBundleName_cons, isBundleName_rewriteLine, IH.
Qed.

(** The header lines written for single-line names hold no line ending. *)
Lemma header_no_LF (header value : string) :
  hasByte (byte 10) header = false -> singleLine value = true ->
  hasByte (byte 10) (header +:+ value) = false.
Proof.
  unfold singleLine. intros Hh Hv. apply andb_true_iff in Hv as [_ Hv].
  apply negb_true_iff in Hv. now rewrite hasByte_app, Hh, Hv.
Qed.

Lemma header_no_CR_end (header value : string) :
  lastByteIs (byte 13) header = false -> singleLine value = true ->
  lastByteIs (byte 13) (header +:+ value) = false.
Proof.
  unfold singleLine. intros Hh Hv. apply andb_true_iff in Hv as [Hv _].
  apply negb_true_iff in Hv. rewrite lastByteIs_app.
  destruct value; [assumption | now apply hasByte_lastByteIs].
Qed.

Lemma no_LF_no_lineEnding (le x : string) :
  lineEnding le -> hasByte (byte 10) x = false -> Contains x le = false.
Proof.
  intros [-> | ->] E; [now rewrite Contains_LF | now apply Contains_CRLF_hasByte].
Qed.

Lemma result_Forall (P : string -> Prop) (content sym name : string) :
  P ("Bundle-Name: " +:+ name) -> P ("Bundle-SymbolicName: " +:+ sym) ->
  Forall P (Split content (lineEndingOf content)) ->
  Forall P (manifestResult content sym name).
Proof.
  intros Hbn Hbsn Hlines. rewrite manifestResult_spec.
  repeat apply Forall_app_2.
  - apply Forall_fmap. eapply Forall_impl; [exact Hlines |].
    intros l Hl. unfold compose, rewriteLine.
    destruct (isBundleName l); [assumption |].
    now destruct (isBundleSymbolicName l).
  - destruct (existsb isBundleName _); repeat constructor. assumption.
  - destruct (existsb isBundleSymbolicName _); repeat constructor. assumption.
Qed.

Lemma lineEndingOf_lineEnding (content : string) : lineEnding (lineEndingOf content).
Proof. unfold lineEndingOf. destruct (Contains content CRLF); [now right | now left]. Qed.

Lemma manifestResult_nonempty (content sym name : string) :
  manifestResult content sym name <> [].
Proof.
  rewrite manifestResult_spec. unfold Split.
  pose proof (split_go_nonempty 0 (lineEndingOf content) "" content) as Hne.
  destruct (split_go _ _ _ _); [congruence | discriminate].
Qed.

(** The lines of the output, read with the line ending of the input, are
    the lines written, followed by an empty one when the terminator was
    added. *)
Lemma Split_manifestContent (content sym name : string) :
  singleLine name = true -> singleLine sym = true ->
  let le := lineEndingOf content in
  let R := manifestResult content sym name in
  (manifestContent content sym name = Join R le /\
   Split (manifestContent content sym name) le = R)
  \/ (manifestContent content sym name = Join (R ++ [""]) le /\
      Split (manifestContent content sym name) le = R ++ [""]).
Proof.
  intros Hname Hsym le R.
  pose proof (lineEndingOf_lineEnding content) as Hle. fold le in Hle.
  assert (HR : Forall (fun x => Contains x le = false) R).
  { apply result_Forall.
    - apply no_LF_no_lineEnding; [assumption |]. now apply header_no_LF.
    - apply no_LF_no_lineEnding; [assumption |]. now apply header_no_LF.
    - now apply Split_pieces. }
  pose proof (manifestResult_nonempty content sym name) as Hne. fold R in Hne.
  unfold manifestContent. fold le. fold R.
  destruct (HasSuffix (Join R le) le).
  - left. split; [reflexivity |]. now apply Split_Join.
  - right. rewrite <- Join_snoc_empty by assumption. split; [reflexivity |].
    apply Split_Join; [assumption | now destruct R |].
    apply Forall_app_2; [assumption |]. repeat constructor.
    destruct Hle as [-> | ->]; reflexivity.
Qed.

Lemma HasSuffix_manifestContent (content sym name : string) :
  HasSuffix (manifestContent content sym name) (lineEndingOf content) = true.
Proof.
  unfold manifestContent.
  destruct (HasSuffix (Join _ _) _) eqn:E; [exact E | apply HasSuffix_app_here].
Qed.

Lemma Contains_suffix (s p : string) :
  HasSuffix s p = true -> Contains s p = true.
Proof.
  intros E. apply HasSuffix_inv in E as [u ->].
  apply Contains_app_r.
  rewrite <- (sapp_nil_r p) at 1. apply Contains_here.
Qed.

(** The output is in the line-ending style of the input, unless the input
    has no CR LF but ends with a lone CR. *)
Lemma lineEndingOf_manifestContent (content sym name : string) :
  singleLine name = true -> singleLine sym = true ->
  (Contains content CRLF = false -> HasSuffix content CR = false) ->
  lineEndingOf (manifestContent content sym name) = lineEndingOf content.
Proof.
  intros Hname Hsym Hcr.
  pose proof (HasSuffix_manifestContent content sym name) as Hsuf.
  pose proof (Split_manifestContent content sym name Hname Hsym) as Hsplit.
  cbv zeta in Hsplit. unfold lineEndingOf in *.
  destruct (Contains content CRLF) eqn:Ec.
  - now rewrite (Contains_suffix _ _ Hsuf).
  - specialize (Hcr eq_refl). unfold CR in Hcr. cbn [bytes] in Hcr.
    rewrite HasSuffix_byte in Hcr.
    assert (HQ : Forall (fun x => hasByte (byte 10) x = false /\
                                   lastByteIs (byte 13) x = false)
                   (manifestResult content sym name)).
    { apply result_Forall.
      - split; [now apply header_no_LF | now apply header_no_CR_end].
      - split; [now apply header_no_LF | now apply header_no_CR_end].
      - unfold lineEndingOf. rewrite Ec. apply Forall_and. split.
        + eapply Forall_impl; [apply (Split_pieces LF); now left |].
          intros x Hx. cbn beta in Hx. now rewrite Contains_LF in Hx.
        + apply split_go_LF_no_CR; cbn [rev]; now rewrite sapp_nil_l. }
    destruct Hsplit as [[-> _] | [-> _]].
    + now rewrite no_CRLF_Join.
    + rewrite no_CRLF_Join; [reflexivity |].
      apply Forall_app_2; [assumption |]. repeat constructor.
Qed.

End ManifestFacts.

(** ** The scenarios S2 and S3 *)
Module ScenarioFacts.
Import GoStrings GoOS Models Deploy Scenarios.

Example S2_merge : MergeConfigs configsS2 heap2 = (heapS2, Ok mergedS2).
Proof. vm_compute. reflexivity. Qed.

Example S2_artifacts :
  Id <$> readSlice heapS2 (mkSlice 0 1) = ["DEV_A1"] /\
  Id <$> readSlice heapS2 (mkSlice 1 1) = ["QA_B1"].
Proof. vm_compute. split; reflexivity. Qed.

Example S3_conflict :
  (MergeConfigs configsS3 heap2).2 =
  Err "duplicate package ID 'DEVP1' found in b.yml (already exists from a.yml)".
Proof. vm_compute. reflexivity. Qed.

(** Two packages on one artifact array: the cell is written twice. *)
Example shared_array_prefixed_twice :
  Id <$> readSlice (MergeConfigs configsShared heap2).1 (mkSlice 0 1)
  = ["QA_DEV_A1"].
Proof. vm_compute. reflexivity. Qed.

End ScenarioFacts.

Lemma C5_merged_packages_witness :
  exists q, q ∈ Models.Packages Scenarios.mergedS2 /\
    Models.ID q = "QAP1" /\
    Models.DisplayName q = "QA - P1" /\
    Models.Id <$> Models.readSlice Scenarios.heapS2 (Models.Artifacts q)
      = ["QA_B1"].
Proof.
  pose proof (C5_merged_packages Scenarios.configsS2 Scenarios.heap2
                Scenarios.heapS2 Scenarios.mergedS2
                (Scenarios.configFile "QA" "b.yml"
                   [Scenarios.package "P1" (Models.mkSlice 1 1)])
                (Scenarios.package "P1" (Models.mkSlice 1 1))) as H.
  destruct H as (q & Hq & Hid & Hname & Harts).
  - vm_compute. reflexivity.
  - apply (bool_decide_unpack _). vm_compute. exact I.
  - right. left.
  - left.
  - exists q. split; [exact Hq |]. split; [exact Hid |]. split; [exact Hname |].
    exact Harts.
Defined.

Lemma C6_duplicate_error_witness :
  exists (i' j' : nat) (d1 d2 : MergeView.entry) (msg : string),
    (Deploy.MergeConfigs Scenarios.configsS3 Scenarios.heap2).2 = GoOS.Err msg /\
    i' < j' <= 1 /\
    MergeView.entries Scenarios.configsS3 !! i' = Some d1 /\
    MergeView.entries Scenarios.configsS3 !! j' = Some d2 /\
    MergeView.fqid d1 = MergeView.fqid d2 /\
    msg = Deploy.duplicateError (MergeView.fqid d2)
            (MergeView.source d2) (MergeView.source d1) /\
    GoStrings.Contains msg (MergeView.fqid d2) = true /\
    GoStrings.Contains msg (MergeView.source d1) = true /\
    GoStrings.Contains msg (MergeView.source d2) = true.
Proof.
  apply (C6_duplicate_error Scenarios.configsS3 Scenarios.heap2 0 1
           ("DEV", "a.yml", Scenarios.package "P1" (Models.mkSlice 0 1))
           ("DEV", "b.yml", Scenarios.package "P1" (Models.mkSlice 1 1))).
  - lia.
  - reflexivity.
  - reflexivity.
  - reflexivity.
Defined.

(** C7 (counterexample to the claim as stated), at two inputs that each hold
    exactly one [Bundle-Name] line.  First, a manifest without CR LF that ends
    with a lone CR: the terminator added after the CR makes the output
    contain CR LF, and read with that line ending the output has no
    [Bundle-Name] line.  Second, a bundle name that holds a line feed: the
    output has two such lines. *)
Lemma C7_counterexample :
  (let content := Scenarios.manifestLoneCR in
   let output := Deploy.manifestContent content "S" "N" in
   Deploy.countBundleName (GoStrings.Split content (Deploy.lineEndingOf content)) = 1 /\
   Deploy.lineEndingOf content = GoStrings.LF /\
   Deploy.lineEndingOf output = GoStrings.CRLF /\
   Deploy.countBundleName (GoStrings.Split output (Deploy.lineEndingOf output)) = 0) /\
  (let content := Scenarios.manifestOneHeader in
   let output := Deploy.manifestContent content "S" Scenarios.nameTwoLines in
   Deploy.countBundleName (GoStrings.Split content (Deploy.lineEndingOf content)) = 1 /\
   Deploy.lineEndingOf output = Deploy.lineEndingOf content /\
   Deploy.countBundleName (GoStrings.Split output (Deploy.lineEndingOf output)) = 2).
Proof. vm_compute. repeat split; reflexivity. Qed.

(** C7 (amended): when [UpdateManifestBundleName] succeeds for a bundle name
    and a symbolic name that hold no CR and no LF, it writes to the output
    path a text that ends with the line ending of the input (CR LF if the
    input contains one, else LF) and whose lines, read with that line ending,
    are the lines of the input with each header line replaced.  If the input
    has exactly one [Bundle-Name] line, so has the output, and it is
    ["Bundle-Name: <bundleName>"].  A header that the input lacks is appended
    after the lines of the input, [Bundle-Name] before
    [Bundle-SymbolicName].  The output is detected with the same line ending
    as the input unless the input has no CR LF and ends with a lone CR. *)
Theorem C7_manifest_rewrite {FS : Type} `{GoOS.Platform FS}
    (manifestPath bundleSymbolicName bundleName outputPath : string)
    (fs fs' : FS) :
  ManifestView.singleLine bundleName = true ->
  ManifestView.singleLine bundleSymbolicName = true ->
  Deploy.UpdateManifestBundleName manifestPath bundleSymbolicName bundleName
    outputPath fs = GoOS.Ok fs' ->
  exists (content output : string) (fs1 : FS),
    GoOS.ReadFile manifestPath fs = Some content /\
    GoOS.MkdirAll (GoOS.filepathDir outputPath) fs = Some fs1 /\
    GoOS.WriteFile outputPath output fs1 = Some fs' /\
    let le := Deploy.lineEndingOf content in
    let lines := GoStrings.Split content le in
    let R := Deploy.manifestResult content bundleSymbolicName bundleName in
    GoStrings.HasSuffix output le = true /\
    ManifestView.outputLines output le R /\
    (Deploy.countBundleName lines = 1 ->
       Deploy.countBundleName (GoStrings.Split output le) = 1 /\
       forall l, l ∈ GoStrings.Split output le -> Deploy.isBundleName l = true ->
                 l = "Bundle-Name: " +:+ bundleName) /\
    (existsb Deploy.isBundleName lines = false ->
       exists pre post, R = pre ++ ["Bundle-Name: " +:+ bundleName] ++ post /\
         length pre = length lines /\
         (post = [] \/ post = ["Bundle-SymbolicName: " +:+ bundleSymbolicName])) /\
    (existsb Deploy.isBundleSymbolicName lines = false ->
       exists pre, R = pre ++ ["Bundle-SymbolicName: " +:+ bundleSymbolicName]) /\
    ((GoStrings.Contains content GoStrings.CRLF = false ->
      GoStrings.HasSuffix content GoStrings.CR = false) ->
     Deploy.lineEndingOf output = le).
Proof.
  intros Hname Hsym Hrun. unfold Deploy.UpdateManifestBundleName in Hrun.
  destruct (GoOS.ReadFile manifestPath fs) as [content|]; [|discriminate].
  destruct (GoOS.MkdirAll _ fs) as [fs1|]; [|discriminate].
  destruct (GoOS.WriteFile _ _ fs1) as [fs2|] eqn:Ew; [|discriminate].
  injection Hrun as ->.
  exists content, (Deploy.manifestContent content bundleSymbolicName bundleName), fs1.
  do 3 (split; [reflexivity || assumption |]).
  cbv zeta.
  pose proof (ManifestFacts.Split_manifestContent content bundleSymbolicName
                bundleName Hname Hsym) as Hsplit. cbv zeta in Hsplit.
  assert (Hout : ManifestView.outputLines
            (Deploy.manifestContent content bundleSymbolicName bundleName)
            (Deploy.lineEndingOf content)
            (Deploy.manifestResult content bundleSymbolicName bundleName)).
  { destruct Hsplit as [[_ E] | [_ E]]; [now left | now right]. }
  pose proof (ManifestFacts.manifestResult_spec content bundleSymbolicName
                bundleName) as HR. cbv zeta in HR.
  split; [apply ManifestFacts.HasSuffix_manifestContent |].
  split; [exact Hout |].
  split; [|split; [|split]].
  - intros Hone.
    assert (Hex : existsb Deploy.isBundleName
                    (GoStrings.Split content (Deploy.lineEndingOf content)) = true).
    { rewrite ManifestFacts.countBundleName_exists, Hone. reflexivity. }
    rewrite Hex in HR. cbn [app] in HR.
    assert (Hcount : Deploy.countBundleName
              (Deploy.manifestResult content bundleSymbolicName bundleName) = 1).
    { rewrite HR, ManifestFacts.countBundleName_app,
        ManifestFacts.countBundleName_rewrite, Hone.
      destruct (existsb Deploy.isBundleSymbolicName _); [reflexivity |].
      rewrite ManifestFacts.countBundleName_cons,
        ManifestFacts.isBundleName_symbolic. reflexivity. }
    assert (Hcanon : forall l,
              l ∈ Deploy.manifestResult content bundleSymbolicName bundleName ->
              Deploy.isBundleName l = true -> l = "Bundle-Name: " +:+ bundleName).
    { intros l Hl Hbn. rewrite HR in Hl. apply elem_of_app in Hl as [Hl | Hl].
      - apply list_elem_of_fmap in Hl as (l0 & -> & _).
        rewrite ManifestFacts.isBundleName_rewriteLine in Hbn.
        unfold ManifestView.rewriteLine. now rewrite Hbn.
      - destruct (existsb Deploy.isBundleSymbolicName _);
          [now apply elem_of_nil in Hl |].
        apply list_elem_of_singleton in Hl as ->.
        now rewrite ManifestFacts.isBundleName_symbolic in Hbn. }
    destruct Hout as [-> | ->].
    + split; assumption.
    + split.
      * now rewrite ManifestFacts.countBundleName_app, Hcount.
      * intros l Hl Hbn. apply elem_of_app in Hl as [Hl | Hl]; [auto |].
        apply list_elem_of_singleton in Hl as ->. discriminate.
  - intros Hex. rewrite Hex in HR.
    exists (ManifestView.rewriteLine bundleSymbolicName bundleName
              <$> GoStrings.Split content (Deploy.lineEndingOf content)).
    eexists. split; [exact HR |]. split; [apply length_fmap |].
    destruct (existsb Deploy.isBundleSymbolicName _); [now left | now right].
  - intros Hex. rewrite Hex in HR. rewrite app_assoc in HR. eauto.
  - apply ManifestFacts.lineEndingOf_manifestContent; assumption.
Qed.

Lemma C7_manifest_rewrite_witness :
  exists (content output : string) (fs1 : gmap string string),
    Scenarios.filesS1 !! "MANIFEST.MF" = Some content /\
    Some Scenarios.filesS1 = Some fs1 /\
    Some (<["out/MANIFEST.MF" := output]> fs1)
      = Some (<["out/MANIFEST.MF" :=
                 "Bundle-Name: A1" +:+ GoStrings.LF +:+
                 "Bundle-SymbolicName: A1" +:+ GoStrings.LF]> Scenarios.filesS1) /\
    Deploy.countBundleName
      (GoStrings.Split output (Deploy.lineEndingOf content)) = 1.
Proof.
  destruct (@C7_manifest_rewrite (gmap string string) MemFS.memPlatform
              "MANIFEST.MF" "A1" "A1" "out/MANIFEST.MF" Scenarios.filesS1
              (<["out/MANIFEST.MF" :=
                  "Bundle-Name: A1" +:+ GoStrings.LF +:+
                  "Bundle-SymbolicName: A1" +:+ GoStrings.LF]> Scenarios.filesS1))
    as (content & output & fs1 & Hread & Hmk & Hwrite & _ & _ & Hone & _).
  - reflexivity.
  - reflexivity.
  - vm_compute. reflexivity.
  - exists content, output, fs1.
    split; [exact Hread |]. split; [exact Hmk |]. split; [exact Hwrite |].
    apply Hone. cbn in Hread. injection Hread as <-. vm_compute. reflexivity.
Defined.

(** ** The batch client *)
Module BatchFacts.
Import GoStrings GoOS Batch.

(** With at least one operation, [Execute] builds the body and sends one
    request to the batch endpoint. *)
Lemma Execute_nonempty_events `{HTTPExecuter} (br : BatchRequest)
    (past : list event) :
  operations br <> [] ->
  exists req,
    q_Method req = "POST" /\ q_Path req = "/api/v1/$batch" /\
    q_Body req = buildBatchBody br /\
    (Execute br past).2 = past ++ [BodyBuilt (buildBatchBody br); RequestSent req].
Proof.
  intros Hne. unfold Execute.
  destruct (operations br) as [|op ops] eqn:Eops; [congruence |].
  cbn [length Nat.eqb].
  eexists. split; [|split; [|split]]; cycle 3.
  - destruct (ExecRequestWithCookies _ _) as [resp|e]; cbn [snd].
    + destruct (_ && _); cbn [snd]; rewrite <- app_assoc; reflexivity.
    + rewrite <- app_assoc. reflexivity.
  - reflexivity.
  - reflexivity.
  - reflexivity.
Qed.

End BatchFacts.

(** C10: [Execute] on a batch request whose operation list is empty returns
    a response with an empty operation list and no error, and emits no
    event: no body is built and no request is sent, whatever the transport
    and the boundaries are. *)
Theorem C10_execute_empty `{Batch.HTTPExecuter}
    (br : Batch.BatchRequest) (past : list Batch.event) :
  Batch.operations br = [] ->
  Batch.Execute br past = (GoOS.Ok (Batch.mkBatchResponse []), past).
Proof.
  intros Hops. unfold Batch.Execute. rewrite Hops. reflexivity.
Qed.

Lemma C10_execute_empty_witness :
  Batch.Execute (Batch.mkBatchRequest [] "batch_1" "changeset_2")
    [Batch.BodyBuilt "earlier"]
  = (GoOS.Ok (Batch.mkBatchResponse []), [Batch.BodyBuilt "earlier"]).
Proof.
  apply (@C10_execute_empty MemHTTP.downExecuter
           (Batch.mkBatchRequest [] "batch_1" "changeset_2")).
  reflexivity.
Defined.

(** The same transport is reached, and fails, as soon as the request has one
    operation. *)
Lemma Execute_one_operation_down :
  Batch.Execute
    (Batch.mkBatchRequest
       [Batch.mkBatchOperation "GET" "/StringParameters" "" "1" [] true]
       "batch_1" "changeset_2") []
  = (GoOS.Err "batch request failed: connection refused",
     [Batch.BodyBuilt
        (Batch.buildBatchBody
           (Batch.mkBatchRequest
              [Batch.mkBatchOperation "GET" "/StringParameters" "" "1" [] true]
              "batch_1" "changeset_2"));
      Batch.RequestSent
        (Batch.mkHTTPRequest "POST" "/api/v1/$batch"
           (Batch.buildBatchBody
              (Batch.mkBatchRequest
                 [Batch.mkBatchOperation "GET" "/StringParameters" "" "1" [] true]
                 "batch_1" "changeset_2"))
           [("Content-Type", "multipart/mixed; boundary=batch_1");
            ("Accept", "multipart/mixed")])]).
Proof. vm_compute. reflexivity. Qed.

(** ** Commands *)
Module CmdFacts.
Import Cmd.

Section Traces.
Context {W E : Type}.

Local Abbreviation M := (M (W := W) (E := E)).
Local Abbreviation emits := (emits (W := W) (E := E)).
Local Abbreviation trace := (trace (W := W) (E := E)).

Lemma trace_bind {A B} (m : M A) (k : A -> M B) (w : W) :
  trace (bind m k) w = trace m w ++ trace (k (m w).1.1) (m w).1.2.
Proof.
  unfold trace, bind. destruct (m w) as [[a w1] t1]. cbn.
  now destruct (k a w1) as [[b w2] t2].
Qed.

Lemma emits_ret {A} (P : E -> Prop) (a : A) : emits P (ret a).
Proof. intros w. constructor. Qed.

Lemma emits_bind {A B} (P : E -> Prop) (m : M A) (k : A -> M B) :
  emits P m -> (forall a, emits P (k a)) -> emits P (bind m k).
Proof.
  intros Hm Hk w. rewrite trace_bind. apply Forall_app_2; [apply Hm | apply Hk].
Qed.

Lemma emits_call {A} (P : E -> Prop) (ev : A -> E) (f : W -> A * W) :
  (forall a, P (ev a)) -> emits P (call ev f).
Proof.
  intros Hev w. unfold trace, call. destruct (f w) as [a w1]. cbn.
  constructor; [apply Hev | constructor].
Qed.

Lemma emits_forEach {A R} (P : E -> Prop) (l : list A)
    (body : A -> R -> M R) (r : R) :
  (forall a r, a ∈ l -> emits P (body a r)) -> emits P (forEach l body r).
Proof.
  revert r. induction l as [|a l IH]; intros r Hbody; cbn [forEach].
  - apply emits_ret.
  - apply emits_bind; [apply Hbody; left |].
    intros r'. apply IH. intros a' r'' Hin. apply Hbody. now right.
Qed.

Lemma emits_impl {A} (P Q : E -> Prop) (m : M A) :
  (forall e, P e -> Q e) -> emits P m -> emits Q m.
Proof. intros HPQ Hm w. eapply Forall_impl; [apply Hm | exact HPQ]. Qed.

Lemma trace_call {A} (ev : A -> E) (f : W -> A * W) (w : W) :
  trace (call ev f) w = [ev (f w).1].
Proof. unfold trace, call. now destruct (f w). Qed.

Lemma trace_ret {A} (a : A) (w : W) : trace (ret a) w = [].
Proof. reflexivity. Qed.

End Traces.

(** Steps through a command made of [bind], [call], [ret] and case
    distinctions. *)
Ltac emits_step :=
  match goal with
  | |- emits _ (ret _) => apply emits_ret
  | |- emits _ (bind _ _) => apply emits_bind; [|intros ?]
  | |- emits _ (call _ _) => apply emits_call; intros ?
  | |- emits _ (match ?x with _ => _ end) => destruct x
  | |- emits _ (if ?b then _ else _) => destruct b
  end.

End CmdFacts.

(** ** The Partner Directory deploy command *)
Module PDDeployFacts.
Import GoStrings GoOS Repo Cmd CmdFacts PDDeploy PDDeployView.

Section Deploy.
Context {W : Type} `{PartnerDirectoryAPI W}.

Local Abbreviation emits := (emits (W := W) (E := event)).
Local Abbreviation trace := (trace (W := W) (E := event)).

Lemma deployStringParameters_no_delete (pdRepo : LocalRepo)
    (replace dryRun : bool) (pidsFilter : list string) :
  emits (fun e => isDelete e = false)
        (deployStringParameters pdRepo replace dryRun pidsFilter).
Proof.
  unfold deployStringParameters.
  destruct (GetLocalPIDs pdRepo); [|apply emits_ret].
  apply emits_bind; [|intros ?; apply emits_ret].
  apply emits_forEach. intros pid r _.
  destruct (ReadStringParameters pdRepo pid); [|apply emits_ret].
  apply emits_forEach. intros param r' _.
  unfold deployStringParameter. repeat emits_step; reflexivity.
Qed.

Lemma deployBinaryParameters_no_delete (pdRepo : LocalRepo)
    (replace dryRun : bool) (pidsFilter : list string) :
  emits (fun e => isDelete e = false)
        (deployBinaryParameters pdRepo replace dryRun pidsFilter).
Proof.
  unfold deployBinaryParameters.
  destruct (GetLocalPIDs pdRepo); [|apply emits_ret].
  apply emits_bind; [|intros ?; apply emits_ret].
  apply emits_forEach. intros pid r _.
  destruct (ReadBinaryParameters pdRepo pid); [|apply emits_ret].
  apply emits_forEach. intros param r' _.
  unfold deployBinaryParameter. repeat emits_step; reflexivity.
Qed.

End Deploy.

(** *** The local IDs *)

Lemma contains_elem_of (l : list string) (s : string) :
  contains l s = true <-> s ∈ l.
Proof.
  unfold contains. rewrite existsb_exists. split.
  - intros (x & Hin & Heq). apply String.eqb_eq in Heq as ->.
    now apply list_elem_of_In.
  - intros Hin. exists s. split; [now apply list_elem_of_In | apply String.eqb_refl].
Qed.

Lemma localIDs_lookup (read : string -> result (list string))
    (l : list string) (m : gmap string (gset string)) (pid : string) :
  let m' := foldl (fun m pid =>
                     match read pid with
                     | Err _ => m
                     | Ok ids => addLocal pid ids m
                     end) m l in
  (is_Some (m' !! pid) <->
     is_Some (m !! pid) \/ (pid ∈ l /\ exists ids, read pid = Ok ids)) /\
  (forall id, id ∈ default ∅ (m' !! pid) <->
     id ∈ default ∅ (m !! pid) \/
     (pid ∈ l /\ exists ids, read pid = Ok ids /\ id ∈ ids)).
Proof.
  cbv zeta. revert m. induction l as [|p l IH]; intros m; cbn [foldl].
  - split; [|intros id]; rewrite elem_of_nil; tauto.
  - destruct (IH (match read p with Err _ => m | Ok ids => addLocal p ids m end))
      as [IH1 IH2].
    split; [rewrite IH1 | intros id; rewrite IH2]; clear IH IH1 IH2;
      rewrite elem_of_cons; destruct (read p) as [ids|e] eqn:Ep.
    + unfold addLocal. destruct (decide (p = pid)) as [->|Hne].
      * rewrite lookup_insert_eq. split; [|intros _; eauto].
        intros _. right. split; [now left | eauto].
      * rewrite lookup_insert_ne by assumption. split.
        -- intros [?|[? ?]]; [now left | right; split; [now right | assumption]].
        -- intros [?|[[->|?] ?]]; [now left | congruence | right; now split].
    + split.
      * intros [?|[? ?]]; [now left | right; split; [now right | assumption]].
      * intros [?|[[->|?] [ids Hids]]]; [now left | congruence | right; split; eauto].
    + unfold addLocal. destruct (decide (p = pid)) as [->|Hne].
      * rewrite lookup_insert_eq. cbn [default]. unfold Datatypes.id.
        rewrite elem_of_union, elem_of_list_to_set.
        split.
        -- intros [[?|?]|(? & ids' & ? & ?)]; [|now left|right; split; [now right|eauto]].
           right. split; [now left | eauto].
        -- intros [?|[[_|?] (ids' & Hids & Hin)]].
           ++ left. now right.
           ++ left. left. congruence.
           ++ right. split; eauto.
      * rewrite lookup_insert_ne by assumption. split.
        -- intros [?|[? ?]]; [now left | right; split; [now right | assumption]].
        -- intros [?|[[->|?] ?]]; [now left | congruence | right; now split].
    + split.
      * intros [?|[? ?]]; [now left | right; split; [now right | assumption]].
      * intros [?|[[->|?] (ids & Hids & ?)]]; [now left | congruence | right; split; eauto].
Qed.

Lemma notLocal_absent (read : string -> result (list string))
    (managedPIDs : list string) (pid id : string) :
  contains managedPIDs pid = true ->
  notLocal (localIDs read managedPIDs) pid id = true ->
  forall ids, read pid = Ok ids -> id ∉ ids.
Proof.
  intros Hc Hn ids Hread Hin. apply contains_elem_of in Hc.
  destruct (localIDs_lookup read managedPIDs ∅ pid) as [H1 H2].
  fold (localIDs read managedPIDs) in H1, H2.
  unfold notLocal in Hn.
  destruct (localIDs read managedPIDs !! pid) as [s|] eqn:E.
  - apply negb_true_iff, bool_decide_eq_false in Hn. apply Hn.
    apply (H2 id). right. eauto.
  - assert (Hs : is_Some (None : option (gset string))).
    { apply H1. right. eauto. }
    now destruct Hs.
Qed.

Section Delete.
Context {W : Type} `{PartnerDirectoryAPI W}.

Local Abbreviation emits := (emits (W := W) (E := event)).
Local Abbreviation trace := (trace (W := W) (E := event)).
Variable pdRepo : LocalRepo.
Variable managedPIDs : list string.

Local Abbreviation deletesString := (deletesString pdRepo managedPIDs).
Local Abbreviation deletesBinary := (deletesBinary pdRepo managedPIDs).
Local Abbreviation deletionTrace := (deletionTrace pdRepo managedPIDs).

Lemma deleteRemoteEntriesNotInLocal_trace (w : W) :
  deletionTrace (trace (deleteRemoteEntriesNotInLocal pdRepo managedPIDs) w).
Proof.
  unfold deleteRemoteEntriesNotInLocal. rewrite trace_bind, trace_call.
  destruct (call _ _ w) as [[res1 w1] t1] eqn:Ecall.
  assert (Eres : (GetStringParameters "Pid,Id" w).1 = res1).
  { unfold call in Ecall. destruct (GetStringParameters "Pid,Id" w).
    now injection Ecall as -> _ _. }
  rewrite Eres. cbn [fst snd].
  destruct res1 as [l1|e]; [|rewrite trace_ret; apply dt_strings_failed].
  rewrite trace_bind.
  match goal with |- context [trace (forEach l1 ?b ?r) w1] =>
    assert (Hloop1 : emits (deletesString l1) (forEach l1 b r)) end.
  { apply emits_forEach. intros p r Hp.
    destruct (contains managedPIDs (sp_Pid p)) eqn:Ec; cbn [negb];
      [|apply emits_ret].
    destruct (notLocal _ _ _) eqn:En; [|apply emits_ret].
    apply emits_bind.
    - apply emits_call. intros _. exists p. repeat split; assumption.
    - intros [e|]; apply emits_ret. }
  specialize (Hloop1 w1). set (T1 := trace (forEach l1 _ _) w1) in *.
  destruct (forEach l1 _ _ w1) as [[r1 w2] t] eqn:Eloop. cbn [fst snd].
  rewrite trace_bind, trace_call.
  destruct (call _ _ w2) as [[res2 w3] t2] eqn:Ecall2.
  assert (Eres2 : (GetBinaryParameters "Pid,Id" w2).1 = res2).
  { unfold call in Ecall2. destruct (GetBinaryParameters "Pid,Id" w2).
    now injection Ecall2 as -> _ _. }
  rewrite Eres2. cbn [fst snd app].
  destruct res2 as [l2|e]; [|rewrite trace_ret; now apply dt_binaries_failed].
  rewrite trace_bind.
  match goal with |- context [trace (forEach l2 ?b ?r) w3] =>
    assert (Hloop2 : emits (deletesBinary l2) (forEach l2 b r)) end.
  { apply emits_forEach. intros p r Hp.
    destruct (contains managedPIDs (bp_Pid p)) eqn:Ec; cbn [negb];
      [|apply emits_ret].
    destruct (notLocal _ _ _) eqn:En; [|apply emits_ret].
    apply emits_bind.
    - apply emits_call. intros _. exists p. repeat split; assumption.
    - intros [e|]; apply emits_ret. }
  specialize (Hloop2 w3). rewrite trace_ret, app_nil_r.
  now apply dt_both.
Qed.

(** What a deletion in such a trace is about. *)
Lemma deletionTrace_string (T : list event) (pid id : string) :
  deletionTrace T -> EvDeleteStringParameter pid id ∈ T ->
  contains managedPIDs pid = true /\
  notLocal (localStringParams pdRepo managedPIDs) pid id = true /\
  exists l p, EvGetStringParameters "Pid,Id" (Ok l) ∈ T /\ p ∈ l /\
              sp_Pid p = pid /\ sp_ID p = id.
Proof.
  intros HT Hin.
  assert (Hfrom : forall l1 T1, Forall (deletesString l1) T1 ->
            EvDeleteStringParameter pid id ∈ T1 ->
            contains managedPIDs pid = true /\
            notLocal (localStringParams pdRepo managedPIDs) pid id = true /\
            exists p, p ∈ l1 /\ sp_Pid p = pid /\ sp_ID p = id).
  { intros l1 T1 HF Hd. rewrite Forall_forall in HF.
    destruct (HF _ Hd) as (p & Hp & [= -> ->] & Hc & Hn). eauto 10. }
  assert (Hnot : forall l2 T2, Forall (deletesBinary l2) T2 ->
            EvDeleteStringParameter pid id ∉ T2).
  { intros l2 T2 HF Hd. rewrite Forall_forall in HF.
    destruct (HF _ Hd) as (p & _ & Heq & _). discriminate. }
  destruct HT as [e | l1 T1 e HF1 | l1 T1 l2 T2 HF1 HF2].
  - apply list_elem_of_singleton in Hin. discriminate.
  - apply elem_of_cons in Hin as [Hin|Hin]; [discriminate |].
    apply elem_of_app in Hin as [Hin|Hin].
    + destruct (Hfrom _ _ HF1 Hin) as (Hc & Hn & p & Hp & Hpid & Hid).
      split; [assumption |]. split; [assumption |].
      exists l1, p. split; [left | auto].
    + apply list_elem_of_singleton in Hin. discriminate.
  - apply elem_of_cons in Hin as [Hin|Hin]; [discriminate |].
    apply elem_of_app in Hin as [Hin|Hin].
    + destruct (Hfrom _ _ HF1 Hin) as (Hc & Hn & p & Hp & Hpid & Hid).
      split; [assumption |]. split; [assumption |].
      exists l1, p. split; [left | auto].
    + apply elem_of_cons in Hin as [Hin|Hin]; [discriminate |].
      now apply Hnot in HF2.
Qed.

Lemma deletionTrace_binary (T : list event) (pid id : string) :
  deletionTrace T -> EvDeleteBinaryParameter pid id ∈ T ->
  contains managedPIDs pid = true /\
  notLocal (localBinaryParams pdRepo managedPIDs) pid id = true /\
  exists l p, EvGetBinaryParameters "Pid,Id" (Ok l) ∈ T /\ p ∈ l /\
              bp_Pid p = pid /\ bp_ID p = id.
Proof.
  intros HT Hin.
  assert (Hnot : forall l1 T1, Forall (deletesString l1) T1 ->
            EvDeleteBinaryParameter pid id ∉ T1).
  { intros l1 T1 HF Hd. rewrite Forall_forall in HF.
    destruct (HF _ Hd) as (p & _ & Heq & _). discriminate. }
  destruct HT as [e | l1 T1 e HF1 | l1 T1 l2 T2 HF1 HF2].
  - apply list_elem_of_singleton in Hin. discriminate.
  - apply elem_of_cons in Hin as [Hin|Hin]; [discriminate |].
    apply elem_of_app in Hin as [Hin|Hin]; [now apply Hnot in HF1 |].
    apply list_elem_of_singleton in Hin. discriminate.
  - apply elem_of_cons in Hin as [Hin|Hin]; [discriminate |].
    apply elem_of_app in Hin as [Hin|Hin]; [now apply Hnot in HF1 |].
    apply elem_of_cons in Hin as [Hin|Hin]; [discriminate |].
    rewrite Forall_forall in HF2.
    destruct (HF2 _ Hin) as (p & Hp & [= -> ->] & Hc & Hn).
    split; [assumption |]. split; [assumption |].
    exists l2, p. split; [|auto].
    right. apply elem_of_app. right. left.
Qed.

End Delete.

Lemma filterPIDs_subset (pids filter : list string) (pid : string) :
  pid ∈ filterPIDs pids filter -> pid ∈ pids.
Proof.
  unfold filterPIDs. destruct filter; [tauto |].
  intros Hin. apply list_elem_of_In, List.filter_In in Hin as [Hin _].
  now apply list_elem_of_In.
Qed.

Lemma filterPIDs_filter (pids filter : list string) (pid : string) :
  filter <> [] -> pid ∈ filterPIDs pids filter -> pid ∈ filter.
Proof.
  unfold filterPIDs. destruct filter; [congruence |]. intros _ Hin.
  apply list_elem_of_In, List.filter_In in Hin as [_ Hin].
  now apply contains_elem_of.
Qed.

End PDDeployFacts.

Module PDDeployRun.
Import GoStrings GoOS Repo Cmd CmdFacts PDDeploy PDDeployView PDDeployFacts.

Section Run.
Context {W : Type} `{PartnerDirectoryAPI W}.

Local Abbreviation trace := (trace (W := W) (E := event)).

(** A run of [deployPartnerDirectory] emits events without deletion, then,
    only for a full sync that is not a dry run, those of
    [deleteRemoteEntriesNotInLocal] on the managed partner IDs. *)
Lemma deployPartnerDirectory_trace (pdRepo : LocalRepo)
    (replace fullSync dryRun : bool) (pidsFilter : list string) (w : W) :
  exists Tpre Td,
    trace (deployPartnerDirectory pdRepo replace fullSync dryRun pidsFilter) w
      = Tpre ++ Td /\
    Forall (fun e => isDelete e = false) Tpre /\
    (Td = [] \/
     fullSync = true /\ dryRun = false /\
     exists pids, GetLocalPIDs pdRepo = Ok pids /\
       deletionTrace pdRepo
         (if (0 <? length pidsFilter)%nat then filterPIDs pids pidsFilter else pids)
         Td).
Proof.
  unfold deployPartnerDirectory.
  destruct (GetLocalPIDs pdRepo) as [pids|e] eqn:Epids.
  2:{ exists [], []. repeat split; [constructor | now left]. }
  destruct (_ && _).
  { exists [], []. repeat split; [constructor | now left]. }
  rewrite trace_bind.
  pose proof (deployStringParameters_no_delete pdRepo replace dryRun pidsFilter w)
    as Hs.
  destruct (deployStringParameters pdRepo replace dryRun pidsFilter w)
    as [[sres w1] Ts] eqn:Es.
  unfold Cmd.trace in Hs. rewrite Es in Hs. cbn [fst snd] in Hs |- *.
  unfold Cmd.trace at 1. rewrite Es. cbn [snd].
  destruct sres as [sres|e].
  2:{ exists Ts, []. rewrite trace_ret. repeat split; [assumption | now left]. }
  rewrite trace_bind.
  pose proof (deployBinaryParameters_no_delete pdRepo replace dryRun pidsFilter w1)
    as Hb.
  destruct (deployBinaryParameters pdRepo replace dryRun pidsFilter w1)
    as [[bres w2] Tb] eqn:Eb.
  unfold Cmd.trace in Hb. rewrite Eb in Hb. cbn [fst snd] in Hb |- *.
  unfold Cmd.trace at 1. rewrite Eb. cbn [snd].
  destruct bres as [bres|e].
  2:{ exists (Ts ++ Tb), []. rewrite trace_ret, !app_nil_r.
      repeat split; [now apply Forall_app_2 | now left]. }
  destruct fullSync, dryRun; cbn [andb negb];
    try (exists (Ts ++ Tb), []; rewrite trace_ret, !app_nil_r;
         repeat split; [now apply Forall_app_2 | now left]).
  rewrite trace_bind.
  pose proof (deleteRemoteEntriesNotInLocal_trace pdRepo
                (if (0 <? length pidsFilter)%nat
                 then filterPIDs pids pidsFilter else pids) w2) as Hd.
  set (Td := Cmd.trace (deleteRemoteEntriesNotInLocal _ _) w2) in *.
  exists (Ts ++ Tb), Td. split.
  - destruct (deleteRemoteEntriesNotInLocal _ _ w2) as [[[d|e] w3] t];
      cbn [fst snd]; rewrite trace_ret, app_nil_r, app_assoc; reflexivity.
  - split; [now apply Forall_app_2 |]. right. eauto.
Qed.

End Run.

End PDDeployRun.

(** The deletions of a run, for every repository: each happens with
    [fullSync] set and [dryRun] unset; its partner ID is one of the partner
    IDs [GetLocalPIDs] returns (and passes the filter, when there is one);
    its parameter ID is not among the parameters read for that partner, when
    they can be read; and it is a record of the listing of the remote
    parameters made just before. *)
Lemma deployPartnerDirectory_deletions {W : Type} `{PDDeploy.PartnerDirectoryAPI W}
    (pdRepo : PDDeploy.LocalRepo) (replace fullSync dryRun : bool)
    (pidsFilter : list string) (w : W) (pid id : string) :
  let T := Cmd.trace
             (PDDeploy.deployPartnerDirectory pdRepo replace fullSync dryRun
                pidsFilter) w in
  (PDDeploy.EvDeleteStringParameter pid id ∈ T ->
     fullSync = true /\ dryRun = false /\
     (exists pids, PDDeploy.GetLocalPIDs pdRepo = GoOS.Ok pids /\ pid ∈ pids) /\
     (pidsFilter <> [] -> pid ∈ pidsFilter) /\
     (forall params, PDDeploy.ReadStringParameters pdRepo pid = GoOS.Ok params ->
                     id ∉ Repo.sp_ID <$> params) /\
     (exists listing p,
        PDDeploy.EvGetStringParameters "Pid,Id" (GoOS.Ok listing) ∈ T /\
        p ∈ listing /\ Repo.sp_Pid p = pid /\ Repo.sp_ID p = id)) /\
  (PDDeploy.EvDeleteBinaryParameter pid id ∈ T ->
     fullSync = true /\ dryRun = false /\
     (exists pids, PDDeploy.GetLocalPIDs pdRepo = GoOS.Ok pids /\ pid ∈ pids) /\
     (pidsFilter <> [] -> pid ∈ pidsFilter) /\
     (forall params, PDDeploy.ReadBinaryParameters pdRepo pid = GoOS.Ok params ->
                     id ∉ Repo.bp_ID <$> params) /\
     (exists listing p,
        PDDeploy.EvGetBinaryParameters "Pid,Id" (GoOS.Ok listing) ∈ T /\
        p ∈ listing /\ Repo.bp_Pid p = pid /\ Repo.bp_ID p = id)).
Proof.
  cbv zeta.
  destruct (PDDeployRun.deployPartnerDirectory_trace pdRepo replace fullSync
              dryRun pidsFilter w) as (Tpre & Td & -> & Hpre & Hd).
  assert (Hmanaged : forall pids,
            PDDeploy.contains
              (if (0 <? length pidsFilter)%nat
               then PDDeploy.filterPIDs pids pidsFilter else pids) pid = true ->
            pid ∈ pids /\ (pidsFilter <> [] -> pid ∈ pidsFilter)).
  { intros pids Hc. apply PDDeployFacts.contains_elem_of in Hc.
    destruct pidsFilter as [|f fs]; cbn [length Nat.ltb Nat.leb] in Hc.
    - split; [assumption | congruence].
    - split; [eapply PDDeployFacts.filterPIDs_subset; eassumption |].
      intros _. eapply PDDeployFacts.filterPIDs_filter; [|eassumption].
      discriminate. }
  rewrite Forall_forall in Hpre.
  split; intros Hin; apply elem_of_app in Hin as [Hin|Hin];
    try (apply Hpre in Hin; discriminate);
    (destruct Hd as [-> | (-> & -> & pids & Hpids & Hd)];
       [now apply elem_of_nil in Hin |]).
  - destruct (PDDeployFacts.deletionTrace_string _ _ _ _ _ Hd Hin)
      as (Hc & Hn & l & p & Hl & Hp & Hpid & Hid).
    destruct (Hmanaged _ Hc) as [Hpid' Hfilter].
    repeat split; eauto.
    + intros params Hread.
      eapply (PDDeployFacts.notLocal_absent _ _ _ _ Hc Hn).
      cbn. now rewrite Hread.
    + exists l, p. repeat split; try assumption.
      apply elem_of_app. now right.
  - destruct (PDDeployFacts.deletionTrace_binary _ _ _ _ _ Hd Hin)
      as (Hc & Hn & l & p & Hl & Hp & Hpid & Hid).
    destruct (Hmanaged _ Hc) as [Hpid' Hfilter].
    repeat split; eauto.
    + intros params Hread.
      eapply (PDDeployFacts.notLocal_absent _ _ _ _ Hc Hn).
      cbn. now rewrite Hread.
    + exists l, p. repeat split; try assumption.
      apply elem_of_app. now right.
Qed.

Module PDDeployScenarios.
Import GoStrings GoOS Repo Cmd PDDeploy PDDeployView Scenarios.

(** S5: the only deletion is that of [P1/s2]; [P2/x1] is left alone. *)
Example S5_events :
  trace (deployPartnerDirectory repoS5 true true false []) tenantS5 =
  [ EvGetStringParameter "P1" "s1";
    EvGetStringParameters "Pid,Id" (Ok (MemTenant.strings tenantS5));
    EvDeleteStringParameter "P1" "s2";
    EvGetBinaryParameters "Pid,Id" (Ok []) ].
Proof. vm_compute. reflexivity. Qed.

Example S5_tenant_after :
  MemTenant.strings
    (deployPartnerDirectory repoS5 true true false [] tenantS5).1.2 =
  [ mkStringParameter "P1" "s1" "v1"; mkStringParameter "P2" "x1" "v3" ].
Proof. vm_compute. reflexivity. Qed.

(** Without [fullSync], or in a dry run, nothing is deleted. *)
Example S5_no_full_sync :
  trace (deployPartnerDirectory repoS5 true false false []) tenantS5 =
  [ EvGetStringParameter "P1" "s1" ] /\
  trace (deployPartnerDirectory repoS5 true true true []) tenantS5 =
  [ EvGetStringParameter "P1" "s1" ].
Proof. vm_compute. split; reflexivity. Qed.

End PDDeployScenarios.

Module RepoReadFacts.
Import GoStrings GoStringsMore GoOS Repo RepoFile RepoRead RepoReadView.

Section Read.
Context {FS : Type} `{Platform FS} `{Tree FS}.

Lemma GetLocalPIDs_isLocalPID (resourcesPath : string) (fs : FS)
    (pids : list string) (pid : string) :
  GetLocalPIDs resourcesPath fs = Ok pids -> pid ∈ pids ->
  isLocalPID resourcesPath fs pid.
Proof.
  unfold GetLocalPIDs, isLocalPID.
  destruct (ReadDir resourcesPath fs) as [entries| |e]; intros [= <-] Hin.
  - exists entries. split; [reflexivity |].
    unfold sortStrings in Hin. rewrite merge_sort_Permutation in Hin.
    apply list_elem_of_fmap in Hin as (e & -> & He).
    apply list_elem_of_In, List.filter_In in He as [He Hd].
    apply list_elem_of_In in He. destruct e as [n d]. cbn in Hd |- *.
    now subst d.
  - now apply elem_of_nil in Hin.
Qed.

Variables (pid binaryDir : string) (metadata : gmap string string) (fs : FS).

Local Abbreviation step := (readBinaryEntry pid binaryDir metadata fs).

Lemma readBinaryEntry_keeps (st : list BinaryParameter * gset string)
    (entry : DirEntry) (id : string) :
  id ∈ bp_ID <$> st.1 -> id ∈ bp_ID <$> (step st entry).1.
Proof.
  intros Hin. unfold readBinaryEntry.
  destruct (_ || _); [exact Hin |].
  destruct (bool_decide _); [exact Hin |].
  destruct (ReadFile _ fs); [|exact Hin].
  cbn [fst]. rewrite fmap_app. apply elem_of_app. now left.
Qed.

Lemma readBinaryEntries_keep (entries : list DirEntry)
    (st : list BinaryParameter * gset string) (id : string) :
  id ∈ bp_ID <$> st.1 -> id ∈ bp_ID <$> (foldl step st entries).1.
Proof.
  revert st. induction entries as [|e entries IH]; intros st Hin; [exact Hin |].
  cbn [foldl]. apply IH. now apply readBinaryEntry_keeps.
Qed.

(** The first file that stands for an ID not seen yet gives a parameter
    with this ID when it can be read. *)
Lemma readBinaryEntries_reads (entries : list DirEntry)
    (st : list BinaryParameter * gset string) (id : string)
    (entry : DirEntry) (data : string) :
  id ∉ st.2 ->
  List.find (fileFor id) entries = Some entry ->
  ReadFile (filepathJoin binaryDir (Name entry)) fs = Some data ->
  id ∈ bp_ID <$> (foldl step st entries).1.
Proof.
  revert st. induction entries as [|e entries IH]; intros st Hseen;
    [discriminate |].
  cbn [List.find foldl]. unfold fileFor at 1.
  destruct (IsDir e || String.eqb (Name e) metadataFileName) eqn:Ef;
    cbn [negb andb].
  { intros Hfind Hread. unfold readBinaryEntry at 2. rewrite Ef.
    now apply IH. }
  destruct (String.eqb_spec (removeFileExtension (Name e)) id) as [Eid|Hne].
  - intros [= <-] Hread. apply readBinaryEntries_keep.
    unfold readBinaryEntry. rewrite Ef, Eid.
    rewrite bool_decide_eq_false_2 by exact Hseen. rewrite Hread.
    cbn [fst]. rewrite fmap_app. apply elem_of_app. right. cbn. left.
  - intros Hfind Hread. apply IH; [|exact Hfind | exact Hread].
    unfold readBinaryEntry. rewrite Ef.
    destruct (bool_decide _); [exact Hseen |].
    assert (Hnew : id ∉ ({[removeFileExtension (Name e)]} ∪ st.2 : gset string)).
    { intros Hin. apply elem_of_union in Hin as [Hin|Hin]; [|contradiction].
      apply elem_of_singleton in Hin. congruence. }
    destruct (ReadFile (filepathJoin binaryDir (Name e)) fs); exact Hnew.
Qed.

End Read.

Section Files.
Context {FS : Type} `{Platform FS} `{Tree FS}.

(** An ID that [ReadBinaryParameters] does not return has no readable first
    file. *)
Lemma ReadBinaryParameters_absent (resourcesPath pid : string) (fs : FS)
    (params : list BinaryParameter) (id : string)
    (entries : list DirEntry) (entry : DirEntry) :
  ReadBinaryParameters resourcesPath pid fs = Ok params ->
  id ∉ bp_ID <$> params ->
  dirExists (binaryDirOf resourcesPath pid) fs = true ->
  ReadDir (binaryDirOf resourcesPath pid) fs = Entries entries ->
  List.find (fileFor id) entries = Some entry ->
  ReadFile (filepathJoin (binaryDirOf resourcesPath pid) (Name entry)) fs = None.
Proof.
  unfold ReadBinaryParameters, binaryDirOf. intros Hread Hnot Hdir Hentries Hfind.
  rewrite Hdir, Hentries in Hread. cbn [negb] in Hread.
  destruct (ReadFile (filepathJoin _ (Name entry)) fs) as [data|] eqn:Ef;
    [|reflexivity].
  exfalso. apply Hnot.
  destruct (if fileExists _ fs then _ else _) as [metadata|e]; [|discriminate].
  injection Hread as <-.
  eapply readBinaryEntries_reads; [|exact Hfind | exact Ef].
  apply not_elem_of_empty.
Qed.

(** An ID that [ReadStringParameters] does not return is the key of no
    line of the properties file. *)
Lemma ReadStringParameters_absent (resourcesPath pid : string) (fs : FS)
    (params : list StringParameter) (id : string) (data line v : string) :
  ReadStringParameters resourcesPath pid fs = Ok params ->
  id ∉ sp_ID <$> params ->
  fileExists (propertiesFileOf resourcesPath pid) fs = true ->
  ReadFile (propertiesFileOf resourcesPath pid) fs = Some data ->
  line ∈ Split data LF ->
  parsePropertyLine line <> Some (id, v).
Proof.
  unfold ReadStringParameters, propertiesFileOf, readPropertiesFile.
  intros Hread Hnot Hex Hdata Hline Hparse.
  rewrite Hex, Hdata in Hread. cbn [negb] in Hread. injection Hread as <-.
  apply Hnot. unfold parseProperties.
  apply list_elem_of_fmap.
  exists (mkStringParameter pid id (unescapePropertyValue v)).
  split; [reflexivity |].
  apply list_elem_of_omap. exists line. split; [exact Hline |].
  now rewrite Hparse.
Qed.

End Files.

End RepoReadFacts.


Module TreeScenarioFacts.
Import GoStrings GoOS Repo Cmd PDDeploy RepoRead MemTree ScenariosTree.

Example S5_tree_events :
  trace (deployPartnerDirectory (localRepo "pd" treeS5) true true false [])
        Scenarios.tenantS5 =
  [ EvGetStringParameter "P1" "s1";
    EvGetStringParameters "Pid,Id" (Ok (MemTenant.strings Scenarios.tenantS5));
    EvDeleteStringParameter "P1" "s2";
    EvGetBinaryParameters "Pid,Id" (Ok []) ].
Proof. vm_compute. reflexivity. Qed.

End TreeScenarioFacts.



(** C4 (the code departs from the claim): with [replace] set, a local binary
    parameter whose value equals the remote one and whose content type
    differs is classified Unchanged by [deployBinaryParameters], and no
    update is sent; [BatchSyncBinaryParameters] compares the content type as
    well and does not classify it so. *)
Theorem C4_content_type_ignored :
  PDDeploy.deployBinaryParameters Scenarios.repoBinary true false []
    Scenarios.tenantBinary
  = (GoOS.Ok (PDDeploy.mkBatchResult [] [] ["P1/b"] [] []),
     Scenarios.tenantBinary,
     [PDDeploy.EvGetBinaryParameter "P1" "b"]) /\
  Repo.bp_ContentType Scenarios.localBinary
    <> Repo.bp_ContentType Scenarios.remoteBinary /\
  PDDeploy.batchSyncUnchanged Scenarios.remoteBinary Scenarios.localBinary = false.
Proof. vm_compute. repeat split; try reflexivity. discriminate. Qed.

(** ** Phase 1 of the orchestrator *)
Module OrchestratorFacts.
Import GoStrings GoOS Models Cmd CmdFacts Orchestrator OrchestratorView.

Section Returns.
Context {W E : Type}.

Local Abbreviation M := (Cmd.M (W := W) (E := E)).
Local Abbreviation returns := (returns (W := W) (E := E)).

Lemma returns_ret {A} (Q : A -> Prop) (a : A) : Q a -> returns Q (ret a).
Proof. intros Ha w. exact Ha. Qed.

Lemma returns_bind {A B} (P : A -> Prop) (Q : B -> Prop) (m : M A) (k : A -> M B) :
  returns P m -> (forall a, P a -> returns Q (k a)) -> returns Q (bind m k).
Proof.
  intros Hm Hk w. unfold bind. specialize (Hm w).
  destruct (m w) as [[a w1] t1]. cbn in Hm. specialize (Hk a Hm w1).
  now destruct (k a w1) as [[b w2] t2].
Qed.

Lemma returns_bind_any {A B} (Q : B -> Prop) (m : M A) (k : A -> M B) :
  (forall a, returns Q (k a)) -> returns Q (bind m k).
Proof.
  intros Hk. apply (returns_bind (fun _ => True)); [easy | auto].
Qed.

Lemma returns_forEach {A R} (I : R -> Prop) (l : list A)
    (body : A -> R -> M R) (r : R) :
  (forall a r, I r -> returns I (body a r)) -> I r ->
  returns I (forEach l body r).
Proof.
  intros Hbody. revert r. induction l as [|a l IH]; intros r Hr; cbn [forEach].
  - now apply returns_ret.
  - apply (returns_bind I); [now apply Hbody | exact IH].
Qed.

End Returns.

(** Steps through a command whose intermediate results do not matter. *)
Ltac returns_step :=
  match goal with
  | |- returns _ (ret _) => apply returns_ret
  | |- returns _ (bind _ _) => apply returns_bind_any; intros ?
  | |- returns _ (match ?x with _ => _ end) => destruct x
  | |- returns _ (if ?b then _ else _) => destruct b
  end.

Section Phase1.
Context {W : Type} `{Outside W}.

Local Abbreviation M := (Cmd.M (W := W) (E := event)).
Local Abbreviation returns := (returns (W := W) (E := event)).
Local Abbreviation emits := (emits (W := W) (E := event)).
Local Abbreviation trace := (trace (W := W) (E := event)).

Lemma trace_look {A} (f : W -> A) (w : W) : trace (look f) w = [].
Proof. reflexivity. Qed.

(** [updatePackage] touches no artifact. *)
Lemma updatePackage_events (pkg : Package) (id name workDir : string)
    (sd : option ServiceDetails) :
  emits (fun e => isArtifactEvent e = false) (updatePackage pkg id name workDir sd).
Proof. unfold updatePackage. repeat emits_step; reflexivity. Qed.

(** An error of the package syncer is not an error of [updatePackage]:
    once the package file is written, [updatePackage] returns nil. *)
Lemma updatePackage_syncer_error_ignored (pkg : Package) (id name workDir : string)
    (sd : ServiceDetails) (jsonData : string) (w : W) :
  let description := if String.eqb (Description pkg) "" then name else Description pkg in
  let shortText := if String.eqb (ShortText pkg) "" then name else ShortText pkg in
  let path := filepathJoin [workDir; "modified"; "package_" +:+ ID pkg +:+ ".json"] in
  marshalPackageJSON id name description shortText = Some jsonData ->
  (MkdirAll (filepathDir path) w).1 = None ->
  (WriteFile path jsonData (MkdirAll (filepathDir path) w).2).1 = None ->
  (updatePackage pkg id name workDir (Some sd) w).1.1 = None.
Proof.
  cbv zeta. intros Hjson Hmk Hwr. unfold updatePackage. rewrite Hjson.
  unfold bind, call.
  destruct (MkdirAll _ w) as [e1 w1]. cbn in Hmk, Hwr. subst e1.
  destruct (WriteFile _ _ w1) as [e2 w2]. cbn in Hwr. subst e2.
  destruct (PackageSyncExec _ _ w2) as [[e3|] w3]; reflexivity.
Qed.

(** The set of failed packages only grows. *)
Lemma updateArtifact_keeps_failed (id : string) (sd : ServiceDetails)
    (packageDir finalPackageID prefix workDir : string) (filter : list string)
    (artifact : Artifact) (st : ProcessingStats * nat) :
  id ∈ FailedPackageUpdates st.1 ->
  returns (fun st' => id ∈ FailedPackageUpdates st'.1)
    (updateArtifact sd packageDir finalPackageID prefix workDir filter artifact st).
Proof.
  destruct st as [stats n]. cbn [fst]. intros Hin.
  unfold updateArtifact. repeat returns_step; exact Hin.
Qed.

Lemma updateArtifacts_keeps_failed (id : string) (h : heap) (pkg : Package)
    (packageDir finalPackageID finalPackageName prefix workDir : string)
    (filter : list string) (stats : ProcessingStats)
    (sd : option ServiceDetails) :
  id ∈ FailedPackageUpdates stats ->
  returns (fun res => id ∈ FailedPackageUpdates res.2)
    (updateArtifacts h pkg packageDir finalPackageID finalPackageName prefix
       workDir filter stats sd).
Proof.
  intros Hin. unfold updateArtifacts.
  destruct sd as [sd|]; [|now apply returns_ret].
  destruct (String.eqb (Host sd) ""); [now apply returns_ret |].
  destruct (executerIsNil sd); [now apply returns_ret |].
  destruct (synchroniserIsNil sd); [now apply returns_ret |].
  apply (returns_bind (fun st' => id ∈ FailedPackageUpdates st'.1)).
  - apply returns_forEach; [|exact Hin].
    intros a r Hr. now apply updateArtifact_keeps_failed.
  - intros st' Hst'. now apply returns_ret.
Qed.

Lemma processPackage_keeps_failed (id : string) (h : heap) (config : DeployConfig)
    (applyPrefix : bool) (mode : OperationMode) (packagesDir workDir : string)
    (pf af : list string) (sd : option ServiceDetails) (pkg : Package)
    (st : ProcessingStats * list DeploymentTask) :
  id ∈ FailedPackageUpdates st.1 ->
  returns (fun st' => id ∈ FailedPackageUpdates st'.1)
    (processPackage h config applyPrefix mode packagesDir workDir pf af sd pkg st).
Proof.
  destruct st as [stats tasks]. cbn [fst]. intros Hin. unfold processPackage.
  destruct (negb (shouldInclude _ _)); [now apply returns_ret |].
  destruct (_ && _); [now apply returns_ret |].
  apply returns_bind_any. intros ex.
  destruct (negb ex); [now apply returns_ret |].
  apply (returns_bind
           (fun u => match u with
                     | inl s | inr s => id ∈ FailedPackageUpdates s
                     end)).
  - destruct (negb (isDeployOnly mode)); [|now apply returns_ret].
    apply returns_bind_any. intros [e|]; apply returns_ret; cbn; set_solver.
  - intros [s|s] Hs; [|now apply returns_ret].
    apply (returns_bind (fun s' => id ∈ FailedPackageUpdates s')).
    + destruct (_ && _); [|now apply returns_ret].
      apply (returns_bind (fun res => id ∈ FailedPackageUpdates res.2)).
      * now apply updateArtifacts_keeps_failed.
      * intros [[e|] s'] Hs'; now apply returns_ret.
    + intros s' Hs'. destruct (_ && _); now apply returns_ret.
Qed.

Lemma processLoop_keeps_failed (id : string) (h : heap) (config : DeployConfig)
    (applyPrefix : bool) (mode : OperationMode) (packagesDir workDir : string)
    (pf af : list string) (sd : option ServiceDetails) (pkgs : list Package)
    (st : ProcessingStats * list DeploymentTask) :
  id ∈ FailedPackageUpdates st.1 ->
  returns (fun st' => id ∈ FailedPackageUpdates st'.1)
    (processLoop h config applyPrefix mode packagesDir workDir pf af sd pkgs st).
Proof.
  intros Hin. unfold processLoop. apply returns_forEach; [|exact Hin].
  intros pkg r Hr. now apply processPackage_keeps_failed.
Qed.

(** The loop body on a package whose update fails. *)
Lemma processPackage_failure (h : heap) (config : DeployConfig)
    (applyPrefix : bool) (mode : OperationMode) (packagesDir workDir : string)
    (pf af : list string) (sd : option ServiceDetails) (pkg : Package)
    (stats : ProcessingStats) (tasks : list DeploymentTask) (w : W) (e : string) :
  let update :=
    updatePackage pkg (finalPackageID config applyPrefix pkg)
      (finalPackageName config applyPrefix pkg) workDir sd in
  isDeployOnly mode = false ->
  shouldInclude (ID pkg) pf = true ->
  Sync pkg || Deploy pkg = true ->
  DirExists (filepathJoin [packagesDir; PackageDir pkg]) w = true ->
  (update w).1.1 = Some e ->
  processPackage h config applyPrefix mode packagesDir workDir pf af sd pkg
    (stats, tasks) w
  = ((recordPackageFailure (ID pkg) stats, tasks), (update w).1.2, trace update w).
Proof.
  cbv zeta. intros Hmode Hpf Hsd Hdir Hupd.
  unfold processPackage. rewrite Hpf. cbn [negb].
  assert (Hskip : negb (Sync pkg) && negb (Deploy pkg) = false).
  { destruct (Sync pkg), (Deploy pkg); try reflexivity. discriminate. }
  rewrite Hskip, Hmode. cbn [negb].
  unfold bind at 1. unfold look at 1. rewrite Hdir. cbn [negb].
  unfold bind at 1. unfold bind at 1.
  unfold finalPackageID, finalPackageName in Hupd |- *. unfold Cmd.trace.
  destruct (updatePackage pkg _ _ workDir sd w) as [[err w1] t1].
  cbn [fst snd] in Hupd |- *. subst err. cbn. now rewrite !app_nil_r.
Qed.

End Phase1.

End OrchestratorFacts.

(** C2 (counterexample to the claim as stated): the package syncer fails for
    the package [Pkg1]; [updatePackage] only logs the failure, so the package
    is not in the set of failed packages but in the set of updated ones, and
    its artifact [A1] is copied and sent to the tenant. *)
Lemma C2_counterexample :
  let run :=
    Orchestrator.processPackages Scenarios.heapS1 Scenarios.configS1 true
      Orchestrator.ModeUpdateOnly "packages" "work" [] []
      Orchestrator.emptyStats Scenarios.serviceS1
      (MemOutside.mkState true false) in
  run.2 =
    [ Orchestrator.EvMkdirAll "work/modified/package_Pkg1.json" None;
      Orchestrator.EvWriteFile "work/modified/package_Pkg1.json" None;
      Orchestrator.EvPackageSync "work/modified/package_Pkg1.json" (Some "HTTP 404");
      Orchestrator.EvCopyDir "packages/Pkg1/A1" "work/A1" None;
      Orchestrator.EvArtifactSync "A1" "A1" "Integration" "Pkg1" "work/A1" "work"
        None ] /\
  elements (Orchestrator.FailedPackageUpdates run.1.1.2) = [] /\
  elements (Orchestrator.SuccessfulPackageUpdates run.1.1.2) = ["Pkg1"] /\
  Orchestrator.PackagesFailed run.1.1.2 = 0.
Proof. vm_compute. repeat split; reflexivity. Qed.

(** C2 (amended): in phase 1, when [updatePackage] returns an error for a
    package that the loop of [processPackages] reaches (the service details
    are missing, or the package JSON cannot be marshalled or written; an
    error of the package syncer itself is only logged), the loop body emits
    the events of [updatePackage] alone, none of which touches an artifact,
    records the package in the set of failed packages, counts it as failed,
    collects no deployment task for it, and the loop goes on with the other
    packages; the package is still in the set of failed packages when the
    loop ends. *)
Theorem C2_failed_package_update {W : Type} `{Orchestrator.Outside W}
    (h : Models.heap) (config : Models.DeployConfig) (applyPrefix : bool)
    (mode : Orchestrator.OperationMode) (packagesDir workDir : string)
    (packageFilter artifactFilter : list string)
    (serviceDetails : option Orchestrator.ServiceDetails)
    (pkg : Models.Package) (rest : list Models.Package)
    (stats : Orchestrator.ProcessingStats)
    (tasks : list Orchestrator.DeploymentTask) (w : W) (e : string) :
  let update :=
    Orchestrator.updatePackage pkg
      (OrchestratorView.finalPackageID config applyPrefix pkg)
      (OrchestratorView.finalPackageName config applyPrefix pkg)
      workDir serviceDetails in
  let loop :=
    Orchestrator.processLoop h config applyPrefix mode packagesDir workDir
      packageFilter artifactFilter serviceDetails in
  Orchestrator.isDeployOnly mode = false ->
  Orchestrator.shouldInclude (Models.ID pkg) packageFilter = true ->
  Models.Sync pkg || Models.Deploy pkg = true ->
  Orchestrator.DirExists
    (Orchestrator.filepathJoin [packagesDir; Models.PackageDir pkg]) w = true ->
  (update w).1.1 = Some e ->
  Forall (fun ev => Orchestrator.isArtifactEvent ev = false) (Cmd.trace update w) /\
  loop (pkg :: rest) (stats, tasks) w =
    (let '(r, w2, t2) :=
       loop rest (OrchestratorView.recordPackageFailure (Models.ID pkg) stats, tasks)
            (update w).1.2 in
     (r, w2, Cmd.trace update w ++ t2)) /\
  Models.ID pkg
    ∈ Orchestrator.FailedPackageUpdates (loop (pkg :: rest) (stats, tasks) w).1.1.1.
Proof.
  cbv zeta. intros Hmode Hpf Hsd Hdir Hupd.
  assert (Hloop :
    Orchestrator.processLoop h config applyPrefix mode packagesDir workDir
      packageFilter artifactFilter serviceDetails (pkg :: rest) (stats, tasks) w =
    (let '(r, w2, t2) :=
       Orchestrator.processLoop h config applyPrefix mode packagesDir workDir
         packageFilter artifactFilter serviceDetails rest
         (OrchestratorView.recordPackageFailure (Models.ID pkg) stats, tasks)
         (Orchestrator.updatePackage pkg
            (OrchestratorView.finalPackageID config applyPrefix pkg)
            (OrchestratorView.finalPackageName config applyPrefix pkg)
            workDir serviceDetails w).1.2 in
     (r, w2,
      Cmd.trace
        (Orchestrator.updatePackage pkg
           (OrchestratorView.finalPackageID config applyPrefix pkg)
           (OrchestratorView.finalPackageName config applyPrefix pkg)
           workDir serviceDetails) w ++ t2))).
  { unfold Orchestrator.processLoop. cbn [Cmd.forEach]. unfold Cmd.bind at 1.
    now rewrite (OrchestratorFacts.processPackage_failure h config applyPrefix
                   mode packagesDir workDir packageFilter artifactFilter
                   serviceDetails pkg stats tasks w e Hmode Hpf Hsd Hdir Hupd). }
  split; [apply OrchestratorFacts.updatePackage_events |].
  split; [exact Hloop |].
  rewrite Hloop.
  pose proof (OrchestratorFacts.processLoop_keeps_failed (Models.ID pkg) h config
                applyPrefix mode packagesDir workDir packageFilter artifactFilter
                serviceDetails rest
                (OrchestratorView.recordPackageFailure (Models.ID pkg) stats, tasks))
    as Hkeep.
  unfold OrchestratorView.returns in Hkeep.
  match goal with |- context [Orchestrator.processLoop _ _ _ _ _ _ _ _ _ rest ?st ?w1] =>
    specialize (Hkeep ltac:(cbn; set_solver) w1);
    destruct (Orchestrator.processLoop h config applyPrefix mode packagesDir
                workDir packageFilter artifactFilter serviceDetails rest st w1)
      as [[r w2] t2]
  end.
  exact Hkeep.
Qed.

Lemma C2_failed_package_update_witness :
  "Pkg1" ∈ Orchestrator.FailedPackageUpdates
    (Orchestrator.processLoop Scenarios.heapS1 Scenarios.configS1 true
       Orchestrator.ModeUpdateOnly "packages" "work" [] [] Scenarios.serviceS1
       [Scenarios.package "Pkg1" (Models.mkSlice 0 1)]
       (Orchestrator.emptyStats, []) (MemOutside.mkState false true)).1.1.1.
Proof.
  apply (C2_failed_package_update Scenarios.heapS1 Scenarios.configS1 true
           Orchestrator.ModeUpdateOnly "packages" "work" [] [] Scenarios.serviceS1
           (Scenarios.package "Pkg1" (Models.mkSlice 0 1)) []
           Orchestrator.emptyStats [] (MemOutside.mkState false true)
           "failed to write package JSON: disk full").
  - reflexivity.
  - reflexivity.
  - reflexivity.
  - reflexivity.
  - vm_compute. reflexivity.
Defined.

(** * More properties *)

Module EscapeFacts.
Import GoStrings Repo Repo.SpecAlgorithm GoStringsFacts EscapeView.

Lemma expand_app (f : ascii -> string) (a b : string) :
  expand f (a +:+ b) = expand f a +:+ expand f b.
Proof.
  induction a as [|c a IH]; [reflexivity |].
  rewrite sapp_cons. cbn [expand]. now rewrite IH, sapp_assoc.
Qed.

Lemma expand_expand (f g : ascii -> string) (s : string) :
  expand g (expand f s) = expand (fun c => expand g (f c)) s.
Proof.
  induction s as [|c s IH]; [reflexivity |].
  cbn [expand]. now rewrite expand_app, IH.
Qed.

Lemma expand_ext (f g : ascii -> string) (s : string) :
  (forall c, f c = g c) -> expand f s = expand g s.
Proof.
  intros E. induction s as [|c s IH]; [reflexivity |].
  cbn [expand]. now rewrite E, IH.
Qed.

(** Replacing a single byte is a byte-wise expansion. *)
Lemma ReplaceAll_byte (c : ascii) (new s : string) :
  ReplaceAll s (String c "") new
  = expand (fun a => if Ascii.eqb a c then new else String a "") s.
Proof.
  unfold ReplaceAll.
  induction s as [|a s IH]; [reflexivity |].
  cbn [replace_go expand]. rewrite HasPrefix_byte.
  destruct (Ascii.eqb a c); cbn [String.length Nat.sub]; rewrite IH; reflexivity.
Qed.

Lemma escape_expand (v : string) :
  escapePropertyValue v = expand escapeByte v.
Proof.
  unfold escapePropertyValue, BACKSLASH, LF, CR.
  cbn [bytes]. rewrite !ReplaceAll_byte, !expand_expand.
  apply expand_ext. intros c. unfold escapeByte, isBackslash, isLF, isCR.
  destruct (Ascii.eqb_spec c (byte 92)) as [->|H1]; [reflexivity |].
  replace (Ascii.eqb c "\") with false
    by (symmetry; apply Ascii.eqb_neq; exact H1).
  cbn [expand]. rewrite sapp_nil_r.
  destruct (Ascii.eqb_spec c (byte 10)) as [->|H2]; [reflexivity |].
  cbn [expand]. rewrite sapp_nil_r.
  destruct (Ascii.eqb c (byte 13)); reflexivity.
Qed.

Lemma hasByte_expand (b : ascii) (f : ascii -> string) (s : string) :
  (forall c, hasByte b (f c) = false) -> hasByte b (expand f s) = false.
Proof.
  intros Hf. induction s as [|c s IH]; [reflexivity |].
  cbn [expand]. rewrite ManifestFacts.hasByte_app, Hf, IH. reflexivity.
Qed.

Lemma escapeByte_no_LF (c : ascii) : hasByte (byte 10) (escapeByte c) = false.
Proof.
  unfold escapeByte, isBackslash, isLF, isCR.
  destruct (Ascii.eqb c "\"); [reflexivity |].
  destruct (Ascii.eqb_spec c (byte 10)) as [->|H]; [reflexivity |].
  destruct (Ascii.eqb c (byte 13)); [reflexivity |].
  cbn [hasByte]. rewrite orb_false_r. apply Ascii.eqb_neq. exact H.
Qed.

Lemma escapeByte_no_CR (c : ascii) : hasByte (byte 13) (escapeByte c) = false.
Proof.
  unfold escapeByte, isBackslash, isLF, isCR.
  destruct (Ascii.eqb c "\"); [reflexivity |].
  destruct (Ascii.eqb c (byte 10)); [reflexivity |].
  destruct (Ascii.eqb_spec c (byte 13)) as [->|H]; [reflexivity |].
  cbn [hasByte]. rewrite orb_false_r. apply Ascii.eqb_neq. exact H.
Qed.

(** The head of an escaped text is the letter [x] only if the head of the
    text is. *)
Lemma HasPrefix_expand_letter (f : ascii -> string) (x : ascii) (v : string) :
  (forall c, HasPrefix (f c) (String x "") = Ascii.eqb c x) ->
  (forall c, f c <> "") ->
  HasPrefix (expand f v) (String x "") = HasPrefix v (String x "").
Proof.
  intros Hf Hne. destruct v as [|c v]; [reflexivity |].
  cbn [expand]. rewrite (HasPrefix_byte x (String c v)), <- Hf.
  specialize (Hne c). destruct (f c) as [|a t]; [congruence |].
  rewrite sapp_cons, !HasPrefix_byte. reflexivity.
Qed.

Lemma not_Contains_cons (c : ascii) (v p : string) :
  Contains (String c v) p = false ->
  HasPrefix (String c v) p = false /\ Contains v p = false.
Proof. cbn [Contains]. intros E. now apply orb_false_iff in E. Qed.

(** The first replacement of [unescapePropertyValue] on an escaped text. *)
Lemma unescape_step1 (v : string) :
  Contains v "\n" = false ->
  replace_go 0 "\n" LF (expand escapeByte v) = expand escapeByte1 v.
Proof.
  induction v as [|c v IH]; [reflexivity |].
  intros E. apply not_Contains_cons in E as [E1 E2].
  specialize (IH E2). cbn [expand].
  unfold escapeByte at 1, escapeByte1 at 1, isBackslash, isLF, isCR.
  destruct (Ascii.eqb_spec c "\") as [->|Hb].
  - (* two backslashes, then the rest, which does not start with [n] *)
    assert (Hn : HasPrefix (expand escapeByte v) "n" = false).
    { rewrite HasPrefix_expand_letter.
      - cbn in E1. exact E1.
      - intros a. unfold escapeByte, isBackslash, isLF, isCR.
        destruct (Ascii.eqb_spec a "\") as [->|]; [reflexivity |].
        destruct (Ascii.eqb_spec a (byte 10)) as [->|]; [reflexivity |].
        destruct (Ascii.eqb_spec a (byte 13)) as [->|]; [reflexivity |].
        cbn. now destruct (Ascii.eqb a "n").
      - intros a. unfold escapeByte.
        destruct (isBackslash a), (isLF a), (isCR a); discriminate. }
    rewrite !sapp_cons, !sapp_nil_l. cbn [replace_go HasPrefix].
    cbn [Ascii.eqb Bool.eqb]. 
    destruct (expand escapeByte v) as [|a t] eqn:Ev.
    + cbn in IH |- *. now rewrite <- IH.
    + rewrite HasPrefix_byte in Hn. rewrite Hn. now rewrite IH.
  - destruct (Ascii.eqb_spec c (byte 10)) as [->|Hl].
    + rewrite !sapp_cons, !sapp_nil_l. cbn [replace_go HasPrefix].
      cbn [Ascii.eqb Bool.eqb String.length Nat.sub].
      replace (Ascii.eqb (byte 10) (byte 13)) with false by reflexivity.
      rewrite IH. reflexivity.
    + destruct (Ascii.eqb_spec c (byte 13)) as [->|Hr].
      * rewrite !sapp_cons, !sapp_nil_l. cbn [replace_go HasPrefix].
        cbn [Ascii.eqb Bool.eqb]. now rewrite IH.
      * rewrite !sapp_cons, !sapp_nil_l. cbn [replace_go HasPrefix].
        replace (Ascii.eqb c "\") with false
          by (symmetry; now apply Ascii.eqb_neq).
        now rewrite IH.
Qed.

(** The second replacement. *)
Lemma unescape_step2 (v : string) :
  Contains v "\r" = false ->
  replace_go 0 "\r" CR (expand escapeByte1 v) = expand escapeByte2 v.
Proof.
  induction v as [|c v IH]; [reflexivity |].
  intros E. apply not_Contains_cons in E as [E1 E2].
  specialize (IH E2). cbn [expand].
  unfold escapeByte1 at 1, escapeByte2 at 1, isBackslash, isCR.
  destruct (Ascii.eqb_spec c "\") as [->|Hb].
  - assert (Hn : HasPrefix (expand escapeByte1 v) "r" = false).
    { rewrite HasPrefix_expand_letter.
      - cbn in E1. exact E1.
      - intros a. unfold escapeByte1, isBackslash, isCR.
        destruct (Ascii.eqb_spec a "\") as [->|]; [reflexivity |].
        destruct (Ascii.eqb_spec a (byte 13)) as [->|]; [reflexivity |].
        cbn. now destruct (Ascii.eqb a "r").
      - intros a. unfold escapeByte1.
        destruct (isBackslash a), (isCR a); discriminate. }
    rewrite !sapp_cons, !sapp_nil_l. cbn [replace_go HasPrefix].
    cbn [Ascii.eqb Bool.eqb].
    destruct (expand escapeByte1 v) as [|a t] eqn:Ev.
    + cbn in IH |- *. now rewrite <- IH.
    + rewrite HasPrefix_byte in Hn. rewrite Hn. now rewrite IH.
  - destruct (Ascii.eqb_spec c (byte 13)) as [->|Hr].
    + rewrite !sapp_cons, !sapp_nil_l. cbn [replace_go HasPrefix].
      cbn [Ascii.eqb Bool.eqb String.length Nat.sub].
      replace (Ascii.eqb (byte 13) "\") with false by reflexivity.
      rewrite IH. reflexivity.
    + rewrite !sapp_cons, !sapp_nil_l. cbn [replace_go HasPrefix].
      replace (Ascii.eqb c "\") with false
        by (symmetry; now apply Ascii.eqb_neq).
      now rewrite IH.
Qed.

(** The third replacement. *)
Lemma unescape_step3 (v : string) :
  replace_go 0 "\\" "\" (expand escapeByte2 v) = v.
Proof.
  induction v as [|c v IH]; [reflexivity |].
  cbn [expand]. unfold escapeByte2 at 1, isBackslash.
  destruct (Ascii.eqb_spec c "\") as [->|Hb].
  - rewrite !sapp_cons, !sapp_nil_l. cbn [replace_go HasPrefix].
    cbn [Ascii.eqb Bool.eqb String.length Nat.sub].
    rewrite sapp_cons, sapp_nil_l, IH. reflexivity.
  - rewrite !sapp_cons, !sapp_nil_l. cbn [replace_go HasPrefix].
    replace (Ascii.eqb c "\") with false
      by (symmetry; now apply Ascii.eqb_neq).
    now rewrite IH.
Qed.

Lemma unescape_escape (v : string) :
  noEscapeLookalike v = true ->
  unescapePropertyValue (escapePropertyValue v) = v.
Proof.
  unfold noEscapeLookalike. intros E.
  apply andb_true_iff in E as [E1 E2].
  apply negb_true_iff in E1, E2.
  rewrite escape_expand. unfold unescapePropertyValue, ReplaceAll.
  change (BACKSLASH +:+ "n") with "\n".
  change (BACKSLASH +:+ "r") with "\r".
  change (BACKSLASH +:+ BACKSLASH) with "\\".
  change BACKSLASH with "\".
  cbv iota.
  rewrite (unescape_step1 v E1). rewrite (unescape_step2 v E2).
  apply unescape_step3.
Qed.

Lemma escape_one_line (v : string) :
  Contains (escapePropertyValue v) LF = false /\
  Contains (escapePropertyValue v) CR = false.
Proof.
  rewrite escape_expand. unfold LF, CR. cbn [bytes].
  rewrite !Contains_byte. split; apply hasByte_expand.
  - apply escapeByte_no_LF.
  - apply escapeByte_no_CR.
Qed.
End EscapeFacts.

(** X1: a value escaped by [escapePropertyValue] holds no line feed and no
    carriage return. *)
Theorem escapePropertyValue_one_line (value : string) :
  GoStrings.Contains (Repo.escapePropertyValue value) GoStrings.LF = false /\
  GoStrings.Contains (Repo.escapePropertyValue value) GoStrings.CR = false.
Proof. apply EscapeFacts.escape_one_line. Qed.

(** X2: [unescapePropertyValue] undoes [escapePropertyValue] on every value
    that holds neither a backslash followed by [n] nor a backslash followed
    by [r]. *)
Theorem unescape_escape_round_trip (value : string) :
  GoStrings.Contains value "\n" = false ->
  GoStrings.Contains value "\r" = false ->
  Repo.unescapePropertyValue (Repo.escapePropertyValue value) = value.
Proof.
  intros H1 H2. apply EscapeFacts.unescape_escape.
  unfold EscapeView.noEscapeLookalike. now rewrite H1, H2.
Qed.

(** The theorem at a concrete input. *)
Lemma unescape_escape_round_trip_witness :
  Repo.unescapePropertyValue
    (Repo.escapePropertyValue ("C:\temp" +:+ GoStrings.LF +:+ "two\\lines"))
  = "C:\temp" +:+ GoStrings.LF +:+ "two\\lines".
Proof.
  apply (unescape_escape_round_trip ("C:\temp" +:+ GoStrings.LF +:+ "two\\lines"));
    vm_compute; reflexivity.
Defined.

Module PathFacts.
Import GoStrings GoStringsMore Repo Repo.SpecAlgorithm RepoFile GoStringsFacts
  ManifestFacts RepoFacts PathView.

Lemma marks_app (a b : string) : marks (a +:+ b) = marks a ++ marks b.
Proof.
  induction a as [|c a IH]; [reflexivity |].
  rewrite sapp_cons. cbn [marks]. rewrite IH. now destruct (isMark c).
Qed.

Lemma marks_rev (s : string) : marks (rev s) = List.rev (marks s).
Proof.
  induction s as [|c s IH]; [reflexivity |].
  cbn [rev marks]. rewrite marks_app, IH. cbn [marks].
  destruct (isMark c); cbn [List.rev]; [reflexivity | now rewrite app_nil_r].
Qed.

Lemma isMark_lowerByte (c : ascii) : isMark (lowerByte c) = isMark c.
Proof. destruct c as [[] [] [] [] [] [] [] []]; reflexivity. Qed.

Lemma lowerByte_mark (c : ascii) : isMark c = true -> lowerByte c = c.
Proof. destruct c as [[] [] [] [] [] [] [] []]; cbn; try discriminate; reflexivity. Qed.

(** Lower-casing keeps the dots and slashes of a text. *)
Lemma lower_go_marks (s : string) (k : nat) :
  marks (take k s) = [] -> marks (lower_go k s) = marks s.
Proof.
  revert k. induction s as [|c s IH]; intros k; [destruct k; reflexivity |].
  destruct k as [|k].
  - intros _. cbn [lower_go].
    destruct (HasPrefix (String c s) capitalIWithDot) eqn:E1.
    { apply HasPrefix_cons_inv in E1 as (s1 & [= -> ->] & E1).
      apply HasPrefix_cons_inv in E1 as (s2 & -> & _).
      cbn [marks]. rewrite (IH 1) by reflexivity. reflexivity. }
    destruct (HasPrefix (String c s) kelvinSign) eqn:E2.
    { apply HasPrefix_cons_inv in E2 as (s1 & [= -> ->] & E2).
      apply HasPrefix_cons_inv in E2 as (s2 & -> & E2).
      apply HasPrefix_cons_inv in E2 as (s3 & -> & _).
      cbn [marks]. rewrite (IH 2) by reflexivity. reflexivity. }
    cbn [marks]. rewrite isMark_lowerByte, (IH 0) by reflexivity.
    destruct (isMark c) eqn:Em; [|reflexivity].
    now rewrite (lowerByte_mark c Em).
  - cbn [take marks lower_go]. destruct (isMark c); [discriminate |].
    intros E. now rewrite (IH k E).
Qed.

Lemma ToLower_marks (s : string) : marks (ToLower s) = marks s.
Proof. apply lower_go_marks. reflexivity. Qed.

(** [ext_go] stops at the first dot or slash. *)
Lemma ext_go_marks (r acc : string) :
  match marks r with
  | [] => ext_go r acc = ""
  | m :: _ =>
      if Ascii.eqb m "/" then ext_go r acc = ""
      else exists u t, r = u +:+ String "." t /\ marks u = [] /\
                       ext_go r acc = String "." (rev u +:+ acc)
  end.
Proof.
  revert acc. induction r as [|c r IH]; intros acc; [reflexivity |].
  cbn [marks ext_go]. unfold isMark.
  destruct (Ascii.eqb_spec c "/") as [->|Hs]; [reflexivity |].
  destruct (Ascii.eqb_spec c ".") as [->|Hd].
  - cbn. exists "", r. repeat split; reflexivity.
  - cbn [orb]. specialize (IH (String c acc)).
    destruct (marks r) as [|m l]; [exact IH |].
    destruct (Ascii.eqb m "/"); [exact IH |].
    destruct IH as (u & t & -> & Hu & ->).
    exists (String c u), t. repeat split.
    + cbn [marks]. unfold isMark.
      replace (Ascii.eqb c ".") with false by (symmetry; now apply Ascii.eqb_neq).
      replace (Ascii.eqb c "/") with false by (symmetry; now apply Ascii.eqb_neq).
      exact Hu.
    + cbn [rev]. now rewrite sapp_assoc.
Qed.

Lemma marks_nil_hasByte (s : string) :
  marks s = [] <-> hasByte "." s = false /\ hasByte "/" s = false.
Proof.
  induction s as [|c s IH]; [cbn; tauto |].
  cbn [marks hasByte]. unfold isMark.
  destruct (Ascii.eqb c "."), (Ascii.eqb c "/"); cbn;
    try (split; [discriminate | intros [? ?]; discriminate]); exact IH.
Qed.

Lemma length_sapp (a b : string) :
  String.length (a +:+ b) = String.length a + String.length b.
Proof.
  induction a as [|c a IH]; [reflexivity |].
  rewrite sapp_cons. cbn. now rewrite IH.
Qed.

Lemma take_sapp (a b : string) : take (String.length a) (a +:+ b) = a.
Proof.
  induction a as [|c a IH]; [now destruct b |].
  rewrite sapp_cons. cbn. now rewrite IH.
Qed.

Lemma sapp_inj_l (a b c : string) : a +:+ b = a +:+ c -> b = c.
Proof.
  induction a as [|x a IH]; [trivial |].
  rewrite !sapp_cons. intros [= E]. auto.
Qed.

(** [Ext] of a name that ends with a dot and a text without dot or slash. *)
Lemma Ext_app (p e : string) :
  marks e = [] -> Ext (p +:+ "." +:+ e) = "." +:+ e.
Proof.
  intros He. unfold Ext.
  pose proof (ext_go_marks (rev (p +:+ "." +:+ e)) "") as Hx.
  rewrite marks_rev, !marks_app, He in Hx. cbn [marks isMark] in Hx.
  change (isMark ".") with true in Hx. cbn iota in Hx.
  rewrite app_nil_r, rev_app_distr in Hx. cbn [List.rev app] in Hx.
  change (Ascii.eqb "." "/") with false in Hx. cbn iota in Hx.
  destruct Hx as (u & t & Hr & Hu & ->).
  rewrite sapp_nil_r. rewrite !rev_app in Hr.
  (* rev e ++ "." ++ rev p = u ++ "." ++ t, neither rev e nor u holds a dot *)
  assert (Hre : marks (rev e) = []) by (now rewrite marks_rev, He).
  assert (E : rev e = u).
  { clear - Hr Hre Hu. change (rev ".") with "." in Hr.
    revert u Hr Hu. generalize (rev e) Hre. clear.
    induction s as [|c s IH]; intros Hs u Hr Hu.
    - destruct u as [|d u]; [reflexivity |].
      rewrite sapp_nil_l, !sapp_cons in Hr. injection Hr as <- _.
      cbn in Hu. discriminate.
    - destruct u as [|d u].
      + rewrite sapp_nil_l, !sapp_cons in Hr. injection Hr as -> _.
        cbn in Hs. discriminate.
      + rewrite !sapp_cons in Hr. injection Hr as <- Hr.
        cbn [marks] in Hs, Hu. destruct (isMark c); [discriminate |].
        f_equal. now apply IH. }
  subst u. now rewrite rev_involutive.
Qed.

Lemma isAlphanumeric_marks (s : string) : isAlphanumeric s = true -> marks s = [].
Proof.
  induction s as [|c s IH]; [reflexivity |].
  cbn [isAlphanumeric marks].
  destruct (isAlnumByte c) eqn:Ea; [|discriminate].
  intros E. rewrite (IH E).
  destruct c as [[] [] [] [] [] [] [] []]; cbn in Ea |- *;
    try discriminate; reflexivity.
Qed.

Lemma recognized_marks (s : string) : s ∈ recognized -> marks s = [] /\ s <> "".
Proof.
  unfold recognized. rewrite !elem_of_cons, elem_of_nil.
  intros H; repeat (destruct H as [-> | H]; [split; [reflexivity | discriminate] |]).
  destruct H.
Qed.

(** The extension [getFileExtension] resolves is never empty and holds
    neither a dot nor a slash. *)
Lemma accept_marks (ext : string) :
  let r := accept (fun c => bool_decide (ToLower c ∈ recognized)) ext in
  marks r = [] /\ r <> "".
Proof.
  cbv zeta. unfold accept.
  destruct (bool_decide_reflect (ToLower ext ∈ recognized)) as [Hin|_].
  - apply recognized_marks in Hin as [Hm Hne]. rewrite ToLower_marks in Hm.
    split; [exact Hm |]. intros ->. apply Hne. reflexivity.
  - destruct (isAlphanumeric ext) eqn:Ea; cbn [andb];
      [|split; [reflexivity | discriminate]].
    destruct (2 <=? String.length ext)%nat eqn:E2; cbn [andb];
      [|split; [reflexivity | discriminate]].
    destruct (String.length ext <=? 5)%nat;
      [|split; [reflexivity | discriminate]].
    split; [now apply isAlphanumeric_marks |].
    intros ->. discriminate.
Qed.

Lemma getFileExtension_marks (ct : string) :
  marks (getFileExtension ct) = [] /\ getFileExtension ct <> "".
Proof.
  unfold getFileExtension, parseContentType.
  rewrite baseType_amended, accept_code, candidate_code.
  apply accept_marks.
Qed.

Lemma HasSuffix_length (s p : string) :
  HasSuffix s p = true -> exists u, s = u +:+ p.
Proof. apply HasSuffix_inv. Qed.

(** A name with a dot in its last element: [Ext] is a non-empty suffix and
    [removeFileExtension] cuts it off. *)
Lemma removeFileExtension_cuts (s : string) (l : list ascii) :
  marks s = l ++ ["."%char] ->
  exists stem e, s = stem +:+ "." +:+ e /\ marks e = [] /\
                 removeFileExtension s = stem.
Proof.
  intros Hm. unfold removeFileExtension, Ext.
  pose proof (ext_go_marks (rev s) "") as Hx.
  rewrite marks_rev, Hm, rev_app_distr in Hx. cbn [List.rev app] in Hx.
  change (Ascii.eqb "." "/") with false in Hx. cbn iota in Hx.
  destruct Hx as (u & t & Hr & Hu & ->). rewrite sapp_nil_r.
  assert (Hs : s = rev t +:+ "." +:+ rev u).
  { rewrite <- (rev_involutive s), Hr, rev_app. cbn [rev].
    apply sapp_assoc. }
  exists (rev t), (rev u). split; [exact Hs |].
  split; [rewrite marks_rev, Hu; reflexivity |].
  cbn [String.eqb negb]. unfold TrimSuffix.
  rewrite Hs at 1. change (String "." (rev u)) with ("." +:+ rev u).
  rewrite HasSuffix_app_here. rewrite Hs, length_sapp, Nat.add_sub.
  apply take_sapp.
Qed.
End PathFacts.


(** X4: [removeFileExtension] gives the parameter ID back from the file name
    built for it exactly when the ID, in lower case, does not itself end
    with a dot and the extension of the content type. *)
Theorem removeFileExtension_binaryFileName (paramID contentType : string) :
  RepoFile.removeFileExtension (Repo.binaryFileName paramID contentType) = paramID
  <->
  GoStrings.HasSuffix (GoStrings.ToLower paramID)
    ("." +:+ Repo.getFileExtension contentType) = false.
Proof.
  destruct (PathFacts.getFileExtension_marks contentType) as [Hm Hne].
  unfold Repo.binaryFileName.
  destruct (String.eqb_spec (Repo.getFileExtension contentType) "") as [E|_];
    [contradiction |].
  cbn [negb andb].
  destruct (GoStrings.HasSuffix (GoStrings.ToLower paramID) _) eqn:Hs; cbn [negb].
  - split; [|discriminate]. intros Hr. exfalso.
    apply ManifestFacts.HasSuffix_inv in Hs as [u Hu].
    assert (Hmk : PathView.marks paramID
                  = PathView.marks u ++ ["."%char]).
    { rewrite <- PathFacts.ToLower_marks, Hu, !PathFacts.marks_app, Hm.
      reflexivity. }
    destruct (PathFacts.removeFileExtension_cuts _ _ Hmk)
      as (stem & e & Hid & _ & Hcut).
    rewrite Hcut in Hr. rewrite <- Hr in Hid.
    apply (f_equal String.length) in Hid.
    rewrite !PathFacts.length_sapp in Hid. cbn in Hid. lia.
  - split; [intros _; reflexivity | intros _].
    assert (Hmk : PathView.marks (paramID +:+ "." +:+ Repo.getFileExtension contentType)
                  = PathView.marks paramID ++ ["."%char]).
    { rewrite !PathFacts.marks_app, Hm. reflexivity. }
    destruct (PathFacts.removeFileExtension_cuts _ _ Hmk)
      as (stem & e & Hid & He & ->).
    (* both decompositions end with a dot and a text without dots *)
    apply (f_equal GoStrings.rev) in Hid.
    rewrite !ManifestFacts.rev_app in Hid.
    assert (forall a b x y, PathView.marks a = [] -> PathView.marks b = [] ->
              a +:+ "." +:+ x = b +:+ "." +:+ y -> x = y) as Huniq.
    { clear. induction a as [|c a IH]; intros b x y Ha Hb E.
      - destruct b as [|d b]; [now injection E |].
        rewrite GoStringsFacts.sapp_nil_l, !GoStringsFacts.sapp_cons in E.
        injection E as <- _. cbn in Hb. discriminate.
      - destruct b as [|d b].
        + rewrite GoStringsFacts.sapp_nil_l, !GoStringsFacts.sapp_cons in E.
          injection E as -> _. cbn in Ha. discriminate.
        + rewrite !GoStringsFacts.sapp_cons in E. injection E as <- E.
          cbn [PathView.marks] in Ha, Hb.
          destruct (PathView.isMark c); [discriminate |]. eauto. }
    change (GoStrings.rev ".") with "." in Hid.
    rewrite !GoStringsFacts.sapp_assoc in Hid.
    apply Huniq in Hid.
    + rewrite <- (GoStringsFacts.rev_involutive stem), <- Hid.
      apply GoStringsFacts.rev_involutive.
    + rewrite PathFacts.marks_rev, Hm. reflexivity.
    + rewrite PathFacts.marks_rev, He. reflexivity.
Qed.

Module PropertiesFacts.
Import GoStrings GoStringsMore GoOS Repo Repo.SpecAlgorithm RepoFile
  GoStringsFacts ManifestFacts EscapeView EscapeFacts PropertiesView PathFacts.

Lemma drop_sapp (a b : string) : drop (String.length a) (a +:+ b) = b.
Proof.
  induction a as [|c a IH]; [now destruct b |].
  rewrite sapp_cons. cbn. exact IH.
Qed.

Lemma Index_sapp_byte (c : ascii) (a b : string) :
  hasByte c a = false ->
  Index (a +:+ String c b) (String c "") = Some (String.length a).
Proof.
  induction a as [|x a IH]; cbn [hasByte].
  - intros _. rewrite sapp_nil_l. cbn [Index]. rewrite HasPrefix_byte.
    now rewrite Ascii.eqb_refl.
  - intros E. apply orb_false_iff in E as [Ex E].
    rewrite sapp_cons. cbn [Index]. rewrite HasPrefix_byte, Ex, (IH E).
    reflexivity.
Qed.

(** [SplitN(line, "=", 2)] cuts at the first [=]. *)
Lemma SplitN_key_value (k v : string) :
  Contains k "=" = false -> SplitN (k +:+ "=" +:+ v) "=" 2 = [k; v].
Proof.
  rewrite Contains_byte. intros E. cbn [SplitN].
  change ("=" +:+ v) with (String "=" v).
  rewrite (Index_sapp_byte _ _ _ E), take_sapp. cbn [String.length].
  replace (String.length k + 1) with (String.length (k +:+ "=")).
  - change (String "=" v) with ("=" +:+ v).
    rewrite <- sapp_assoc, drop_sapp. reflexivity.
  - rewrite length_sapp. reflexivity.
Qed.

Lemma HasPrefix_sapp_nonempty (c p : ascii) (a b : string) :
  HasPrefix (String c a +:+ b) (String p "") = HasPrefix (String c a) (String p "").
Proof. rewrite sapp_cons, !HasPrefix_byte. reflexivity. Qed.

Lemma parsePropertyLine_lineOf (pid : string) (p : StringParameter) :
  readable pid p = true ->
  parsePropertyLine (lineOf p)
  = Some (sp_ID p, escapePropertyValue (sp_Value p)).
Proof.
  unfold readable. rewrite !andb_true_iff, !negb_true_iff.
  intros [[[[[_ Heq] _] Hhash] Htrim] _].
  apply String.eqb_eq in Htrim.
  unfold parsePropertyLine. rewrite Htrim. unfold lineOf.
  assert (Hne : String.eqb (sp_ID p +:+ "=" +:+ escapePropertyValue (sp_Value p)) ""
                = false).
  { destruct (sp_ID p); reflexivity. }
  assert (Hh : HasPrefix (sp_ID p +:+ "=" +:+ escapePropertyValue (sp_Value p)) "#"
               = false).
  { destruct (sp_ID p) as [|c k]; [reflexivity |].
    now rewrite HasPrefix_sapp_nonempty. }
  rewrite Hne, Hh. cbn [orb]. now rewrite SplitN_key_value.
Qed.

Lemma lineOf_no_LF (pid : string) (p : StringParameter) :
  readable pid p = true -> Contains (lineOf p) LF = false.
Proof.
  unfold readable. rewrite !andb_true_iff, !negb_true_iff.
  intros [[[[[_ _] Hlf] _] _] _].
  unfold lineOf. rewrite Contains_LF in *.
  rewrite !hasByte_app, Hlf. cbn [hasByte orb].
  destruct (escape_one_line (sp_Value p)) as [H _].
  now rewrite Contains_LF in H.
Qed.

(** Reading the content written for readable parameters gives them back. *)
Lemma parseProperties_propertiesContent (pid : string)
    (params : list StringParameter) :
  Forall (fun p => readable pid p = true) params ->
  parseProperties (propertiesContent params) pid = params.
Proof.
  unfold parseProperties, Split.
  induction 1 as [|p params Hp _ IH]; [reflexivity |].
  cbn [propertiesContent foldr]. unfold propertyLine at 1.
  replace ((sp_ID p +:+ "=" +:+ escapePropertyValue (sp_Value p) +:+ LF)
           +:+ foldr _ "" params)
    with (lineOf p +:+ LF +:+ propertiesContent params)
    by (unfold lineOf, propertiesContent; now rewrite !sapp_assoc).
  rewrite split_go_LF_elem by (eapply lineOf_no_LF; eassumption).
  cbn [rev]. rewrite sapp_nil_l. cbn [omap list_omap].
  rewrite (parsePropertyLine_lineOf pid p Hp). cbn [omap].
  rewrite IH. f_equal.
  unfold readable in Hp. rewrite !andb_true_iff in Hp.
  destruct Hp as [[[[[Hpid _] _] _] _] Hv].
  apply String.eqb_eq in Hpid. rewrite (unescape_escape _ Hv), <- Hpid.
  now destruct p.
Qed.

End PropertiesFacts.

(** X5: on a file system that reads back what was written, and with a sort
    that permutes, [readPropertiesFile] gives back what
    [writePropertiesFile] wrote, in the order of the sort: the PID, ID and
    value of every parameter, when each parameter has the PID asked for, an
    ID and a value that form a line the reader takes as it is, and a value
    in which no backslash is followed by [n] or [r]. *)
Theorem readPropertiesFile_writePropertiesFile
    {FS : Type} `{GoOS.Platform FS} `{RepoFile.SliceSort}
    (filePath pid : string) (params : list Repo.StringParameter) (fs fs' : FS) :
  (forall l, RepoFile.sortByID l ≡ₚ l) ->
  (forall data, GoOS.WriteFile filePath data fs = Some fs' ->
                GoOS.ReadFile filePath fs' = Some data) ->
  Forall (fun p => PropertiesView.readable pid p = true) params ->
  RepoFile.writePropertiesFile filePath params fs = GoOS.Ok fs' ->
  RepoFile.readPropertiesFile filePath pid fs'
  = GoOS.Ok (RepoFile.sortByID params).
Proof.
  intros Hperm Hfs Hall Hw.
  unfold RepoFile.writePropertiesFile in Hw.
  destruct (GoOS.WriteFile filePath _ fs) as [fs1|] eqn:Ew; [|discriminate].
  injection Hw as ->.
  unfold RepoFile.readPropertiesFile. rewrite (Hfs _ Ew).
  rewrite PropertiesFacts.parseProperties_propertiesContent; [reflexivity |].
  rewrite Forall_forall in Hall |- *. intros p Hp. apply Hall.
  now rewrite <- (Hperm params).
Qed.

(** The theorem at a concrete input. *)
Lemma readPropertiesFile_writePropertiesFile_witness :
  RepoFile.readPropertiesFile Scenarios2.propertiesPath "P1"
    (<[Scenarios2.propertiesPath :=
         "a=line1\nline2" +:+ GoStrings.LF +:+ "b=x=1" +:+ GoStrings.LF]>
       (∅ : gmap string string))
  = GoOS.Ok [Scenarios2.paramA; Scenarios2.paramB].
Proof.
  apply (@readPropertiesFile_writePropertiesFile (gmap string string)
           MemFS.memPlatform PropertiesView.mergeSliceSort
           Scenarios2.propertiesPath "P1"
           [Scenarios2.paramB; Scenarios2.paramA] ∅).
  - intros l. apply merge_sort_Permutation.
  - intros data Hw. cbn [GoOS.WriteFile GoOS.ReadFile MemFS.memPlatform] in *.
    apply (f_equal (fun o : option (gmap string string) =>
                      o ≫= (fun m => m !! Scenarios2.propertiesPath))) in Hw.
    cbn [mbind option_bind] in Hw. rewrite !lookup_insert_eq in Hw.
    injection Hw as <-.
    apply lookup_insert_eq.
  - repeat constructor.
  - vm_compute. reflexivity.
Defined.

Module MergePropertiesFacts.
Import GoStrings GoStringsMore GoOS Repo RepoFile GoStringsFacts.

Lemma addNewProperties_cons (p : StringParameter) (l : list StringParameter)
    (st : gmap string string * nat) :
  addNewProperties (p :: l) st
  = addNewProperties l
      (match st.1 !! sp_ID p with
       | Some _ => st
       | None => (<[sp_ID p := escapePropertyValue (sp_Value p)]> st.1, S st.2)
       end).
Proof. reflexivity. Qed.

(** The map after the second loop: a key that was there keeps its value, a
    new key gets the escaped value of the first new parameter with that
    ID. *)
Lemma addNewProperties_lookup (l : list StringParameter)
    (st : gmap string string * nat) (k : string) :
  (addNewProperties l st).1 !! k
  = match st.1 !! k with
    | Some v => Some v
    | None => (fun p => escapePropertyValue (sp_Value p))
                <$> List.find (fun p => String.eqb (sp_ID p) k) l
    end.
Proof.
  revert st. induction l as [|p l IH]; intros st.
  - cbn. now destruct (st.1 !! k).
  - rewrite addNewProperties_cons, IH. cbn [List.find].
    destruct (String.eqb_spec (sp_ID p) k) as [->|Hne].
    + destruct (st.1 !! k) as [v|] eqn:Ek; [now rewrite Ek |].
      cbn [fst]. now rewrite lookup_insert_eq.
    + destruct (st.1 !! sp_ID p); [reflexivity |].
      cbn [fst]. now rewrite lookup_insert_ne.
Qed.

Lemma addNewProperties_size (l : list StringParameter)
    (st : gmap string string * nat) :
  size (addNewProperties l st).1 + st.2 = size st.1 + (addNewProperties l st).2.
Proof.
  revert st. induction l as [|p l IH]; intros st; [cbn; lia |].
  rewrite addNewProperties_cons.
  destruct (st.1 !! sp_ID p) eqn:E; [apply IH |].
  specialize (IH (<[sp_ID p := escapePropertyValue (sp_Value p)]> st.1, S st.2)).
  cbn [fst snd] in IH. rewrite map_size_insert_None in IH by exact E. lia.
Qed.

End MergePropertiesFacts.

Module TrimFacts.
Import GoStrings Repo.SpecAlgorithm GoStringsFacts ManifestFacts.

Lemma trim_go_spaceLen (pats : list string) (s : string) (k : nat) :
  spaceLen pats (trim_go pats k s) = 0.
Proof.
  revert k. induction s as [|c s IH]; intros k; [reflexivity |].
  cbn [trim_go]. destruct k as [|k]; [|apply IH].
  destruct (spaceLen pats (String c s)) eqn:E; [exact E | apply IH].
Qed.

Lemma trim_go_fixed (pats : list string) (s : string) :
  spaceLen pats s = 0 -> trim_go pats 0 s = s.
Proof.
  destruct s as [|c s]; [reflexivity |]. intros E. cbn [trim_go]. now rewrite E.
Qed.

Lemma trim_go_suffix (pats : list string) (s : string) (k : nat) :
  exists a, s = a +:+ trim_go pats k s.
Proof.
  revert k. induction s as [|c s IH]; intros k; [now exists "" |].
  cbn [trim_go].
  assert (Hskip : forall k', exists a, String c s = a +:+ trim_go pats k' s).
  { intros k'. destruct (IH k') as [a Ha]. exists (String c a).
    rewrite sapp_cons. now f_equal. }
  destruct k as [|k]; [|apply Hskip].
  destruct (spaceLen pats (String c s)); [now exists "" | apply Hskip].
Qed.

Lemma TrimRightSpace_prefix (s : string) :
  exists w, s = TrimRightSpace s +:+ w.
Proof.
  unfold TrimRightSpace.
  destruct (trim_go_suffix (List.map rev unicodeSpaces) (rev s) 0) as [a Ha].
  exists (rev a). rewrite <- rev_app, <- Ha. now rewrite rev_involutive.
Qed.

Lemma HasPrefix_app_l (t w p : string) :
  HasPrefix t p = true -> HasPrefix (t +:+ w) p = true.
Proof.
  revert t. induction p as [|y p IH]; intros t; [reflexivity |].
  destruct t as [|c t]; [discriminate |].
  rewrite sapp_cons. cbn [HasPrefix]. destruct (Ascii.eqb c y); [apply IH | auto].
Qed.

Lemma unicodeSpaces_nonempty (p : string) :
  In p unicodeSpaces -> String.length p <> 0.
Proof.
  intros Hin.
  assert (H : forallb (fun p => negb (String.length p =? 0)%nat) unicodeSpaces
              = true) by reflexivity.
  rewrite forallb_forall in H. specialize (H _ Hin).
  apply negb_true_iff, Nat.eqb_neq in H. exact H.
Qed.

Lemma spaceLen_prefix (t w : string) :
  spaceLen unicodeSpaces (t +:+ w) = 0 -> spaceLen unicodeSpaces t = 0.
Proof.
  destruct t as [|c t]; [reflexivity |].
  rewrite sapp_cons. cbn [spaceLen].
  destruct (asciiSpace c); [discriminate |].
  destruct (List.find (HasPrefix (String c (t +:+ w))) unicodeSpaces)
    as [p|] eqn:E.
  - apply List.find_some in E as [Hin _]. intros Hl.
    now apply unicodeSpaces_nonempty in Hin.
  - intros _.
    destruct (List.find (HasPrefix (String c t)) unicodeSpaces) as [p|] eqn:E';
      [|reflexivity].
    apply List.find_some in E' as [Hin Hp].
    apply (List.find_none _ _ E) in Hin.
    apply (HasPrefix_app_l _ w) in Hp. rewrite sapp_cons in Hp. congruence.
Qed.

(** Trimming a trimmed text changes nothing. *)
Lemma TrimSpace_idem (s : string) : TrimSpace (TrimSpace s) = TrimSpace s.
Proof.
  unfold TrimSpace.
  set (u := TrimLeftSpace s).
  assert (Hu : spaceLen unicodeSpaces u = 0) by apply trim_go_spaceLen.
  destruct (TrimRightSpace_prefix u) as [w Hw].
  assert (Ht : TrimLeftSpace (TrimRightSpace u) = TrimRightSpace u).
  { apply trim_go_fixed. apply (spaceLen_prefix _ w). now rewrite <- Hw. }
  rewrite Ht. unfold TrimRightSpace.
  rewrite rev_involutive. f_equal. apply trim_go_fixed, trim_go_spaceLen.
Qed.

(** A trimmed text is a part of the text. *)
Lemma TrimSpace_part (s : string) :
  exists a w, s = a +:+ TrimSpace s +:+ w.
Proof.
  unfold TrimSpace.
  destruct (trim_go_suffix unicodeSpaces s 0) as [a Ha].
  fold (TrimLeftSpace s) in Ha.
  destruct (TrimRightSpace_prefix (TrimLeftSpace s)) as [w Hw].
  exists a, w. now rewrite <- Hw.
Qed.

Lemma TrimSpace_no_LF (s : string) :
  Contains s LF = false -> Contains (TrimSpace s) LF = false.
Proof.
  rewrite !Contains_LF. destruct (TrimSpace_part s) as (a & w & Hs).
  intros E. rewrite Hs, !hasByte_app in E.
  apply orb_false_iff in E as [_ E]. now apply orb_false_iff in E as [E _].
Qed.

End TrimFacts.

Module MergeReadFacts.
Import GoStrings GoStringsMore GoOS Repo Repo.SpecAlgorithm RepoFile
  GoStringsFacts ManifestFacts EscapeView EscapeFacts PropertiesView
  PathFacts PropertiesFacts TrimFacts.

Lemma Index_byte_split (c : ascii) (s : string) (m : nat) :
  Index s (String c "") = Some m ->
  s = take m s +:+ String c (drop (m + 1) s).
Proof.
  revert m. induction s as [|a s IH]; intros m; [cbn; discriminate |].
  cbn [Index]. rewrite HasPrefix_byte.
  destruct (Ascii.eqb_spec a c) as [->|Hne].
  - intros [= <-]. reflexivity.
  - destruct (Index s (String c "")) as [n|]; cbn; [|discriminate].
    intros [= <-]. cbn [take drop Nat.add]. rewrite sapp_cons. f_equal.
    now apply IH.
Qed.

(** What the parser reads from a line of one piece, it reads again from the
    line written for it. *)
Lemma parsePropertyLine_keptAsIs (line k v : string) :
  Contains line LF = false ->
  parsePropertyLine line = Some (k, v) -> keptAsIs k v.
Proof.
  intros Hlf. unfold parsePropertyLine.
  destruct (String.eqb (TrimSpace line) "") eqn:Ee; [discriminate |].
  destruct (HasPrefix (TrimSpace line) "#") eqn:Eh; [discriminate |].
  cbn [orb SplitN].
  destruct (Index (TrimSpace line) "=") as [m|] eqn:Ei; [|discriminate].
  intros [= <- <-].
  pose proof (Index_byte_split _ _ _ Ei) as Hs.
  change (String "=" ?x) with ("=" +:+ x) in Hs.
  replace (m + String.length "=") with (m + 1) by reflexivity.
  unfold keptAsIs. rewrite <- Hs. split.
  - unfold parsePropertyLine. rewrite TrimSpace_idem, Ee, Eh.
    cbn [orb SplitN]. rewrite Ei. reflexivity.
  - now apply TrimSpace_no_LF.
Qed.

Lemma mergeable_keptAsIs (p : StringParameter) :
  mergeable p = true ->
  keptAsIs (sp_ID p) (escapePropertyValue (sp_Value p)).
Proof.
  unfold mergeable. rewrite !andb_true_iff, !negb_true_iff.
  intros [[[Heq Hlf] Hhash] Htrim]. apply String.eqb_eq in Htrim.
  unfold lineOf in Htrim. split.
  - unfold parsePropertyLine. rewrite Htrim.
    assert (Hne : String.eqb (sp_ID p +:+ "=" +:+ escapePropertyValue (sp_Value p))
                    "" = false).
    { destruct (sp_ID p); reflexivity. }
    assert (Hh : HasPrefix (sp_ID p +:+ "=" +:+ escapePropertyValue (sp_Value p))
                   "#" = false).
    { destruct (sp_ID p) as [|c k]; [reflexivity |].
      now rewrite HasPrefix_sapp_nonempty. }
    rewrite Hne, Hh. cbn [orb]. now rewrite SplitN_key_value.
  - rewrite Contains_LF in *. rewrite !hasByte_app, Hlf. cbn [hasByte orb].
    destruct (escape_one_line (sp_Value p)) as [H _].
    now rewrite Contains_LF in H.
Qed.

(** Every entry of a map read from a file is kept as it is. *)
Lemma existingProperties_keptAsIs (data k v : string) :
  existingProperties data !! k = Some v -> keptAsIs k v.
Proof.
  unfold existingProperties, Split.
  pose proof (split_go_LF_pieces data "" eq_refl) as Hlines.
  revert Hlines. generalize (split_go 0 LF "" data). intros lines Hlines.
  assert (Hgen : forall st : gmap string string,
            (forall k v, st !! k = Some v -> keptAsIs k v) ->
            forall k v,
              foldl (fun existing line =>
                       match parsePropertyLine line with
                       | Some (k, v) => <[k := v]> existing
                       | None => existing
                       end) st lines !! k = Some v -> keptAsIs k v).
  { induction Hlines as [|line lines Hline _ IH]; intros st Hst; [exact Hst |].
    cbn [foldl]. apply IH.
    destruct (parsePropertyLine line) as [[k1 v1]|] eqn:Ep; [|exact Hst].
    intros k2 v2. destruct (decide (k1 = k2)) as [->|Hne].
    - rewrite lookup_insert_eq. intros [= <-].
      eapply parsePropertyLine_keptAsIs; eassumption.
    - rewrite lookup_insert_ne by exact Hne. apply Hst. }
  apply Hgen. intros k' v'. rewrite lookup_empty. discriminate.
Qed.

Lemma addNewProperties_keptAsIs (l : list StringParameter)
    (st : gmap string string * nat) :
  Forall (fun p => mergeable p = true) l ->
  (forall k v, st.1 !! k = Some v -> keptAsIs k v) ->
  forall k v, (addNewProperties l st).1 !! k = Some v -> keptAsIs k v.
Proof.
  intros Hl. revert st. induction Hl as [|p l Hp _ IH]; intros st Hst;
    [exact Hst |].
  rewrite MergePropertiesFacts.addNewProperties_cons. apply IH.
  destruct (st.1 !! sp_ID p) eqn:E; [exact Hst |]. cbn [fst].
  intros k v. destruct (decide (sp_ID p = k)) as [<-|Hne].
  - rewrite lookup_insert_eq. intros [= <-]. now apply mergeable_keptAsIs.
  - rewrite lookup_insert_ne by exact Hne. apply Hst.
Qed.

(** The parser on the content written for the keys [keys] of a map. *)
Lemma parse_written (m : gmap string string) (keys : list string) :
  (forall k, k ∈ keys -> keptAsIs k (default "" (m !! k))) ->
  forall st : gmap string string,
    foldl (fun existing line =>
             match parsePropertyLine line with
             | Some (k, v) => <[k := v]> existing
             | None => existing
             end) st
      (split_go 0 LF ""
         (foldr (fun key acc => propertyLine key (default "" (m !! key)) +:+ acc)
            "" keys))
    = foldl (fun st key => <[key := default "" (m !! key)]> st) st keys.
Proof.
  induction keys as [|key keys IH]; intros Hkeys st; [reflexivity |].
  cbn [foldr]. unfold propertyLine at 1.
  destruct (Hkeys key ltac:(left)) as [Hparse Hlf].
  replace ((key +:+ "=" +:+ default "" (m !! key) +:+ LF) +:+ foldr _ "" keys)
    with ((key +:+ "=" +:+ default "" (m !! key)) +:+ LF +:+
          foldr (fun key acc => propertyLine key (default "" (m !! key)) +:+ acc)
            "" keys)
    by (now rewrite !sapp_assoc).
  rewrite split_go_LF_elem by exact Hlf.
  cbn [rev]. rewrite sapp_nil_l. cbn [foldl]. rewrite Hparse.
  apply IH. intros k Hk. apply Hkeys. now right.
Qed.

Lemma foldl_insert_lookup (f : string -> string) (keys : list string)
    (st : gmap string string) (k : string) :
  foldl (fun st key => <[key := f key]> st) st keys !! k
  = if decide (k ∈ keys) then Some (f k) else st !! k.
Proof.
  revert st. induction keys as [|key keys IH]; intros st.
  - cbn. destruct (decide (k ∈ [])) as [Hin|]; [|reflexivity].
    now apply elem_of_nil in Hin.
  - cbn [foldl]. rewrite IH.
    destruct (decide (k ∈ keys)) as [Hin|Hnin].
    + rewrite decide_True by now right. reflexivity.
    + destruct (decide (key = k)) as [->|Hne].
      * rewrite decide_True by now left. now rewrite lookup_insert_eq.
      * rewrite decide_False.
        -- now rewrite lookup_insert_ne.
        -- intros Hin. apply elem_of_cons in Hin as [->|Hin]; congruence.
Qed.

(** A map whose entries are kept as they are is read back from the content
    written for it. *)
Lemma existingProperties_mapContent (m : gmap string string) :
  (forall k v, m !! k = Some v -> keptAsIs k v) ->
  existingProperties (mapContent m) = m.
Proof.
  intros Hm. unfold existingProperties, mapContent, Split.
  assert (Hkeys : forall k, k ∈ sortStrings (elements (dom m)) <-> is_Some (m !! k)).
  { intros k. unfold sortStrings. rewrite merge_sort_Permutation.
    rewrite elem_of_elements. apply elem_of_dom. }
  rewrite parse_written.
  - apply map_eq. intros k. rewrite foldl_insert_lookup, lookup_empty.
    destruct (decide (k ∈ sortStrings (elements (dom m)))) as [Hin|Hnin].
    + apply Hkeys in Hin as [v Hv]. now rewrite Hv.
    + destruct (m !! k) as [v|] eqn:Ek; [|reflexivity].
      exfalso. apply Hnin, Hkeys. eauto.
  - intros k Hk. apply Hkeys in Hk as [v Hv]. rewrite Hv. now apply Hm.
Qed.

Lemma parseProperties_written (pid : string) (m : gmap string string)
    (keys : list string) :
  (forall k, k ∈ keys -> keptAsIs k (default "" (m !! k))) ->
  omap (fun line =>
          match parsePropertyLine line with
          | Some (k, v) => Some (mkStringParameter pid k (unescapePropertyValue v))
          | None => None
          end)
       (split_go 0 LF ""
          (foldr (fun key acc => propertyLine key (default "" (m !! key)) +:+ acc)
             "" keys))
  = (fun k => mkStringParameter pid k (unescapePropertyValue (default "" (m !! k))))
      <$> keys.
Proof.
  induction keys as [|key keys IH]; intros Hkeys; [reflexivity |].
  cbn [foldr]. unfold propertyLine at 1.
  destruct (Hkeys key ltac:(left)) as [Hparse Hlf].
  replace ((key +:+ "=" +:+ default "" (m !! key) +:+ LF) +:+ foldr _ "" keys)
    with ((key +:+ "=" +:+ default "" (m !! key)) +:+ LF +:+
          foldr (fun key acc => propertyLine key (default "" (m !! key)) +:+ acc)
            "" keys)
    by (now rewrite !sapp_assoc).
  rewrite split_go_LF_elem by exact Hlf.
  cbn [rev]. rewrite sapp_nil_l. cbn [omap list_omap]. rewrite Hparse.
  cbn [fmap list_fmap]. f_equal.
  apply IH. intros k Hk. apply Hkeys. now right.
Qed.

Lemma parseProperties_mapContent (pid : string) (m : gmap string string) :
  (forall k v, m !! k = Some v -> keptAsIs k v) ->
  parseProperties (mapContent m) pid = parametersOf pid m.
Proof.
  intros Hm. unfold parseProperties, mapContent, parametersOf, Split.
  apply parseProperties_written. intros k Hk.
  unfold sortStrings in Hk. rewrite merge_sort_Permutation in Hk.
  apply elem_of_elements, elem_of_dom in Hk as [v Hv]. rewrite Hv. now apply Hm.
Qed.

End MergeReadFacts.

(** X6: on a file system that reads back what was written, and for new
    parameters whose lines the parser takes as they are, the file that
    [mergePropertiesFile] wrote holds, when it is read again by the parser
    of [mergePropertiesFile] and by [readPropertiesFile], every key of the
    old file with the value it had, every other ID of the new parameters
    with the escaped value of the first parameter that has it, and nothing
    else; the count returned is the number of keys added. *)
Theorem mergePropertiesFile_adds_only {FS : Type} `{GoOS.Platform FS}
    (filePath : string) (newParams : list Repo.StringParameter)
    (fs fs' : FS) (addedCount : nat) :
  (forall data, GoOS.WriteFile filePath data fs = Some fs' ->
                GoOS.ReadFile filePath fs' = Some data) ->
  Forall (fun p => PropertiesView.mergeable p = true) newParams ->
  RepoFile.mergePropertiesFile filePath newParams fs
    = GoOS.Ok (addedCount, fs') ->
  let existing :=
    if GoOS.fileExists filePath fs
    then from_option RepoFile.existingProperties ∅ (GoOS.ReadFile filePath fs)
    else ∅ in
  exists (data : string) (merged : gmap string string),
    GoOS.ReadFile filePath fs' = Some data /\
    RepoFile.existingProperties data = merged /\
    (forall pid, RepoFile.readPropertiesFile filePath pid fs'
                 = GoOS.Ok (PropertiesView.parametersOf pid merged)) /\
    (forall k v, existing !! k = Some v -> merged !! k = Some v) /\
    (forall k, existing !! k = None ->
       merged !! k
       = (fun p => Repo.escapePropertyValue (Repo.sp_Value p))
           <$> List.find (fun p => String.eqb (Repo.sp_ID p) k) newParams) /\
    size merged = size existing + addedCount.
Proof.
  intros Hfs Hnew Hm existing. unfold RepoFile.mergePropertiesFile in Hm.
  assert (Hload :
    (if GoOS.fileExists filePath fs
     then match GoOS.ReadFile filePath fs with
          | Some data => GoOS.Ok (RepoFile.existingProperties data)
          | None => GoOS.Err "failed to read existing properties"
          end
     else GoOS.Ok ∅) = GoOS.Ok existing).
  { subst existing. destruct (GoOS.fileExists filePath fs); [|reflexivity].
    destruct (GoOS.ReadFile filePath fs); [reflexivity | discriminate]. }
  rewrite Hload in Hm. clear Hload.
  destruct (RepoFile.addNewProperties newParams (existing, 0))
    as [merged n] eqn:Ea.
  destruct (GoOS.WriteFile filePath _ fs) as [fs1|] eqn:Ew; [|discriminate].
  injection Hm as <- <-.
  assert (Hold : forall k v, existing !! k = Some v -> PropertiesView.keptAsIs k v).
  { subst existing. destruct (GoOS.fileExists filePath fs).
    - destruct (GoOS.ReadFile filePath fs) as [old|]; cbn [from_option].
      + apply MergeReadFacts.existingProperties_keptAsIs.
      + intros k v. rewrite lookup_empty. discriminate.
    - intros k v. rewrite lookup_empty. discriminate. }
  assert (Hkept : forall k v, merged !! k = Some v -> PropertiesView.keptAsIs k v).
  { pose proof (MergeReadFacts.addNewProperties_keptAsIs newParams (existing, 0)
                  Hnew Hold) as Hk.
    now rewrite Ea in Hk. }
  exists (RepoFile.mapContent merged), merged.
  pose proof (MergePropertiesFacts.addNewProperties_lookup newParams (existing, 0))
    as Hl.
  pose proof (MergePropertiesFacts.addNewProperties_size newParams (existing, 0))
    as Hs.
  rewrite Ea in Hl, Hs. cbn [fst snd] in Hl, Hs.
  split; [exact (Hfs _ Ew) |].
  split; [now apply MergeReadFacts.existingProperties_mapContent |].
  split.
  { intros pid. unfold RepoFile.readPropertiesFile. rewrite (Hfs _ Ew).
    now rewrite MergeReadFacts.parseProperties_mapContent. }
  split; [|split].
  - intros k v Ek. now rewrite Hl, Ek.
  - intros k Ek. now rewrite Hl, Ek.
  - lia.
Qed.

(** The theorem at a concrete input. *)
Lemma mergePropertiesFile_adds_only_witness :
  RepoFile.existingProperties
    ("a=kept" +:+ GoStrings.LF +:+ "b=x=1" +:+ GoStrings.LF) !! "a" = Some "kept"
  /\ RepoFile.existingProperties
       ("a=kept" +:+ GoStrings.LF +:+ "b=x=1" +:+ GoStrings.LF) !! "b" = Some "x=1"
  /\ size (RepoFile.existingProperties
             ("a=kept" +:+ GoStrings.LF +:+ "b=x=1" +:+ GoStrings.LF)) = 2.
Proof.
  destruct (@mergePropertiesFile_adds_only (gmap string string) MemFS.memPlatform
              Scenarios2.propertiesPath [Scenarios2.paramA; Scenarios2.paramB]
              Scenarios2.filesOld
              (<[Scenarios2.propertiesPath :=
                   "a=kept" +:+ GoStrings.LF +:+ "b=x=1" +:+ GoStrings.LF]>
                 Scenarios2.filesOld) 1)
    as (data & merged & Hread & Hdata & _ & Hkeep & Hnew & Hsize).
  - intros data Hw. cbn [GoOS.WriteFile GoOS.ReadFile MemFS.memPlatform] in *.
    apply (f_equal (fun o : option (gmap string string) =>
                      o ≫= (fun m => m !! Scenarios2.propertiesPath))) in Hw.
    cbn [mbind option_bind] in Hw. rewrite !lookup_insert_eq in Hw.
    injection Hw as <-.
    apply lookup_insert_eq.
  - repeat constructor.
  - vm_compute. reflexivity.
  - cbn [GoOS.ReadFile MemFS.memPlatform] in Hread.
    rewrite lookup_insert_eq in Hread. injection Hread as <-.
    rewrite Hdata. split; [|split].
    + apply Hkeep. vm_compute. reflexivity.
    + rewrite Hnew; vm_compute; reflexivity.
    + rewrite Hsize. vm_compute. reflexivity.
Defined.

Module ParseFacts.
Import GoStrings GoStringsMore GoOS Repo Repo.SpecAlgorithm RepoFile
  GoStringsFacts.

Lemma hasByte_beforeFirst (c : ascii) (s : string) :
  hasByte c (beforeFirst c s) = false.
Proof.
  induction s as [|a s IH]; [reflexivity |].
  cbn [beforeFirst]. destruct (Ascii.eqb a c) eqn:E; [reflexivity |].
  cbn [hasByte]. now rewrite E, IH.
Qed.

Lemma HasPrefix_take (s : string) (c : ascii) (n : nat) :
  HasPrefix (take n s) (String c "") = true ->
  HasPrefix s (String c "") = true.
Proof.
  rewrite !HasPrefix_byte. destruct n, s; cbn; auto; discriminate.
Qed.

(** The key of a line that is read has no [=] and does not start with
    [#]. *)
Lemma parsePropertyLine_key (line k v : string) :
  parsePropertyLine line = Some (k, v) ->
  Contains k "=" = false /\ HasPrefix k "#" = false.
Proof.
  unfold parsePropertyLine.
  destruct (String.eqb (TrimSpace line) ""); [discriminate |].
  destruct (HasPrefix (TrimSpace line) "#") eqn:Eh; [discriminate |].
  cbn [orb SplitN].
  destruct (Index (TrimSpace line) "=") as [m|] eqn:Ei; [|discriminate].
  intros [= <- <-].
  destruct (Index_byte_Some _ _ _ Ei) as [_ Et]. split.
  - rewrite Contains_byte, Et. apply hasByte_beforeFirst.
  - destruct (HasPrefix (take m (TrimSpace line)) "#") eqn:E; [|reflexivity].
    apply HasPrefix_take in E. congruence.
Qed.

End ParseFacts.

(** X7: every parameter [readPropertiesFile] returns has the PID asked for
    and an ID that holds no [=] and does not start with [#]. *)
Theorem readPropertiesFile_keys {FS : Type} `{GoOS.Platform FS}
    (filePath pid : string) (fs : FS) (params : list Repo.StringParameter) :
  RepoFile.readPropertiesFile filePath pid fs = GoOS.Ok params ->
  Forall (fun p => Repo.sp_Pid p = pid /\
                   GoStrings.Contains (Repo.sp_ID p) "=" = false /\
                   GoStrings.HasPrefix (Repo.sp_ID p) "#" = false) params.
Proof.
  unfold RepoFile.readPropertiesFile.
  destruct (GoOS.ReadFile filePath fs) as [data|]; [|discriminate].
  intros [= <-]. unfold RepoFile.parseProperties.
  rewrite Forall_forall. intros p Hp.
  apply list_elem_of_omap in Hp as (line & _ & Hl).
  destruct (RepoFile.parsePropertyLine line) as [[k v]|] eqn:E; [|discriminate].
  injection Hl as <-. cbn.
  split; [reflexivity |]. eapply ParseFacts.parsePropertyLine_key; eassumption.
Qed.

(** The theorem at a concrete input. *)
Lemma readPropertiesFile_keys_witness :
  Forall (fun p => Repo.sp_Pid p = "P1" /\
                   GoStrings.Contains (Repo.sp_ID p) "=" = false /\
                   GoStrings.HasPrefix (Repo.sp_ID p) "#" = false)
         [Repo.mkStringParameter "P1" "a" "kept"].
Proof.
  apply (@readPropertiesFile_keys (gmap string string) MemFS.memPlatform
           Scenarios2.propertiesPath "P1" Scenarios2.filesOld).
  vm_compute. reflexivity.
Defined.

Module MergeMoreFacts.
Import GoStrings GoOS Models Deploy MergeView GoStringsFacts MergeFacts.

Lemma firstDup_None (seen : gmap string string) (l : list (string * string)) :
  firstDup seen l = None <->
  NoDup l.*1 /\ forall k, k ∈ l.*1 -> seen !! k = None.
Proof.
  revert seen. induction l as [|[k f] l IH]; intros seen.
  - cbn. split; [intros _; split; [constructor | intros k Hk; inversion Hk] | done].
  - cbn [firstDup fmap list_fmap fst]. destruct (seen !! k) as [f0|] eqn:Ek.
    + split; [discriminate |]. intros [_ Hs].
      specialize (Hs k (list_elem_of_here _ _)). congruence.
    + rewrite IH, NoDup_cons. split.
      * intros [Hnd Hs]. repeat split; [|assumption|].
        -- intros Hin. specialize (Hs k Hin). now rewrite lookup_insert_eq in Hs.
        -- intros k1 Hk1. apply elem_of_cons in Hk1 as [->|Hk1]; [assumption |].
           specialize (Hs k1 Hk1).
           destruct (decide (k = k1)) as [->|Hne];
             [now rewrite lookup_insert_eq in Hs |
              now rewrite lookup_insert_ne in Hs].
      * intros [[Hk Hnd] Hs]. split; [assumption |].
        intros k1 Hk1. rewrite lookup_insert_ne.
        -- apply Hs. now right.
        -- intros ->. contradiction.
Qed.

Lemma keyed_fst (es : list entry) : (keyed es).*1 = fqid <$> es.
Proof. unfold keyed. rewrite <- list_fmap_compose. reflexivity. Qed.

Lemma ID_mergedPackage (e : entry) : ID (mergedPackage e) = fqid e.
Proof.
  destruct e as [[P f] p]. unfold mergedPackage, fqid. cbn [fst snd].
  destruct (String.eqb_spec P "") as [->|]; reflexivity.
Qed.

(** The run of [MergeConfigs] on a non-empty list, by its entries. *)
Lemma MergeConfigs_entries (configs : list DeployConfigFile) (h : heap) :
  configs <> [] ->
  (MergeConfigs configs h).2
  = match firstDup ∅ (keyed (entries configs)) with
    | Some r => Err (duplicateError r.1.1 r.1.2 r.2)
    | None => Ok (mkDeployConfig "" (mergedPackage <$> entries configs))
    end.
Proof.
  intros Hne. unfold MergeConfigs.
  destruct configs as [|cf configs]; [congruence |].
  rewrite mergeAll_entries.
  pose proof (mergeEntries_firstDup (entries (cf :: configs))
                (mkMergeState h ∅ [])) as Hd.
  destruct (mergeEntries _ _) as [st [e|]] eqn:Em; cbn [snd] in Hd |- *.
  - cbn [ms_packageMap] in Hd.
    destruct (firstDup _ _) as [r|]; [|discriminate].
    now injection Hd as ->.
  - cbn [ms_packageMap] in Hd.
    destruct (firstDup _ _) as [r|]; [discriminate |].
    apply mergeEntries_success in Em as [-> _]. reflexivity.
Qed.

End MergeMoreFacts.

(** X8: [MergeConfigs] succeeds exactly when there is a configuration and the
    fully qualified IDs of all the packages are distinct. *)
Theorem MergeConfigs_succeeds_iff (configs : list Deploy.DeployConfigFile)
    (h : Models.heap) :
  (exists merged, (Deploy.MergeConfigs configs h).2 = GoOS.Ok merged)
  <->
  configs <> [] /\ NoDup (MergeView.fqid <$> MergeView.entries configs).
Proof.
  split.
  - intros [merged Hm]. assert (Hne : configs <> []).
    { intros ->. discriminate. }
    split; [exact Hne |].
    rewrite (MergeMoreFacts.MergeConfigs_entries _ _ Hne) in Hm.
    destruct (MergeView.firstDup _ _) as [r|] eqn:Ed; [discriminate |].
    apply MergeMoreFacts.firstDup_None in Ed as [Hnd _].
    now rewrite MergeMoreFacts.keyed_fst in Hnd.
  - intros [Hne Hnd].
    rewrite (MergeMoreFacts.MergeConfigs_entries _ _ Hne).
    replace (MergeView.firstDup ∅ _) with (@None (string * string * string)).
    + eauto.
    + symmetry. apply MergeMoreFacts.firstDup_None.
      rewrite MergeMoreFacts.keyed_fst. split; [assumption |].
      intros k _. apply lookup_empty.
Qed.

(** X9: the configuration [MergeConfigs] returns has an empty deployment
    prefix, and its packages carry the fully qualified IDs, in the order of
    the configurations, without a repetition. *)
Theorem MergeConfigs_merged_ids (configs : list Deploy.DeployConfigFile)
    (h h' : Models.heap) (merged : Models.DeployConfig) :
  Deploy.MergeConfigs configs h = (h', GoOS.Ok merged) ->
  Models.DeploymentPrefix merged = "" /\
  Models.ID <$> Models.Packages merged
    = MergeView.fqid <$> MergeView.entries configs /\
  NoDup (Models.ID <$> Models.Packages merged).
Proof.
  intros Hm. assert (Hne : configs <> []).
  { intros ->. discriminate. }
  apply (f_equal snd) in Hm. cbn [snd] in Hm.
  rewrite (MergeMoreFacts.MergeConfigs_entries _ _ Hne) in Hm.
  destruct (MergeView.firstDup _ _) as [r|] eqn:Ed; [discriminate |].
  injection Hm as <-. cbn [Models.DeploymentPrefix Models.Packages].
  apply MergeMoreFacts.firstDup_None in Ed as [Hnd _].
  rewrite MergeMoreFacts.keyed_fst in Hnd.
  assert (E : Models.ID <$> (MergeView.mergedPackage <$> MergeView.entries configs)
              = MergeView.fqid <$> MergeView.entries configs).
  { rewrite <- list_fmap_compose. apply list_fmap_ext.
    intros i e _. apply MergeMoreFacts.ID_mergedPackage. }
  rewrite E. auto.
Qed.

(** The theorem at a concrete input. *)
Lemma MergeConfigs_merged_ids_witness :
  Models.DeploymentPrefix Scenarios.mergedS2 = "" /\
  Models.ID <$> Models.Packages Scenarios.mergedS2
    = MergeView.fqid <$> MergeView.entries Scenarios.configsS2 /\
  NoDup (Models.ID <$> Models.Packages Scenarios.mergedS2).
Proof.
  apply (MergeConfigs_merged_ids Scenarios.configsS2 Scenarios.heap2
           Scenarios.heapS2).
  vm_compute. reflexivity.
Defined.

Module ManifestMoreFacts.
Import GoStrings GoOS Deploy ManifestView GoStringsFacts ManifestFacts.

Lemma isBundleSymbolicName_rewriteLine (sym name l : string) :
  isBundleSymbolicName (rewriteLine sym name l) = isBundleSymbolicName l.
Proof.
  unfold rewriteLine. destruct (isBundleName l) eqn:E1.
  - rewrite (isBundleName_not_symbolic _ E1).
    apply isBundleName_not_symbolic, isBundleName_canonical.
  - destruct (isBundleSymbolicName l) eqn:E2; [|exact E2].
    apply isBundleSymbolicName_canonical.
Qed.

(** A line that was rewritten is not changed by a second pass. *)
Lemma rewriteLine_idem (sym name l : string) :
  rewriteLine sym name (rewriteLine sym name l) = rewriteLine sym name l.
Proof.
  unfold rewriteLine at 1.
  rewrite isBundleName_rewriteLine, isBundleSymbolicName_rewriteLine.
  unfold rewriteLine.
  destruct (isBundleName l); [reflexivity |].
  destruct (isBundleSymbolicName l); reflexivity.
Qed.

Lemma rewriteLine_header_name (sym name : string) :
  rewriteLine sym name ("Bundle-Name: " +:+ name) = "Bundle-Name: " +:+ name.
Proof. unfold rewriteLine. now rewrite isBundleName_canonical. Qed.

Lemma rewriteLine_header_sym (sym name : string) :
  rewriteLine sym name ("Bundle-SymbolicName: " +:+ sym)
  = "Bundle-SymbolicName: " +:+ sym.
Proof.
  unfold rewriteLine.
  now rewrite isBundleName_symbolic, isBundleSymbolicName_canonical.
Qed.

Lemma existsb_fmap {A B} (f : B -> bool) (g : A -> B) (l : list A) :
  existsb f (g <$> l) = existsb (fun x => f (g x)) l.
Proof. induction l as [|x l IH]; [reflexivity | cbn; now rewrite <- IH]. Qed.

Lemma existsb_ext {A} (f g : A -> bool) (l : list A) :
  (forall x, f x = g x) -> existsb f l = existsb g l.
Proof. intros E. induction l as [|x l IH]; [reflexivity | cbn; now rewrite E, IH]. Qed.

(** The lines written hold both headers and are fixed by the rewriting. *)
Lemma manifestResult_fixed (content sym name : string) :
  let R := manifestResult content sym name in
  existsb isBundleName R = true /\ existsb isBundleSymbolicName R = true /\
  rewriteLine sym name <$> R = R.
Proof.
  cbv zeta. rewrite manifestResult_spec.
  set (lines := Split content (lineEndingOf content)).
  rewrite !existsb_app, !existsb_fmap, !fmap_app, <- list_fmap_compose.
  rewrite (existsb_ext (fun x => isBundleName (rewriteLine sym name x))
             isBundleName) by (intros; apply isBundleName_rewriteLine).
  rewrite (existsb_ext (fun x => isBundleSymbolicName (rewriteLine sym name x))
             isBundleSymbolicName)
    by (intros; apply isBundleSymbolicName_rewriteLine).
  repeat split.
  - destruct (existsb isBundleName lines); [reflexivity |].
    cbn [existsb orb]. now rewrite isBundleName_canonical.
  - destruct (existsb isBundleSymbolicName lines); [reflexivity |].
    destruct (existsb isBundleName lines); cbn [existsb orb];
      rewrite isBundleSymbolicName_canonical, ?orb_true_r; reflexivity.
  - f_equal; [|f_equal].
    + apply list_fmap_ext. intros i l _. apply rewriteLine_idem.
    + destruct (existsb isBundleName lines); [reflexivity |].
      cbn [fmap list_fmap]. now rewrite rewriteLine_header_name.
    + destruct (existsb isBundleSymbolicName lines); [reflexivity |].
      cbn [fmap list_fmap]. now rewrite rewriteLine_header_sym.
Qed.

Lemma rewriteLine_empty (sym name : string) : rewriteLine sym name "" = "".
Proof. reflexivity. Qed.

End ManifestMoreFacts.

(** X10: rewriting a manifest a second time with the same names changes
    nothing, when the names have one line and a content that has no CRLF
    does not end with a carriage return. *)
Theorem manifestContent_idempotent (content bundleSymbolicName bundleName : string) :
  ManifestView.singleLine bundleName = true ->
  ManifestView.singleLine bundleSymbolicName = true ->
  (GoStrings.Contains content GoStrings.CRLF = false ->
   GoStrings.HasSuffix content GoStrings.CR = false) ->
  Deploy.manifestContent
    (Deploy.manifestContent content bundleSymbolicName bundleName)
    bundleSymbolicName bundleName
  = Deploy.manifestContent content bundleSymbolicName bundleName.
Proof.
  intros Hname Hsym Hcr.
  pose proof (ManifestFacts.lineEndingOf_manifestContent content _ _ Hname Hsym Hcr)
    as Hle.
  pose proof (ManifestFacts.HasSuffix_manifestContent content bundleSymbolicName
                bundleName) as Hsuf.
  pose proof (ManifestFacts.Split_manifestContent content _ _ Hname Hsym) as Hsplit.
  cbv zeta in Hsplit.
  destruct (ManifestMoreFacts.manifestResult_fixed content bundleSymbolicName
              bundleName) as (Hbn & Hbsn & Hfix).
  set (c' := Deploy.manifestContent content bundleSymbolicName bundleName) in *.
  set (R := Deploy.manifestResult content bundleSymbolicName bundleName) in *.
  assert (HR' : Deploy.manifestResult c' bundleSymbolicName bundleName
                = GoStrings.Split c' (Deploy.lineEndingOf content) /\
                c' = GoStrings.Join (GoStrings.Split c' (Deploy.lineEndingOf content))
                       (Deploy.lineEndingOf content)).
  { rewrite ManifestFacts.manifestResult_spec. cbv zeta. rewrite Hle.
    destruct Hsplit as [[Hj Hs] | [Hj Hs]]; rewrite Hs.
    - rewrite Hbn, Hbsn, Hfix, !app_nil_r. split; [reflexivity | exact Hj].
    - rewrite !existsb_app, Hbn, Hbsn. cbn [orb app].
      rewrite fmap_app, Hfix, app_nil_r. split; [reflexivity | exact Hj]. }
  destruct HR' as [HR' Hj].
  unfold Deploy.manifestContent at 1. rewrite Hle, HR', <- Hj, Hsuf. reflexivity.
Qed.

(** The theorem at a concrete input. *)
Lemma manifestContent_idempotent_witness :
  Deploy.manifestContent
    (Deploy.manifestContent Scenarios.manifestS1 "A1" "Artifact one")
    "A1" "Artifact one"
  = Deploy.manifestContent Scenarios.manifestS1 "A1" "Artifact one".
Proof.
  apply (manifestContent_idempotent Scenarios.manifestS1 "A1" "Artifact one").
  - reflexivity.
  - reflexivity.
  - intros _. vm_compute. reflexivity.
Defined.

Module PDDeployMoreFacts.
Import GoStrings GoOS Repo Cmd CmdFacts PDDeploy PDDeployView DeployEventsView
  OrchestratorView OrchestratorFacts.

Section Deploy.
Context {W : Type} `{PartnerDirectoryAPI W}.

Local Abbreviation emits := (emits (W := W) (E := event)).
Local Abbreviation returns := (returns (W := W) (E := event)).

(** In a dry run the two push loops only read single records. *)
Lemma deployStringParameters_dry_run (pdRepo : LocalRepo) (replace : bool)
    (pidsFilter : list string) :
  emits (fun e => isSingleGet e = true)
        (deployStringParameters pdRepo replace true pidsFilter).
Proof.
  unfold deployStringParameters.
  destruct (GetLocalPIDs pdRepo); [|apply emits_ret].
  apply emits_bind; [|intros ?; apply emits_ret].
  apply emits_forEach. intros pid r _.
  destruct (ReadStringParameters pdRepo pid); [|apply emits_ret].
  apply emits_forEach. intros param r' _.
  unfold deployStringParameter. repeat emits_step; reflexivity.
Qed.

Lemma deployBinaryParameters_dry_run (pdRepo : LocalRepo) (replace : bool)
    (pidsFilter : list string) :
  emits (fun e => isSingleGet e = true)
        (deployBinaryParameters pdRepo replace true pidsFilter).
Proof.
  unfold deployBinaryParameters.
  destruct (GetLocalPIDs pdRepo); [|apply emits_ret].
  apply emits_bind; [|intros ?; apply emits_ret].
  apply emits_forEach. intros pid r _.
  destruct (ReadBinaryParameters pdRepo pid); [|apply emits_ret].
  apply emits_forEach. intros param r' _.
  unfold deployBinaryParameter. repeat emits_step; reflexivity.
Qed.

(** Without [replace] the two push loops never update. *)
Lemma deployStringParameters_add_only (pdRepo : LocalRepo) (dryRun : bool)
    (pidsFilter : list string) :
  emits (fun e => isUpdate e = false)
        (deployStringParameters pdRepo false dryRun pidsFilter).
Proof.
  unfold deployStringParameters.
  destruct (GetLocalPIDs pdRepo); [|apply emits_ret].
  apply emits_bind; [|intros ?; apply emits_ret].
  apply emits_forEach. intros pid r _.
  destruct (ReadStringParameters pdRepo pid); [|apply emits_ret].
  apply emits_forEach. intros param r' _.
  unfold deployStringParameter. cbn [andb]. repeat emits_step; reflexivity.
Qed.

Lemma deployBinaryParameters_add_only (pdRepo : LocalRepo) (dryRun : bool)
    (pidsFilter : list string) :
  emits (fun e => isUpdate e = false)
        (deployBinaryParameters pdRepo false dryRun pidsFilter).
Proof.
  unfold deployBinaryParameters.
  destruct (GetLocalPIDs pdRepo); [|apply emits_ret].
  apply emits_bind; [|intros ?; apply emits_ret].
  apply emits_forEach. intros pid r _.
  destruct (ReadBinaryParameters pdRepo pid); [|apply emits_ret].
  apply emits_forEach. intros param r' _.
  unfold deployBinaryParameter. cbn [andb]. repeat emits_step; reflexivity.
Qed.

Lemma deleteRemoteEntriesNotInLocal_no_update (pdRepo : LocalRepo)
    (managedPIDs : list string) :
  emits (fun e => isUpdate e = false)
        (deleteRemoteEntriesNotInLocal pdRepo managedPIDs).
Proof.
  unfold deleteRemoteEntriesNotInLocal.
  apply emits_bind; [apply emits_call; reflexivity |].
  intros [l1|e]; [|apply emits_ret].
  apply emits_bind.
  { apply emits_forEach. intros p r _. repeat emits_step; reflexivity. }
  intros r1. apply emits_bind; [apply emits_call; reflexivity |].
  intros [l2|e]; [|apply emits_ret].
  apply emits_bind; [|intros ?; apply emits_ret].
  apply emits_forEach. intros p r _. repeat emits_step; reflexivity.
Qed.

End Deploy.
End PDDeployMoreFacts.

(** X11: in a dry run the deploy command calls the tenant only to read single
    parameters: it creates, updates, lists and deletes nothing. *)
Theorem deployPartnerDirectory_dry_run {W : Type} `{PDDeploy.PartnerDirectoryAPI W}
    (pdRepo : PDDeploy.LocalRepo) (replace fullSync : bool)
    (pidsFilter : list string) :
  Cmd.emits (W := W) (fun e => DeployEventsView.isSingleGet e = true)
    (PDDeploy.deployPartnerDirectory pdRepo replace fullSync true pidsFilter).
Proof.
  unfold PDDeploy.deployPartnerDirectory.
  destruct (PDDeploy.GetLocalPIDs pdRepo); [|apply CmdFacts.emits_ret].
  destruct (_ && _); [apply CmdFacts.emits_ret |].
  apply CmdFacts.emits_bind;
    [apply PDDeployMoreFacts.deployStringParameters_dry_run |].
  intros [r1|e]; [|apply CmdFacts.emits_ret].
  apply CmdFacts.emits_bind;
    [apply PDDeployMoreFacts.deployBinaryParameters_dry_run |].
  intros [r2|e]; [|apply CmdFacts.emits_ret].
  rewrite andb_false_r. apply CmdFacts.emits_ret.
Qed.

(** X12: without [replace] the deploy command updates no parameter. *)
Theorem deployPartnerDirectory_add_only {W : Type} `{PDDeploy.PartnerDirectoryAPI W}
    (pdRepo : PDDeploy.LocalRepo) (fullSync dryRun : bool)
    (pidsFilter : list string) :
  Cmd.emits (W := W) (fun e => DeployEventsView.isUpdate e = false)
    (PDDeploy.deployPartnerDirectory pdRepo false fullSync dryRun pidsFilter).
Proof.
  unfold PDDeploy.deployPartnerDirectory.
  destruct (PDDeploy.GetLocalPIDs pdRepo); [|apply CmdFacts.emits_ret].
  destruct (_ && _); [apply CmdFacts.emits_ret |].
  apply CmdFacts.emits_bind;
    [apply PDDeployMoreFacts.deployStringParameters_add_only |].
  intros [r1|e]; [|apply CmdFacts.emits_ret].
  apply CmdFacts.emits_bind;
    [apply PDDeployMoreFacts.deployBinaryParameters_add_only |].
  intros [r2|e]; [|apply CmdFacts.emits_ret].
  destruct (_ && _); [|apply CmdFacts.emits_ret].
  apply CmdFacts.emits_bind;
    [apply PDDeployMoreFacts.deleteRemoteEntriesNotInLocal_no_update |].
  intros [r3|e]; apply CmdFacts.emits_ret.
Qed.

Module PDDeployCountFacts.
Import GoStrings GoOS Repo Cmd CmdFacts PDDeploy PDDeployView DeployEventsView
  OrchestratorView OrchestratorFacts.

Lemma entries_addCreated k r : entries (addCreated k r) = S (entries r).
Proof. unfold entries, addCreated. cbn. rewrite length_app. cbn. lia. Qed.
Lemma entries_addUpdated k r : entries (addUpdated k r) = S (entries r).
Proof. unfold entries, addUpdated. cbn. rewrite length_app. cbn. lia. Qed.
Lemma entries_addUnchanged k r : entries (addUnchanged k r) = S (entries r).
Proof. unfold entries, addUnchanged. cbn. rewrite length_app. cbn. lia. Qed.
Lemma entries_addError k r : entries (addError k r) = S (entries r).
Proof. unfold entries, addError. cbn. rewrite length_app. cbn. lia. Qed.

Section Count.
Context {W : Type} `{PartnerDirectoryAPI W}.

Local Abbreviation M := (Cmd.M (W := W) (E := event)).
Local Abbreviation returns := (returns (W := W) (E := event)).

(** A loop whose body adds [g a] to the measure [f] adds the sum. *)
Lemma returns_forEach_sum {A R} (f : R -> nat) (g : A -> nat) (l : list A)
    (body : A -> R -> M R) (r : R) :
  (forall a r, returns (fun r' => f r' = f r + g a) (body a r)) ->
  returns (fun r' => f r' = f r + sum_list (g <$> l)) (forEach l body r).
Proof.
  intros Hbody. revert r. induction l as [|a l IH]; intros r; cbn [forEach].
  - apply returns_ret. cbn. lia.
  - apply (returns_bind (fun r' => f r' = f r + g a)); [apply Hbody |].
    intros r' Hr' w. specialize (IH r' w). cbn beta in IH |- *.
    rewrite IH, Hr'. cbn. lia.
Qed.

Lemma deployStringParameter_entries (replace dryRun : bool)
    (param : StringParameter) (r : BatchResult) :
  returns (fun r' => entries r' = entries r + 1)
          (deployStringParameter replace dryRun param r).
Proof.
  unfold deployStringParameter.
  repeat returns_step;
    rewrite ?entries_addCreated, ?entries_addUpdated, ?entries_addUnchanged,
      ?entries_addError; lia.
Qed.

Lemma deployBinaryParameter_entries (replace dryRun : bool)
    (param : BinaryParameter) (r : BatchResult) :
  returns (fun r' => entries r' = entries r + 1)
          (deployBinaryParameter replace dryRun param r).
Proof.
  unfold deployBinaryParameter.
  repeat returns_step;
    rewrite ?entries_addCreated, ?entries_addUpdated, ?entries_addUnchanged,
      ?entries_addError; lia.
Qed.

Lemma sum_list_ones {A} (l : list A) : sum_list ((fun _ => 1) <$> l) = length l.
Proof. induction l as [|a l IH]; [reflexivity | cbn; now rewrite IH]. Qed.

Lemma deployStringParameters_entries (pdRepo : LocalRepo)
    (replace dryRun : bool) (pidsFilter pids : list string) :
  GetLocalPIDs pdRepo = Ok pids ->
  returns (fun res =>
             exists r, res = Ok r /\
               entries r = sum_list (expected (ReadStringParameters pdRepo)
                                       <$> selected pids pidsFilter))
          (deployStringParameters pdRepo replace dryRun pidsFilter).
Proof.
  intros Hp. unfold deployStringParameters. rewrite Hp.
  eapply returns_bind.
  - apply (returns_forEach_sum entries (expected (ReadStringParameters pdRepo))).
    intros pid r. unfold expected.
    destruct (ReadStringParameters pdRepo pid) as [ps|e].
    + intros w.
      pose proof (returns_forEach_sum entries (fun _ => 1) ps
                    (deployStringParameter replace dryRun) r
                    (deployStringParameter_entries replace dryRun) w) as Hs.
      cbn beta in Hs. now rewrite sum_list_ones in Hs.
    + apply returns_ret. rewrite entries_addError. lia.
  - intros r Hr. apply returns_ret. exists r. split; [reflexivity |].
    exact Hr.
Qed.

Lemma deployBinaryParameters_entries (pdRepo : LocalRepo)
    (replace dryRun : bool) (pidsFilter pids : list string) :
  GetLocalPIDs pdRepo = Ok pids ->
  returns (fun res =>
             exists r, res = Ok r /\
               entries r = sum_list (expected (ReadBinaryParameters pdRepo)
                                       <$> selected pids pidsFilter))
          (deployBinaryParameters pdRepo replace dryRun pidsFilter).
Proof.
  intros Hp. unfold deployBinaryParameters. rewrite Hp.
  eapply returns_bind.
  - apply (returns_forEach_sum entries (expected (ReadBinaryParameters pdRepo))).
    intros pid r. unfold expected.
    destruct (ReadBinaryParameters pdRepo pid) as [ps|e].
    + intros w.
      pose proof (returns_forEach_sum entries (fun _ => 1) ps
                    (deployBinaryParameter replace dryRun) r
                    (deployBinaryParameter_entries replace dryRun) w) as Hs.
      cbn beta in Hs. now rewrite sum_list_ones in Hs.
    + apply returns_ret. rewrite entries_addError. lia.
  - intros r Hr. apply returns_ret. exists r. split; [reflexivity |].
    exact Hr.
Qed.

End Count.
End PDDeployCountFacts.

(** X13: in the report of a deploy that succeeds, the string results have as
    many entries as the selected PIDs have local string parameters, a PID
    whose parameters cannot be read counting for one entry; likewise the
    binary results. *)
Theorem deployPartnerDirectory_report {W : Type} `{PDDeploy.PartnerDirectoryAPI W}
    (pdRepo : PDDeploy.LocalRepo) (replace fullSync dryRun : bool)
    (pidsFilter pids : list string) (w : W) (report : PDDeploy.DeployReport) :
  PDDeploy.GetLocalPIDs pdRepo = GoOS.Ok pids ->
  (PDDeploy.deployPartnerDirectory pdRepo replace fullSync dryRun pidsFilter w).1.1
    = GoOS.Ok report ->
  DeployEventsView.entries (PDDeploy.stringResults report)
    = sum_list (DeployEventsView.expected (PDDeploy.ReadStringParameters pdRepo)
                  <$> DeployEventsView.selected pids pidsFilter) /\
  DeployEventsView.entries (PDDeploy.binaryResults report)
    = sum_list (DeployEventsView.expected (PDDeploy.ReadBinaryParameters pdRepo)
                  <$> DeployEventsView.selected pids pidsFilter).
Proof.
  intros Hp Hres.
  assert (Hr : OrchestratorView.returns (W := W) (E := PDDeploy.event)
            (fun res => forall rep, res = GoOS.Ok rep ->
               DeployEventsView.entries (PDDeploy.stringResults rep)
                 = sum_list (DeployEventsView.expected
                               (PDDeploy.ReadStringParameters pdRepo)
                               <$> DeployEventsView.selected pids pidsFilter) /\
               DeployEventsView.entries (PDDeploy.binaryResults rep)
                 = sum_list (DeployEventsView.expected
                               (PDDeploy.ReadBinaryParameters pdRepo)
                               <$> DeployEventsView.selected pids pidsFilter))
            (PDDeploy.deployPartnerDirectory pdRepo replace fullSync dryRun
               pidsFilter)).
  { unfold PDDeploy.deployPartnerDirectory. rewrite Hp.
    destruct (_ && _); [apply OrchestratorFacts.returns_ret; discriminate |].
    eapply OrchestratorFacts.returns_bind;
      [apply (PDDeployCountFacts.deployStringParameters_entries _ _ _ _ _ Hp) |].
    intros res1 (r1 & -> & H1).
    eapply OrchestratorFacts.returns_bind;
      [apply (PDDeployCountFacts.deployBinaryParameters_entries _ _ _ _ _ Hp) |].
    intros res2 (r2 & -> & H2).
    destruct (_ && _).
    - apply OrchestratorFacts.returns_bind_any. intros [d|e];
        apply OrchestratorFacts.returns_ret; intros rep [= <-]; cbn; auto.
    - apply OrchestratorFacts.returns_ret. intros rep [= <-]. cbn. auto. }
  exact (Hr w report Hres).
Qed.

(** The theorem at a concrete input. *)
Lemma deployPartnerDirectory_report_witness :
  DeployEventsView.entries
    (PDDeploy.stringResults
       (PDDeploy.mkDeployReport
          (PDDeploy.mkBatchResult [] [] ["P1/s1"] [] [])
          PDDeploy.emptyResult None)) = 1 /\
  DeployEventsView.entries
    (PDDeploy.binaryResults
       (PDDeploy.mkDeployReport
          (PDDeploy.mkBatchResult [] [] ["P1/s1"] [] [])
          PDDeploy.emptyResult None)) = 0.
Proof.
  apply (deployPartnerDirectory_report Scenarios.repoS5 true false false []
           ["P1"] Scenarios.tenantS5).
  - reflexivity.
  - vm_compute. reflexivity.
Defined.

(** X14: when the local PIDs can be read, the deploy command fails exactly
    when a PID filter is given and selects no local PID; no failed call of
    the tenant makes it fail. *)
Theorem deployPartnerDirectory_fails_iff {W : Type} `{PDDeploy.PartnerDirectoryAPI W}
    (pdRepo : PDDeploy.LocalRepo) (replace fullSync dryRun : bool)
    (pidsFilter pids : list string) (w : W) :
  PDDeploy.GetLocalPIDs pdRepo = GoOS.Ok pids ->
  (exists msg,
     (PDDeploy.deployPartnerDirectory pdRepo replace fullSync dryRun pidsFilter w).1.1
     = GoOS.Err msg)
  <-> pidsFilter <> [] /\ PDDeploy.filterPIDs pids pidsFilter = [].
Proof.
  intros Hp. revert w.
  change (OrchestratorView.returns (W := W) (E := PDDeploy.event)
            (fun res => (exists msg, res = GoOS.Err msg) <->
                        pidsFilter <> [] /\ PDDeploy.filterPIDs pids pidsFilter = [])
            (PDDeploy.deployPartnerDirectory pdRepo replace fullSync dryRun pidsFilter)).
  unfold PDDeploy.deployPartnerDirectory. rewrite Hp.
  destruct (0 <? length pidsFilter)%nat eqn:Ef; cbn [andb].
  - destruct (length (PDDeploy.filterPIDs pids pidsFilter) =? 0)%nat eqn:El.
    + apply OrchestratorFacts.returns_ret. split; [intros _ | eauto].
      apply Nat.eqb_eq in El. apply Nat.ltb_lt in Ef. split.
      * intros ->. cbn in Ef. lia.
      * now destruct (PDDeploy.filterPIDs pids pidsFilter).
    + assert (Hno : ~ (pidsFilter <> [] /\ PDDeploy.filterPIDs pids pidsFilter = [])).
      { intros [_ E]. rewrite E in El. discriminate. }
      eapply OrchestratorFacts.returns_bind;
        [apply (PDDeployCountFacts.deployStringParameters_entries _ _ _ _ _ Hp) |].
      intros res1 (r1 & -> & _).
      eapply OrchestratorFacts.returns_bind;
        [apply (PDDeployCountFacts.deployBinaryParameters_entries _ _ _ _ _ Hp) |].
      intros res2 (r2 & -> & _).
      destruct (_ && _).
      * apply OrchestratorFacts.returns_bind_any. intros [d|e];
          apply OrchestratorFacts.returns_ret;
          (split; [intros [msg Hm]; discriminate | tauto]).
      * apply OrchestratorFacts.returns_ret.
        split; [intros [msg Hm]; discriminate | tauto].
  - assert (Hno : ~ (pidsFilter <> [] /\ PDDeploy.filterPIDs pids pidsFilter = [])).
    { intros [Hne _]. apply Nat.ltb_ge in Ef. destruct pidsFilter; [congruence |].
      cbn in Ef. lia. }
    eapply OrchestratorFacts.returns_bind;
      [apply (PDDeployCountFacts.deployStringParameters_entries _ _ _ _ _ Hp) |].
    intros res1 (r1 & -> & _).
    eapply OrchestratorFacts.returns_bind;
      [apply (PDDeployCountFacts.deployBinaryParameters_entries _ _ _ _ _ Hp) |].
    intros res2 (r2 & -> & _).
    destruct (_ && _).
    + apply OrchestratorFacts.returns_bind_any. intros [d|e];
        apply OrchestratorFacts.returns_ret;
        (split; [intros [msg Hm]; discriminate | tauto]).
    + apply OrchestratorFacts.returns_ret.
      split; [intros [msg Hm]; discriminate | tauto].
Qed.

(** The theorem at a concrete input. *)
Lemma deployPartnerDirectory_fails_iff_witness :
  (exists msg,
     (PDDeploy.deployPartnerDirectory Scenarios.repoS5 true false false ["P9"]
        Scenarios.tenantS5).1.1 = GoOS.Err msg)
  <-> ["P9"] <> [] /\ PDDeploy.filterPIDs ["P1"] ["P9"] = [].
Proof.
  apply (deployPartnerDirectory_fails_iff Scenarios.repoS5 true false false
           ["P9"] ["P1"] Scenarios.tenantS5).
  reflexivity.
Defined.

Module Phase1MoreFacts.
Import GoStrings GoOS Models Cmd CmdFacts Orchestrator OrchestratorView
  OrchestratorFacts Phase1View.

Section Tallies.
Context {W E : Type}.
Variable cnt : E -> bool.

Local Abbreviation M := (Cmd.M (W := W) (E := E)).
Local Abbreviation tallies := (tallies (W := W) (E := E) cnt).
Local Abbreviation emits := (emits (W := W) (E := E)).

Lemma tallies_ret {A} (Q : A -> nat -> Prop) (a : A) : Q a 0 -> tallies Q (ret a).
Proof. intros Ha w. exact Ha. Qed.

Lemma tallies_bind {A B} (P : A -> nat -> Prop) (Q : B -> nat -> Prop)
    (m : M A) (k : A -> M B) :
  tallies P m ->
  (forall a n, P a n -> tallies (fun b j => Q b (n + j)) (k a)) ->
  tallies Q (bind m k).
Proof.
  intros Hm Hk w. unfold bind. specialize (Hm w).
  destruct (m w) as [[a w1] t1]. cbn [fst snd] in Hm.
  specialize (Hk a _ Hm w1).
  destruct (k a w1) as [[b w2] t2]. cbn [fst snd] in Hk |- *.
  now rewrite List.filter_app, length_app.
Qed.

(** A step that emits none of the counted events. *)
Lemma tallies_bind_quiet {A B} (Q : B -> nat -> Prop) (m : M A) (k : A -> M B) :
  emits (fun e => cnt e = false) m ->
  (forall a, tallies Q (k a)) ->
  tallies Q (bind m k).
Proof.
  intros Hm Hk. apply (tallies_bind (fun _ n => n = 0)).
  - intros w. specialize (Hm w). unfold trace in Hm.
    induction Hm as [|e t He _ IH]; [reflexivity |].
    cbn [List.filter]. now rewrite He.
  - intros a n ->. apply Hk.
Qed.

Lemma tallies_forEach {A R} (f : R -> nat) (l : list A)
    (body : A -> R -> M R) (r : R) :
  (forall a r, tallies (fun r' n => f r' = f r + n) (body a r)) ->
  tallies (fun r' n => f r' = f r + n) (forEach l body r).
Proof.
  intros Hbody. revert r. induction l as [|a l IH]; intros r; cbn [forEach].
  - apply tallies_ret. lia.
  - eapply tallies_bind; [apply Hbody |].
    intros r' n Hn w. specialize (IH r' w). cbn beta in IH, Hn |- *. lia.
Qed.

End Tallies.

Section Phase1.
Context {W : Type} `{Outside W}.

Local Abbreviation M := (Cmd.M (W := W) (E := event)).
Local Abbreviation emits := (emits (W := W) (E := event)).
Local Abbreviation tallies := (tallies (W := W) (E := event) isFailedSync).

Lemma emits_look {A} (P : event -> Prop) (f : W -> A) : emits P (look f).
Proof. intros w. constructor. Qed.

Ltac quiet :=
  repeat first
    [ apply emits_look
    | apply emits_ret
    | apply emits_call; intros ?; reflexivity
    | apply emits_bind; [|intros ?]
    | match goal with
      | |- Cmd.emits _ (match ?x with _ => _ end) => destruct x
      | |- Cmd.emits _ (if ?b then _ else _) => destruct b
      end ].

(** [UpdateFailures] grows by one for each synchroniser call that fails, and
    by nothing else in the loop of [updateArtifacts]. *)
Lemma updateArtifact_tally (sd : ServiceDetails)
    (packageDir finalPackageID prefix workDir : string) (filter : list string)
    (artifact : Artifact) (st : ProcessingStats * nat) :
  tallies (fun st' n => UpdateFailures st'.1 = UpdateFailures st.1 + n)
    (updateArtifact sd packageDir finalPackageID prefix workDir filter artifact st).
Proof.
  destruct st as [stats n]. cbn [fst]. unfold updateArtifact.
  destruct (negb (shouldInclude _ _)); [apply tallies_ret; cbn; lia |].
  destruct (negb (ArtifactSync artifact)); [apply tallies_ret; cbn; lia |].
  apply tallies_bind_quiet; [quiet |]. intros ex.
  destruct (negb ex); [apply tallies_ret; cbn; lia |].
  eapply tallies_bind with (P := fun (_ : option string) j => j = 0).
  { intros w. unfold call. now destruct (CopyDir _ _ w). }
  intros [e|] j ->; [apply tallies_ret; cbn; lia |].
  do 9 (apply tallies_bind_quiet; [quiet | intros ?]).
  eapply tallies_bind
    with (P := fun (err : option string) j =>
                 j = match err with Some _ => 1 | None => 0 end).
  { intros w. unfold call. destruct (SingleArtifactToTenant _ _ _ _ _ _ _ w) as [[e|] w1];
      reflexivity. }
  intros [e|] j ->; apply tallies_ret; cbn; lia.
Qed.

Lemma updateArtifacts_tally (h : heap) (pkg : Package)
    (packageDir finalPackageID finalPackageName prefix workDir : string)
    (filter : list string) (stats : ProcessingStats)
    (serviceDetails : option ServiceDetails) :
  tallies (fun res n => UpdateFailures res.2 = UpdateFailures stats + n)
    (updateArtifacts h pkg packageDir finalPackageID finalPackageName prefix
       workDir filter stats serviceDetails).
Proof.
  unfold updateArtifacts.
  destruct serviceDetails as [sd|]; [|apply tallies_ret; cbn; lia].
  destruct (String.eqb (Host sd) ""); [apply tallies_ret; cbn; lia |].
  destruct (executerIsNil sd); [apply tallies_ret; cbn; lia |].
  destruct (synchroniserIsNil sd); [apply tallies_ret; cbn; lia |].
  eapply tallies_bind.
  - apply (tallies_forEach isFailedSync (fun st => UpdateFailures st.1)).
    intros a st. apply updateArtifact_tally.
  - intros st n Hn. apply tallies_ret. cbn [fst snd] in Hn |- *. lia.
Qed.

(** In deploy-only mode the loop body only looks at the outside. *)
Lemma processPackage_deploy_only (h : heap) (config : DeployConfig)
    (applyPrefix : bool) (packagesDir workDir : string)
    (packageFilter artifactFilter : list string)
    (serviceDetails : option ServiceDetails)
    (pkg : Package) (stats : ProcessingStats) (n : nat)
    (tasks : list DeploymentTask) (w : W) :
  processPackage h config applyPrefix ModeDeployOnly packagesDir workDir
    packageFilter artifactFilter serviceDetails pkg
    (setPackagesFiltered n stats, tasks) w
  = ((setPackagesFiltered
        (if shouldInclude (ID pkg) packageFilter then n else S n) stats,
      tasks ++
      (if shouldInclude (ID pkg) packageFilter && Deploy pkg
          && DirExists (filepathJoin [packagesDir; PackageDir pkg]) w
       then collectDeploymentTasks h pkg (finalPackageID config applyPrefix pkg)
              (DeploymentPrefix config) artifactFilter stats
       else [])),
     w, []).
Proof.
  unfold processPackage, finalPackageID.
  destruct (shouldInclude (ID pkg) packageFilter); cbn [negb andb];
    [|now rewrite app_nil_r].
  destruct (Sync pkg) eqn:Es, (Deploy pkg) eqn:Ed; cbn [negb andb orb];
    try (now rewrite app_nil_r).
  all: unfold bind, look, ret; cbn [isDeployOnly isUpdateOnly negb andb];
    destruct (DirExists _ w); cbn [negb]; rewrite ?app_nil_r; reflexivity.
Qed.

End Phase1.
End Phase1MoreFacts.

(** X15: in deploy-only mode [processPackages] calls nothing outside: it
    collects the tasks of the packages that pass the filter, are to be
    deployed and have a directory, and counts the packages filtered out. *)
Theorem processPackages_deploy_only {W : Type} `{Orchestrator.Outside W}
    (h : Models.heap) (config : Models.DeployConfig) (applyPrefix : bool)
    (packagesDir workDir : string) (packageFilter artifactFilter : list string)
    (stats : Orchestrator.ProcessingStats)
    (serviceDetails : option Orchestrator.ServiceDetails) (w : W) :
  Orchestrator.processPackages h config applyPrefix Orchestrator.ModeDeployOnly
    packagesDir workDir packageFilter artifactFilter stats serviceDetails w
  = ((Models.Packages config ≫= (fun pkg =>
        if Orchestrator.shouldInclude (Models.ID pkg) packageFilter
           && Models.Deploy pkg
           && Orchestrator.DirExists
                (Orchestrator.filepathJoin [packagesDir; Models.PackageDir pkg]) w
        then Orchestrator.collectDeploymentTasks h pkg
               (OrchestratorView.finalPackageID config applyPrefix pkg)
               (Models.DeploymentPrefix config) artifactFilter stats
        else []),
      Phase1View.setPackagesFiltered
        (Orchestrator.PackagesFiltered stats
         + Phase1View.filteredOut packageFilter (Models.Packages config))
        stats),
     w, []).
Proof.
  unfold Orchestrator.processPackages, Orchestrator.processLoop.
  assert (Hloop : forall pkgs n tasks,
    Cmd.forEach pkgs
      (Orchestrator.processPackage h config applyPrefix
         Orchestrator.ModeDeployOnly packagesDir workDir packageFilter
         artifactFilter serviceDetails)
      (Phase1View.setPackagesFiltered n stats, tasks) w
    = ((Phase1View.setPackagesFiltered
          (n + Phase1View.filteredOut packageFilter pkgs) stats,
        tasks ++ (pkgs ≫= (fun pkg =>
          if Orchestrator.shouldInclude (Models.ID pkg) packageFilter
             && Models.Deploy pkg
             && Orchestrator.DirExists
                  (Orchestrator.filepathJoin [packagesDir; Models.PackageDir pkg]) w
          then Orchestrator.collectDeploymentTasks h pkg
                 (OrchestratorView.finalPackageID config applyPrefix pkg)
                 (Models.DeploymentPrefix config) artifactFilter stats
          else []))),
       w, [])).
  { induction pkgs as [|pkg pkgs IH]; intros n tasks.
    - cbn. unfold Phase1View.filteredOut. cbn.
      now rewrite Nat.add_0_r, app_nil_r.
    - cbn [Cmd.forEach]. unfold Cmd.bind.
      rewrite Phase1MoreFacts.processPackage_deploy_only, IH.
      rewrite bind_cons, app_assoc. unfold Phase1View.filteredOut.
      cbn [List.filter].
      destruct (Orchestrator.shouldInclude (Models.ID pkg) packageFilter);
        cbn [negb length app]; rewrite ?Nat.add_succ_r; reflexivity. }
  unfold Cmd.bind, Cmd.ret.
  replace stats with
    (Phase1View.setPackagesFiltered (Orchestrator.PackagesFiltered stats) stats)
    at 1 by (now destruct stats).
  rewrite Hloop. cbn [fst snd app]. reflexivity.
Qed.

(** X16: in update-only mode [processPackages] collects no deployment task. *)
Theorem processPackages_update_only {W : Type} `{Orchestrator.Outside W}
    (h : Models.heap) (config : Models.DeployConfig) (applyPrefix : bool)
    (packagesDir workDir : string) (packageFilter artifactFilter : list string)
    (stats : Orchestrator.ProcessingStats)
    (serviceDetails : option Orchestrator.ServiceDetails) (w : W) :
  (Orchestrator.processPackages h config applyPrefix Orchestrator.ModeUpdateOnly
     packagesDir workDir packageFilter artifactFilter stats serviceDetails w).1.1.1
  = [].
Proof.
  revert w.
  change (OrchestratorView.returns (W := W) (E := Orchestrator.event)
            (fun r => r.1 = [])
            (Orchestrator.processPackages h config applyPrefix
               Orchestrator.ModeUpdateOnly packagesDir workDir packageFilter
               artifactFilter stats serviceDetails)).
  unfold Orchestrator.processPackages.
  eapply OrchestratorFacts.returns_bind
    with (P := fun st : Orchestrator.ProcessingStats
                        * list Orchestrator.DeploymentTask => st.2 = []).
  - unfold Orchestrator.processLoop.
    apply OrchestratorFacts.returns_forEach; [|reflexivity].
    intros pkg [st tasks] Ht. cbn [snd] in Ht. subst tasks.
    unfold Orchestrator.processPackage.
    cbn [Orchestrator.isUpdateOnly Orchestrator.isDeployOnly negb andb].
    rewrite !andb_false_r.
    repeat OrchestratorFacts.returns_step; reflexivity.
  - intros st Hst. apply OrchestratorFacts.returns_ret. exact Hst.
Qed.

(** X17: [updateArtifacts] raises the count of update failures by the number
    of synchronisations that failed. *)
Theorem updateArtifacts_UpdateFailures {W : Type} `{Orchestrator.Outside W}
    (h : Models.heap) (pkg : Models.Package)
    (packageDir finalPackageID finalPackageName prefix workDir : string)
    (artifactFilter : list string) (stats : Orchestrator.ProcessingStats)
    (serviceDetails : option Orchestrator.ServiceDetails) (w : W) :
  let run :=
    Orchestrator.updateArtifacts h pkg packageDir finalPackageID
      finalPackageName prefix workDir artifactFilter stats serviceDetails w in
  Orchestrator.UpdateFailures run.1.1.2
  = Orchestrator.UpdateFailures stats
    + length (List.filter Phase1View.isFailedSync run.2).
Proof.
  exact (Phase1MoreFacts.updateArtifacts_tally h pkg packageDir finalPackageID
           finalPackageName prefix workDir artifactFilter stats serviceDetails w).
Qed.

Module DeleteCountFacts.
Import GoStrings GoOS Repo Cmd CmdFacts PDDeploy PDDeployView DeployEventsView
  Phase1View Phase1MoreFacts PDDeployCountFacts.

(** The entries of a result that report a deletion or an error. *)
Lemma reported_addDeleted k r :
  length (Deleted (addDeleted k r)) + length (Errors (addDeleted k r))
  = S (length (Deleted r) + length (Errors r)).
Proof. cbn. rewrite length_app. cbn. lia. Qed.

Lemma reported_addError k r :
  length (Deleted (addError k r)) + length (Errors (addError k r))
  = S (length (Deleted r) + length (Errors r)).
Proof. cbn. rewrite length_app. cbn. lia. Qed.

Section Delete.
Context {W : Type} `{PartnerDirectoryAPI W}.

Local Abbreviation tallies := (tallies (W := W) (E := event) isDelete).

Lemma tallies_call_one {A} (Q : A -> nat -> Prop) (ev : A -> event)
    (f : W -> A * W) (n : nat) :
  (forall a, isDelete (ev a) = Nat.eqb n 1) -> n <= 1 ->
  (forall a, Q a n) -> tallies Q (call ev f).
Proof.
  intros Hev Hn HQ w. unfold call. destruct (f w) as [a w1]. cbn [fst snd].
  cbn [List.filter]. rewrite Hev.
  destruct n as [|[|n]]; cbn; try apply HQ; lia.
Qed.

(** Each delete call leaves one entry in the result, and nothing else
    does. *)
Lemma deleteRemoteEntriesNotInLocal_tally (pdRepo : LocalRepo)
    (managedPIDs : list string) :
  tallies (fun res n => forall r, res = Ok r ->
             length (Deleted r) + length (Errors r) = n)
          (deleteRemoteEntriesNotInLocal pdRepo managedPIDs).
Proof.
  unfold deleteRemoteEntriesNotInLocal.
  eapply tallies_bind with (P := fun _ n => n = 0).
  { apply (tallies_call_one _ _ _ 0); [reflexivity | lia | reflexivity]. }
  intros [l1|e] n ->; [|apply tallies_ret; discriminate].
  eapply tallies_bind
    with (P := fun r n => length (Deleted r) + length (Errors r) = n).
  { apply (tallies_forEach isDelete
             (fun r => length (Deleted r) + length (Errors r)) _ _ emptyResult).
    intros p r.
    destruct (negb (contains managedPIDs (sp_Pid p)));
      [apply tallies_ret; lia |].
    destruct (notLocal _ _ _); [|apply tallies_ret; lia].
    eapply tallies_bind with (P := fun _ n => n = 1).
    { apply (tallies_call_one _ _ _ 1); [reflexivity | lia | reflexivity]. }
    intros [e|] n ->; apply tallies_ret;
      rewrite ?reported_addError, ?reported_addDeleted; lia. }
  intros r1 n1 H1.
  eapply tallies_bind with (P := fun _ n => n = 0).
  { apply (tallies_call_one _ _ _ 0); [reflexivity | lia | reflexivity]. }
  intros [l2|e] n ->; [|apply tallies_ret; discriminate].
  eapply tallies_bind
    with (P := fun r n => length (Deleted r) + length (Errors r)
                          = length (Deleted r1) + length (Errors r1) + n).
  { apply (tallies_forEach isDelete
             (fun r => length (Deleted r) + length (Errors r))).
    intros p r.
    destruct (negb (contains managedPIDs (bp_Pid p)));
      [apply tallies_ret; lia |].
    destruct (notLocal _ _ _); [|apply tallies_ret; lia].
    eapply tallies_bind with (P := fun _ n => n = 1).
    { apply (tallies_call_one _ _ _ 1); [reflexivity | lia | reflexivity]. }
    intros [e|] n ->; apply tallies_ret;
      rewrite ?reported_addError, ?reported_addDeleted; lia. }
  intros r2 n2 H2. apply tallies_ret. intros r [= <-]. lia.
Qed.

End Delete.
End DeleteCountFacts.

(** X23: when the deletion of the remote entries succeeds, every delete call
    made is reported once, as deleted or as an error. *)
Theorem deleteRemoteEntriesNotInLocal_entries {W : Type}
    `{PDDeploy.PartnerDirectoryAPI W}
    (pdRepo : PDDeploy.LocalRepo) (managedPIDs : list string) (w : W)
    (results : PDDeploy.BatchResult) :
  (PDDeploy.deleteRemoteEntriesNotInLocal pdRepo managedPIDs w).1.1
    = GoOS.Ok results ->
  length (PDDeploy.Deleted results) + length (PDDeploy.Errors results)
  = length (List.filter PDDeployView.isDelete
              (PDDeploy.deleteRemoteEntriesNotInLocal pdRepo managedPIDs w).2).
Proof.
  intros Hr.
  exact (DeleteCountFacts.deleteRemoteEntriesNotInLocal_tally pdRepo managedPIDs
           w results Hr).
Qed.

(** The theorem at a concrete input. *)
Lemma deleteRemoteEntriesNotInLocal_entries_witness :
  length (PDDeploy.Deleted (PDDeploy.mkBatchResult [] [] [] ["P1/s2"] []))
  + length (PDDeploy.Errors (PDDeploy.mkBatchResult [] [] [] ["P1/s2"] []))
  = length (List.filter PDDeployView.isDelete
              (PDDeploy.deleteRemoteEntriesNotInLocal Scenarios.repoS5 ["P1"]
                 Scenarios.tenantS5).2).
Proof.
  apply (deleteRemoteEntriesNotInLocal_entries Scenarios.repoS5 ["P1"]
           Scenarios.tenantS5).
  vm_compute. reflexivity.
Defined.

Module ArgsFacts.
Import GoStrings Orchestrator OrchestratorArgs GoStringsFacts CaseView.

Lemma parseFilter_parts (filterStr : string) :
  parseFilter filterStr
  = omap (fun part =>
            let trimmed := TrimSpace part in
            if negb (String.eqb trimmed "") then Some trimmed else None)
         (Split filterStr ",").
Proof.
  unfold parseFilter. destruct (String.eqb_spec filterStr "") as [->|_];
    reflexivity.
Qed.

Lemma shouldInclude_elem_of (id : string) (filter : list string) :
  shouldInclude id filter = true <-> filter = [] \/ id ∈ filter.
Proof.
  unfold shouldInclude. destruct filter as [|f filter]; [tauto |].
  rewrite existsb_exists. split.
  - intros (x & Hin & Heq). apply String.eqb_eq in Heq as ->.
    right. now apply list_elem_of_In.
  - intros [? | Hin]; [discriminate |]. exists id.
    split; [now apply list_elem_of_In | apply String.eqb_refl].
Qed.

Lemma lowerByte_not_upper (c : ascii) : isUpper (lowerByte c) = false.
Proof. destruct c as [[] [] [] [] [] [] [] []]; reflexivity. Qed.

Lemma lower_go_noUpper (s : string) (k : nat) : noUpper (lower_go k s) = true.
Proof.
  revert k. induction s as [|c s IH]; intros k; [reflexivity |].
  destruct k as [|k]; cbn [lower_go]; [|apply IH].
  destruct (HasPrefix (String c s) capitalIWithDot); [cbn; apply IH |].
  destruct (HasPrefix (String c s) kelvinSign); [cbn; apply IH |].
  cbn [noUpper]. now rewrite lowerByte_not_upper, IH.
Qed.

End ArgsFacts.

(** X18: an ID passes the filter parsed from a string exactly when the string
    has no entry but blanks, or the ID is not empty and is one of its
    entries with the blanks around it removed. *)
Theorem shouldInclude_parseFilter (id filterStr : string) :
  Orchestrator.shouldInclude id (OrchestratorArgs.parseFilter filterStr) = true
  <->
  (forall part, part ∈ GoStrings.Split filterStr "," ->
                GoStrings.TrimSpace part = "")
  \/ (id <> "" /\
      exists part, part ∈ GoStrings.Split filterStr "," /\
                   GoStrings.TrimSpace part = id).
Proof.
  rewrite ArgsFacts.shouldInclude_elem_of, ArgsFacts.parseFilter_parts.
  set (parts := GoStrings.Split filterStr ",").
  set (f := fun part : string =>
              let trimmed := GoStrings.TrimSpace part in
              if negb (String.eqb trimmed "") then Some trimmed else None).
  assert (Hf : forall p x, f p = Some x <-> GoStrings.TrimSpace p = x /\ x <> "").
  { intros p x. unfold f. cbv zeta.
    destruct (String.eqb_spec (GoStrings.TrimSpace p) "") as [E|E]; cbn [negb].
    - split; [discriminate | intros [<- Hne]; contradiction].
    - split; [intros [= <-]; auto | intros [-> _]; reflexivity]. }
  split.
  - intros [Hnil | Hin].
    + left. intros p Hp.
      destruct (String.eqb_spec (GoStrings.TrimSpace p) "") as [E|E]; [exact E |].
      assert (Hx : GoStrings.TrimSpace p ∈ omap f parts).
      { apply list_elem_of_omap. exists p. split; [exact Hp |]. now apply Hf. }
      rewrite Hnil in Hx. inversion Hx.
    + right. apply list_elem_of_omap in Hin as (p & Hp & Hfp).
      apply Hf in Hfp as [Ht Hne]. split; [exact Hne | eauto].
  - intros [Hblank | (Hne & p & Hp & Ht)].
    + left. destruct (omap f parts) as [|x l] eqn:E; [reflexivity |].
      assert (Hx : x ∈ omap f parts) by (rewrite E; left).
      apply list_elem_of_omap in Hx as (p & Hp & Hfp).
      apply Hf in Hfp as [Ht Hne]. rewrite (Hblank p Hp) in Ht. congruence.
    + right. apply list_elem_of_omap. exists p. split; [exact Hp |].
      now apply Hf.
Qed.

(** X19: [mapArtifactType] answers [MessageMappingDesigntimeArtifact] only for
    a type that is [message mapping] in lower case; the type
    [messagemapping], which [mapArtifactTypeForSync] takes as a message
    mapping, is answered as an integration flow. *)
Theorem mapArtifactType_message_mapping (artifactType : string) :
  (OrchestratorArgs.mapArtifactType artifactType = "MessageMappingDesigntimeArtifact"
   <-> GoStrings.ToLower artifactType = "message mapping") /\
  (GoStrings.ToLower artifactType = "messagemapping" ->
   OrchestratorArgs.mapArtifactType artifactType = "IntegrationDesigntimeArtifact" /\
   Orchestrator.mapArtifactTypeForSync artifactType = "MessageMapping").
Proof.
  assert (Hup : String.eqb (GoStrings.ToLower artifactType) "messageMapping" = false).
  { apply String.eqb_neq. intros E.
    pose proof (ArgsFacts.lower_go_noUpper artifactType 0) as Hn.
    fold (GoStrings.ToLower artifactType) in Hn. rewrite E in Hn. discriminate. }
  unfold OrchestratorArgs.mapArtifactType, Orchestrator.mapArtifactTypeForSync.
  rewrite Hup. cbn [orb]. split.
  - repeat match goal with
           | |- context [String.eqb (GoStrings.ToLower artifactType) ?s] =>
               destruct (String.eqb_spec (GoStrings.ToLower artifactType) s)
                 as [->|?]; cbn [orb]
           end;
      split; intros E; try discriminate; try congruence; reflexivity.
  - intros ->. split; reflexivity.
Qed.

(** The theorem at a concrete input. *)
Lemma mapArtifactType_message_mapping_witness :
  OrchestratorArgs.mapArtifactType "MessageMapping" = "IntegrationDesigntimeArtifact" /\
  Orchestrator.mapArtifactTypeForSync "MessageMapping" = "MessageMapping".
Proof.
  apply (mapArtifactType_message_mapping "MessageMapping"). reflexivity.
Defined.

Module BatchChunksFacts.
Import GoStrings GoOS Batch BatchChunks BatchView.

(** The batch count is the least number of batches that hold [n]
    operations. *)
Lemma batchCount_spec (n size : nat) :
  0 < size ->
  n <= batchCount n size * size /\
  (forall j, n <= j * size -> batchCount n size <= j).
Proof.
  intros Hs. unfold batchCount.
  pose proof (Nat.div_mod_eq (n + size - 1) size) as Hd.
  pose proof (Nat.mod_upper_bound (n + size - 1) size ltac:(lia)) as Hm.
  set (k := (n + size - 1) / size) in *.
  set (r := (n + size - 1) mod size) in *.
  split; [nia |].
  intros j Hj. destruct (le_lt_dec k j) as [|Hlt]; [assumption |].
  exfalso. assert (j + 1 <= k) as Hk by lia.
  assert ((j + 1) * size <= k * size) by (apply Nat.mul_le_mono_r; lia).
  nia.
Qed.

Lemma batchCount_lt (n size j : nat) :
  0 < size -> j * size < n -> j < batchCount n size.
Proof.
  intros Hs Hj. destruct (batchCount_spec n size Hs) as [Hk _].
  destruct (le_lt_dec (batchCount n size) j) as [Hle|]; [|assumption].
  exfalso. assert (batchCount n size * size <= j * size)
    by (apply Nat.mul_le_mono_r; lia). lia.
Qed.

(** The events of [Execute] on a request with operations. *)
Lemma Execute_events `{HTTPExecuter} (br : BatchRequest) (past : list event) :
  operations br <> [] ->
  (Execute br past).2
  = past ++ [BodyBuilt (buildBatchBody br); RequestSent (httpRequestOf br)].
Proof.
  intros Hne. unfold Execute, httpRequestOf.
  destruct (operations br) as [|op ops] eqn:Eops; [congruence |].
  cbn [length Nat.eqb].
  destruct (ExecRequestWithCookies _ _) as [resp|e]; cbn [snd].
  - destruct (_ && _); cbn [snd]; rewrite <- app_assoc; reflexivity.
  - rewrite <- app_assoc. reflexivity.
Qed.

Lemma NewBatchRequest_eq (c : nat) :
  NewBatchRequest c
  = (mkBatchRequest [] ("batch_" +:+ decimal (c + 1))
       ("changeset_" +:+ decimal (c + 2)), c + 2).
Proof.
  unfold NewBatchRequest, generateBoundary.
  replace (c + 1) with (S c) by lia. replace (c + 2) with (S (S c)) by lia.
  reflexivity.
Qed.

Section Loop.
Context `{HTTPExecuter}.

(** The loop from batch [j] on: it runs [m] batches, the last of which
    fails when the result is an error, and all that are left otherwise. *)
Lemma batchLoop_runs (size : nat) (allOps : list BatchOperation) (c0 : nat) :
  0 < size ->
  forall fuel j acc past,
    length allOps <= fuel + j * size -> j <= batchCount (length allOps) size ->
    exists m,
      j + m <= batchCount (length allOps) size /\
      (batchLoop fuel (j * size) size allOps acc (c0 + 2 * j) past).2
        = past ++ concat (chunkEvents size allOps c0 <$> seq j m) /\
      (batchLoop fuel (j * size) size allOps acc (c0 + 2 * j) past).1.2
        = c0 + 2 * (j + m) /\
      match (batchLoop fuel (j * size) size allOps acc (c0 + 2 * j) past).1.1 with
      | Ok _ => j + m = batchCount (length allOps) size
      | Err msg =>
          exists e, 0 < m /\
            msg = "batch " +:+ decimal ((j + m - 1) * size) +:+ "-"
                  +:+ decimal (Nat.min ((j + m) * size) (length allOps))
                  +:+ " failed: " +:+ e /\
            (Execute (chunkRequest size allOps c0 (j + m - 1))
               (past ++ concat (chunkEvents size allOps c0 <$> seq j (m - 1)))).1
            = Err e /\
            forall i, i < m - 1 ->
              exists r,
                (Execute (chunkRequest size allOps c0 (j + i))
                   (past ++ concat (chunkEvents size allOps c0 <$> seq j i))).1
                = Ok r
      end.
Proof.
  intros Hs. set (n := length allOps). set (k := batchCount n size).
  destruct (batchCount_spec n size Hs) as [Hk1 Hk2]. fold k in Hk1, Hk2.
  induction fuel as [|fuel IH]; intros j acc past Hfuel Hj.
  - exists 0. cbn [batchLoop fst snd seq fmap list_fmap concat].
    rewrite app_nil_r, Nat.add_0_r. repeat split; try lia.
    assert (k <= j) by (apply Hk2; lia). lia.
  - cbn [batchLoop]. fold n.
    destruct (j * size <? n)%nat eqn:Ei.
    + apply Nat.ltb_lt in Ei.
      assert (Hjk : j < k) by (now apply batchCount_lt).
      rewrite NewBatchRequest_eq. cbn [batchBoundary changesetBoundary].
      set (end_ := if (n <? j * size + size)%nat then n else j * size + size).
      assert (Hend : end_ = Nat.min ((j + 1) * size) n).
      { subst end_. destruct (n <? j * size + size)%nat eqn:E.
        - apply Nat.ltb_lt in E. lia.
        - apply Nat.ltb_ge in E. lia. }
      assert (Hchunk : firstn (end_ - j * size) (skipn (j * size) allOps)
                       = chunkOps size allOps j).
      { unfold chunkOps. rewrite Hend.
        destruct (le_lt_dec ((j + 1) * size) n) as [Hle|Hgt].
        - replace (Nat.min ((j + 1) * size) n - j * size) with size by lia.
          reflexivity.
        - replace (Nat.min ((j + 1) * size) n - j * size) with (n - j * size)
            by lia.
          rewrite !firstn_all2; [reflexivity | |];
            rewrite length_skipn; fold n; lia. }
      rewrite Hchunk.
      replace (c0 + 2 * j + 1) with (c0 + 2 * j + 1) by reflexivity.
      fold (chunkRequest size allOps c0 j).
      assert (Hne : operations (chunkRequest size allOps c0 j) <> []).
      { cbn [chunkRequest operations]. unfold chunkOps.
        intros E. apply (f_equal length) in E.
        rewrite length_firstn, length_skipn in E. fold n in E. cbn in E. lia. }
      pose proof (Execute_events (chunkRequest size allOps c0 j) past Hne) as Hev.
      change (past ++ _) with (past ++ chunkEvents size allOps c0 j) in Hev.
      destruct (Execute (chunkRequest size allOps c0 j) past) as [[resp|e] past1]
        eqn:Ex; cbn [snd] in Hev; subst past1.
      * replace (j * size + size) with ((S j) * size) by lia.
        replace (c0 + 2 * j + 2) with (c0 + 2 * S j) by lia.
        destruct (IH (S j) (acc ++ Operations resp)
                    (past ++ chunkEvents size allOps c0 j))
          as (m & Hm & Ht & Hc & Hres); [lia | lia |].
        exists (S m). split; [lia |]. split; [|split].
        -- rewrite Ht. cbn [seq fmap list_fmap concat].
           now rewrite <- app_assoc.
        -- rewrite Hc. lia.
        -- destruct (batchLoop _ _ _ _ _ _ _).1.1 as [r|msg]; [lia |].
           destruct Hres as (e & Hpos & -> & Hfail & Hbefore).
           exists e. split; [lia |].
           replace (S j + m - 1) with (j + S m - 1) in * by lia.
           replace (S j + m) with (j + S m) by lia.
           split; [reflexivity |].
           destruct m as [|m']; [lia |].
           replace (S (S m') - 1) with (S m') by lia.
           replace (S m' - 1) with m' in Hfail, Hbefore by lia.
           cbn [seq fmap list_fmap concat]. split.
           ++ rewrite app_assoc. exact Hfail.
           ++ intros [|i] Hi.
              ** exists resp. cbn [seq fmap list_fmap concat].
                 rewrite app_nil_r, Nat.add_0_r, Ex. reflexivity.
              ** destruct (Hbefore i ltac:(lia)) as [r Hr]. exists r.
                 cbn [seq fmap list_fmap concat]. rewrite app_assoc.
                 replace (j + S i) with (S j + i) by lia. exact Hr.
      * exists 1. cbn [fst snd seq fmap list_fmap concat].
        rewrite app_nil_r. split; [lia |]. split; [reflexivity |].
        split; [lia |]. exists e. split; [lia |].
        replace (j + 1 - 1) with j by lia. rewrite Hend.
        split; [reflexivity |]. split.
        -- rewrite app_nil_r, Ex. reflexivity.
        -- intros i Hi. lia.
    + apply Nat.ltb_ge in Ei. exists 0.
      cbn [fst snd seq fmap list_fmap concat].
      rewrite app_nil_r, Nat.add_0_r. repeat split; try lia.
      assert (k <= j) by (apply Hk2; lia). lia.
Qed.

End Loop.

(** The batches hold the operations, in order. *)
Lemma concat_chunkOps (size : nat) (allOps : list BatchOperation) :
  0 < size ->
  concat (chunkOps size allOps <$> seq 0 (batchCount (length allOps) size))
  = allOps.
Proof.
  intros Hs.
  destruct (batchCount_spec (length allOps) size Hs) as [Hk _].
  revert Hk. generalize (batchCount (length allOps) size). intros k.
  assert (Hgen : forall k j,
            concat (chunkOps size allOps <$> seq j k)
            = firstn (k * size) (skipn (j * size) allOps)).
  { clear k. induction k as [|k IH]; intros j; [reflexivity |].
    cbn [seq fmap list_fmap concat]. rewrite IH. unfold chunkOps.
    replace (S k * size) with (size + k * size) by lia.
    replace (S j * size) with (j * size + size) by lia.
    rewrite <- drop_drop. apply take_take_drop. }
  intros Hk. rewrite Hgen. cbn [Nat.mul skipn]. now apply firstn_all2.
Qed.

Lemma chunkOps_length (size : nat) (allOps : list BatchOperation) (j : nat) :
  0 < size -> j < batchCount (length allOps) size ->
  0 < length (chunkOps size allOps j) <= size.
Proof.
  intros Hs Hj. unfold chunkOps. rewrite length_firstn, length_skipn.
  destruct (batchCount_spec (length allOps) size Hs) as [_ Hk].
  assert (j * size < length allOps).
  { destruct (le_lt_dec (length allOps) (j * size)) as [Hle|]; [|assumption].
    specialize (Hk j Hle). lia. }
  lia.
Qed.

Lemma effectiveSize_pos (batchSize : Z) : 0 < effectiveSize batchSize.
Proof.
  unfold effectiveSize. destruct (batchSize <=? 0)%Z eqn:E; [lia |].
  apply Z.leb_gt in E. lia.
Qed.

End BatchChunksFacts.

(** X20: a run of [ExecuteInBatches] that succeeds sends the operations in
    order, each once, in batches that are not empty and not above the batch
    size (90 when the size given is not positive), and takes two boundaries
    for each batch. *)
Theorem ExecuteInBatches_batches `{Batch.HTTPExecuter}
    (br : Batch.BatchRequest) (batchSize : Z) (boundaryCounter : nat)
    (past : list Batch.event) (resp : Batch.BatchResponse)
    (boundaryCounter' : nat) (events : list Batch.event) :
  BatchChunks.ExecuteInBatches br batchSize boundaryCounter past
    = (GoOS.Ok resp, boundaryCounter', events) ->
  let size := BatchView.effectiveSize batchSize in
  let allOps := Batch.operations br in
  let k := BatchView.batchCount (length allOps) size in
  events = past ++ concat (BatchView.chunkEvents size allOps boundaryCounter
                             <$> seq 0 k) /\
  boundaryCounter' = boundaryCounter + 2 * k /\
  concat (BatchView.chunkOps size allOps <$> seq 0 k) = allOps /\
  (forall j, j < k -> 0 < length (BatchView.chunkOps size allOps j) <= size).
Proof.
  intros Hrun size allOps k.
  pose proof (BatchChunksFacts.effectiveSize_pos batchSize) as Hs. fold size in Hs.
  destruct (BatchChunksFacts.batchLoop_runs size allOps boundaryCounter Hs
              (length allOps) 0 [] past ltac:(lia) ltac:(lia))
    as (m & Hm & Ht & Hc & Hres).
  unfold BatchChunks.ExecuteInBatches in Hrun. fold allOps in Hrun.
  change (if (batchSize <=? 0)%Z then BatchChunks.DefaultBatchSize
          else Z.to_nat batchSize) with size in Hrun.
  cbn [Nat.mul] in Ht, Hc, Hres. rewrite Nat.add_0_r in Ht, Hc, Hres.
  rewrite Hrun in Ht, Hc, Hres. cbn [fst snd] in Ht, Hc, Hres.
  cbn [Nat.add] in Hres, Hc. subst m. fold k in Ht, Hc.
  split; [exact Ht |]. split; [exact Hc |].
  split; [now apply BatchChunksFacts.concat_chunkOps |].
  intros j Hj. now apply BatchChunksFacts.chunkOps_length.
Qed.

(** The theorem at a concrete input. *)
Lemma ExecuteInBatches_batches_witness :
  let allOps := Batch.operations MemHTTPAccept.threeDeletes in
  BatchView.batchCount (length allOps) 2 = 2 /\
  concat (BatchView.chunkOps 2 allOps <$> seq 0 2) = allOps /\
  exists resp,
    (@BatchChunks.ExecuteInBatches MemHTTPAccept.acceptExecuter MemHTTPAccept.threeDeletes 2 5 []).1
    = (GoOS.Ok resp, 9).
Proof.
  assert (Hrun : exists resp events,
             @BatchChunks.ExecuteInBatches MemHTTPAccept.acceptExecuter MemHTTPAccept.threeDeletes 2 5 []
             = (GoOS.Ok resp, 9, events))
    by (vm_compute; eauto).
  destruct Hrun as (resp & events & Hrun).
  destruct (@ExecuteInBatches_batches MemHTTPAccept.acceptExecuter
              MemHTTPAccept.threeDeletes 2 5 [] resp 9 events Hrun)
    as (_ & _ & Hcat & _).
  cbv zeta. split; [reflexivity |]. split; [exact Hcat |].
  exists resp. rewrite Hrun. reflexivity.
Defined.

(** X21: a run of [ExecuteInBatches] that fails stops at the first batch for
    which [Execute] returns an error: the batches before it succeeded, no
    later batch is sent, and the error is the range of that batch followed
    by the error [Execute] returned for it. *)
Theorem ExecuteInBatches_failure `{Batch.HTTPExecuter}
    (br : Batch.BatchRequest) (batchSize : Z) (boundaryCounter : nat)
    (past : list Batch.event) (msg : string)
    (boundaryCounter' : nat) (events : list Batch.event) :
  BatchChunks.ExecuteInBatches br batchSize boundaryCounter past
    = (GoOS.Err msg, boundaryCounter', events) ->
  let size := BatchView.effectiveSize batchSize in
  let allOps := Batch.operations br in
  exists j e,
    j < BatchView.batchCount (length allOps) size /\
    msg = "batch " +:+ Batch.decimal (j * size) +:+ "-"
          +:+ Batch.decimal (Nat.min ((j + 1) * size) (length allOps))
          +:+ " failed: " +:+ e /\
    (Batch.Execute (BatchView.chunkRequest size allOps boundaryCounter j)
       (past ++ concat (BatchView.chunkEvents size allOps boundaryCounter
                          <$> seq 0 j))).1
    = GoOS.Err e /\
    (forall i, i < j ->
       exists r,
         (Batch.Execute (BatchView.chunkRequest size allOps boundaryCounter i)
            (past ++ concat (BatchView.chunkEvents size allOps boundaryCounter
                               <$> seq 0 i))).1
         = GoOS.Ok r) /\
    events = past ++ concat (BatchView.chunkEvents size allOps boundaryCounter
                               <$> seq 0 (S j)) /\
    boundaryCounter' = boundaryCounter + 2 * S j.
Proof.
  intros Hrun size allOps.
  pose proof (BatchChunksFacts.effectiveSize_pos batchSize) as Hs. fold size in Hs.
  destruct (BatchChunksFacts.batchLoop_runs size allOps boundaryCounter Hs
              (length allOps) 0 [] past ltac:(lia) ltac:(lia))
    as (m & Hm & Ht & Hc & Hres).
  unfold BatchChunks.ExecuteInBatches in Hrun. fold allOps in Hrun.
  change (if (batchSize <=? 0)%Z then BatchChunks.DefaultBatchSize
          else Z.to_nat batchSize) with size in Hrun.
  cbn [Nat.mul] in Ht, Hc, Hres. rewrite Nat.add_0_r in Ht, Hc, Hres.
  rewrite Hrun in Ht, Hc, Hres. cbn [fst snd] in Ht, Hc, Hres.
  destruct Hres as (e & Hpos & Hmsg & Hfail & Hbefore).
  cbn [Nat.add] in Hmsg, Hc, Hm, Hfail, Hbefore.
  destruct m as [|j]; [lia |]. exists j, e.
  replace (S j - 1) with j in Hmsg, Hfail, Hbefore by lia.
  split; [lia |]. split.
  - rewrite Hmsg. replace (S j) with (j + 1) by lia. reflexivity.
  - split; [exact Hfail |]. split; [exact Hbefore |].
    split; [exact Ht | exact Hc].
Qed.

(** The theorem at a concrete input. *)
Lemma ExecuteInBatches_failure_witness :
  exists msg j e,
    (@BatchChunks.ExecuteInBatches MemHTTP.downExecuter MemHTTPAccept.threeDeletes 2 5 []).1
    = (GoOS.Err msg, 7) /\
    j < 2 /\
    msg = "batch " +:+ Batch.decimal (j * 2) +:+ "-"
          +:+ Batch.decimal (Nat.min ((j + 1) * 2) 3) +:+ " failed: " +:+ e /\
    (@Batch.Execute MemHTTP.downExecuter
       (BatchView.chunkRequest 2 (Batch.operations MemHTTPAccept.threeDeletes) 5 j)
       (concat (BatchView.chunkEvents 2
                  (Batch.operations MemHTTPAccept.threeDeletes) 5 <$> seq 0 j))).1
    = GoOS.Err e.
Proof.
  assert (Hrun : exists msg events,
             @BatchChunks.ExecuteInBatches MemHTTP.downExecuter MemHTTPAccept.threeDeletes 2 5 []
             = (GoOS.Err msg, 7, events))
    by (vm_compute; eauto).
  destruct Hrun as (msg & events & Hrun).
  destruct (@ExecuteInBatches_failure MemHTTP.downExecuter
              MemHTTPAccept.threeDeletes 2 5 [] msg 7 events Hrun)
    as (j & e & Hj & Hmsg & Hfail & _).
  exists msg, j, e. rewrite Hrun. split; [reflexivity |].
  split; [exact Hj |]. split; [exact Hmsg | exact Hfail].
Defined.

Module ParamsFacts.
Import GoStrings GoOS Deploy DeployParams ParamsView.

Lemma readParameterLines_entries (lines : list string)
    (st : gmap string string * list string) :
  readParameterLines lines st
  = (foldl (fun m kv => <[kv.1 := kv.2]> m) st.1 (fileEntries lines),
     st.2 ++ (fileEntries lines).*1).
Proof.
  unfold readParameterLines, fileEntries.
  revert st. induction lines as [|l lines IH]; intros [m ks].
  - cbn. now rewrite app_nil_r.
  - cbn [foldl omap list_omap].
    destruct (parseParameterLine l) as [[k v]|]; cbn [fst snd].
    + rewrite IH. cbn [fst snd foldl fmap list_fmap].
      now rewrite <- app_assoc.
    + now rewrite IH.
Qed.

(** The loop over overrides with distinct keys: every override is set, and
    the keys the map did not have are appended in order. *)
Lemma applyOverrides_spec (overrides : list (string * string))
    (st : gmap string string * list string) :
  NoDup overrides.*1 ->
  applyOverrides overrides st
  = (list_to_map overrides ∪ st.1, st.2 ++ newKeys st.1 overrides).
Proof.
  unfold applyOverrides, newKeys.
  revert st. induction overrides as [|[k v] ov IH]; intros [m ks] Hnd.
  - cbn. now rewrite (left_id_L ∅ (∪)), app_nil_r.
  - cbn [fmap list_fmap fst] in Hnd. apply NoDup_cons in Hnd as [Hk Hnd].
    cbn [foldl fst snd]. rewrite (IH _ Hnd). cbn [fst snd].
    cbn [list_to_map foldr fmap list_fmap List.filter fst snd]. f_equal.
    + apply map_eq. intros i.
      rewrite !lookup_union.
      destruct (decide (k = i)) as [<-|Hne].
      * rewrite !lookup_insert_eq.
        rewrite (not_elem_of_list_to_map_1 ov k Hk).
        now destruct (m !! k).
      * rewrite !lookup_insert_ne by assumption. reflexivity.
    + assert (Hf : List.filter (fun k0 => bool_decide (<[k:=v]> m !! k0 = None)) ov.*1
                   = List.filter (fun k0 => bool_decide (m !! k0 = None)) ov.*1).
      { apply List.filter_ext_in. intros k0 Hk0. apply bool_decide_ext.
        rewrite lookup_insert_ne; [reflexivity |].
        intros <-. apply Hk. now apply list_elem_of_In. }
      rewrite Hf. destruct (m !! k) eqn:Em.
      * rewrite bool_decide_eq_false_2 by discriminate. reflexivity.
      * rewrite bool_decide_eq_true_2 by reflexivity.
        now rewrite <- app_assoc.
Qed.

End ParamsFacts.

(** X22: when [MergeParametersFile] succeeds it has written, under the
    directory it created, a line for each key of the file in the order of
    its lines and then for each new key, ended by the line ending of the
    file; every override is there as [key=value]. *)
Theorem MergeParametersFile_lines {FS : Type} `{GoOS.Platform FS}
    (paramsPath : string) (overrides : list (string * string))
    (outputPath : string) (fs fs' : FS) :
  NoDup overrides.*1 ->
  DeployParams.MergeParametersFile paramsPath overrides outputPath fs
    = GoOS.Ok fs' ->
  let content := MergedParamsView.contentRead paramsPath fs in
  let lineEnding := Deploy.lineEndingOf content in
  let lines := MergedParamsView.mergedLines content overrides in
  (exists fs1,
     GoOS.MkdirAll (GoOS.filepathDir outputPath) fs = Some fs1 /\
     GoOS.WriteFile outputPath
       (MergedParamsView.terminated (GoStrings.Join lines lineEnding) lineEnding)
       fs1 = Some fs') /\
  (forall key value, (key, value) ∈ overrides ->
     key +:+ "=" +:+ value ∈ lines).
Proof.
  intros Hnd Hrun content lineEnding lines.
  assert (Hst : forall c,
    DeployParams.applyOverrides overrides (DeployParams.loadParameters c).2
    = (list_to_map overrides
         ∪ ParamsView.fileMap
             (ParamsView.fileEntries (GoStrings.Split c (Deploy.lineEndingOf c))),
       (ParamsView.fileEntries (GoStrings.Split c (Deploy.lineEndingOf c))).*1
       ++ ParamsView.newKeys
            (ParamsView.fileMap
               (ParamsView.fileEntries (GoStrings.Split c (Deploy.lineEndingOf c))))
            overrides)).
  { intros c. unfold DeployParams.loadParameters. cbn [snd].
    rewrite ParamsFacts.readParameterLines_entries.
    rewrite (ParamsFacts.applyOverrides_spec _ _ Hnd). reflexivity. }
  split.
  - unfold DeployParams.MergeParametersFile in Hrun.
    assert (Hload :
      (if GoOS.fileExists paramsPath fs
       then match GoOS.ReadFile paramsPath fs with
            | Some c => GoOS.Ok (DeployParams.loadParameters c)
            | None => GoOS.Err "failed to read parameters.prop"
            end
       else GoOS.Ok (GoStrings.LF, (∅, [])))
      = GoOS.Ok (DeployParams.loadParameters content)).
    { subst content. unfold MergedParamsView.contentRead.
      destruct (GoOS.fileExists paramsPath fs); [|reflexivity].
      destruct (GoOS.ReadFile paramsPath fs); [reflexivity | discriminate]. }
    rewrite Hload in Hrun.
    destruct (DeployParams.loadParameters content) as [le st] eqn:El.
    assert (Hle : le = lineEnding).
    { unfold DeployParams.loadParameters in El. now injection El as <- _. }
    assert (Hst' : DeployParams.applyOverrides overrides st
                   = DeployParams.applyOverrides overrides
                       (DeployParams.loadParameters content).2)
      by (now rewrite El).
    rewrite Hst in Hst'.
    destruct (GoOS.MkdirAll _ fs) as [fs1|]; [|discriminate].
    destruct (GoOS.WriteFile outputPath _ fs1) as [fs2|] eqn:Ew; [|discriminate].
    injection Hrun as <-. exists fs1. split; [reflexivity |].
    rewrite <- Ew. f_equal. subst le.
    unfold MergedParamsView.terminated, DeployParams.parameterLines.
    rewrite Hst'. reflexivity.
  - intros key value Hin. subst lines. unfold MergedParamsView.mergedLines.
    set (entries := ParamsView.fileEntries _).
    assert (Hv : (list_to_map overrides ∪ ParamsView.fileMap entries) !! key
                 = Some value).
    { apply lookup_union_Some_l. now apply elem_of_list_to_map_1. }
    apply list_elem_of_fmap. exists key. split; [now rewrite Hv |].
    apply elem_of_app.
    destruct (ParamsView.fileMap entries !! key) as [v0|] eqn:Ef.
    + left. clear - Ef. unfold ParamsView.fileMap in Ef.
      assert (Hgen : forall (m : gmap string string) l,
                foldl (fun m kv => <[kv.1 := kv.2]> m) m l !! key = Some v0 ->
                m !! key = Some v0 \/ key ∈ l.*1).
      { intros m l. revert m. induction l as [|[k v] l IH]; intros m Hl.
        - now left.
        - cbn [foldl fst snd] in Hl. apply IH in Hl as [Hl|Hl].
          + destruct (decide (k = key)) as [->|Hne].
            * right. left.
            * rewrite lookup_insert_ne in Hl by assumption. now left.
          + right. now right. }
      apply Hgen in Ef as [Ef|Ef]; [|exact Ef].
      rewrite lookup_empty in Ef. discriminate.
    + right. unfold ParamsView.newKeys. apply list_elem_of_In.
      apply List.filter_In. split.
      * apply list_elem_of_In. apply list_elem_of_fmap. now exists (key, value).
      * now apply bool_decide_eq_true_2.
Qed.

(** The theorem at a concrete input. *)
Lemma MergeParametersFile_lines_witness :
  "host=new" ∈ MergedParamsView.mergedLines Scenarios2.parametersProp
                 [("host", "new"); ("user", "u1")] /\
  "user=u1" ∈ MergedParamsView.mergedLines Scenarios2.parametersProp
                [("host", "new"); ("user", "u1")].
Proof.
  destruct (@MergeParametersFile_lines (gmap string string) MemFS.memPlatform
              "parameters.prop" [("host", "new"); ("user", "u1")]
              "out/parameters.prop" Scenarios2.filesParams
              (<["out/parameters.prop" :=
                   "host=new" +:+ GoStrings.LF +:+ "port=1" +:+ GoStrings.LF
                   +:+ "host=new" +:+ GoStrings.LF +:+ "user=u1" +:+ GoStrings.LF]>
                 Scenarios2.filesParams))
    as [_ Hin].
  - apply NoDup_cons. split; [| apply NoDup_singleton].
    cbn. rewrite list_elem_of_singleton. discriminate.
  - vm_compute. reflexivity.
  - assert (Hc : MergedParamsView.contentRead "parameters.prop"
                   Scenarios2.filesParams = Scenarios2.parametersProp)
      by (vm_compute; reflexivity).
    rewrite Hc in Hin.
    split; [apply (Hin "host" "new") | apply (Hin "user" "u1")];
      repeat constructor.
Defined.
